(** * Confluence-export converter (app.py): model and verified properties

    Python values are modelled as follows.
    - [str] is a list of Unicode code points ([N]); [bytes] is a list of
      octets ([N] below 256).
    - Library calls ([str.split], [str.strip], [re.search], [re.sub],
      [base64.b64decode], [bytes.decode], ...) are modelled by executable
      functions with the behaviour CPython documents for them; a call that
      can raise returns an [option].
    - The working directory is a finite map from paths to file contents,
      with the set of its directories; a call that changes it can be
      refused by the system, and then raises. *)

From Stdlib Require Import NArith List String Ascii Lia Bool.
From stdpp Require Import gmap.

Local Open Scope N_scope.

(** ** Python [str] and [bytes] *)

Abbreviation str := (list N).
Abbreviation bytes := (list N).

(** A source-code string literal (ASCII) as a [str]. *)
Definition py (s : string) : str := map N_of_ascii (list_ascii_of_string s).
Arguments py s%_string.

(** The double-quote character, which cannot be typed inside [py "..."]. *)
Definition dq : N := 34.

Module Str.

(** [str.isspace] on one code point ([Py_UNICODE_ISSPACE]); the class [\s]
    of [re] on [str] patterns is the same set. *)
Definition isspace (c : N) : bool :=
  ((9 <=? c) && (c <=? 13)) || ((28 <=? c) && (c <=? 32))
  || (c =? 0x85) || (c =? 0xA0) || (c =? 0x1680)
  || ((0x2000 <=? c) && (c <=? 0x200A))
  || (c =? 0x2028) || (c =? 0x2029) || (c =? 0x202F) || (c =? 0x205F)
  || (c =? 0x3000).

Fixpoint lstrip (s : str) : str :=
  match s with
  | c :: t => if isspace c then lstrip t else s
  | [] => []
  end.

Definition rstrip (s : str) : str := rev (lstrip (rev s)).

(** [s.strip()] *)
Definition strip (s : str) : str := rstrip (lstrip s).

(** [s.startswith(p)] *)
Fixpoint startswith (p s : str) : bool :=
  match p, s with
  | [], _ => true
  | a :: p', b :: s' => (a =? b) && startswith p' s'
  | _ :: _, [] => false
  end.

(** [s.find(sub)], [None] standing for -1. *)
Fixpoint find (sub s : str) : option nat :=
  if startswith sub s then Some 0%nat
  else match s with
       | [] => None
       | _ :: t => S <$> find sub t
       end.

(** [sub in s] *)
Definition contains (sub s : str) : bool :=
  match find sub s with Some _ => true | None => false end.

(** [s.split(sep)]: cut at the leftmost occurrence of [sep], resume after
    it. Every cut consumes a character, so [length s] rounds are enough. *)
Fixpoint split_loop (fuel : nat) (sep s : str) : list str :=
  match fuel with
  | O => [s]
  | S n =>
      match find sep s with
      | None => [s]
      | Some i => take i s :: split_loop n sep (drop (i + length sep) s)
      end
  end.

(** [None] is [ValueError: empty separator]. *)
Definition split (sep s : str) : option (list str) :=
  match sep with
  | [] => None
  | _ => Some (split_loop (length s) sep s)
  end.

(** [s.replace(old, new)] *)
Fixpoint replace_loop (fuel : nat) (old new s : str) : str :=
  match fuel with
  | O => s
  | S n =>
      match find old s with
      | None => s
      | Some i => take i s ++ new ++ replace_loop n old new (drop (i + length old) s)
      end
  end.

Definition replace (old new s : str) : str :=
  match old with
  | [] => new ++ concat (map (fun c => c :: new) s)
  | _ => replace_loop (length s) old new s
  end.

(** [sep.join(l)] *)
Fixpoint join (sep : str) (l : list str) : str :=
  match l with
  | [] => []
  | [x] => x
  | x :: t => x ++ sep ++ join sep t
  end.

(** Lower-casing of one code point as [_sre] does it for the letters that
    occur in this program's patterns: ASCII capitals, and the two capitals
    outside ASCII whose lower case is an ASCII letter. *)
Definition lower_char (c : N) : N :=
  if (65 <=? c) && (c <=? 90) then c + 32
  else if c =? 0x130 then 105
  else if c =? 0x212A then 107
  else c.

Definition upper_char (c : N) : N :=
  if (97 <=? c) && (c <=? 122) then c - 32 else c.

(** [s.lower()] restricted to ASCII capitals. No other code point
    lower-cases to a character of ['<html'] or of ['doc'], the only texts
    this program compares a lower-cased string with. *)
Definition ascii_lower (c : N) : N :=
  if (65 <=? c) && (c <=? 90) then c + 32 else c.

Definition lower (s : str) : str := map ascii_lower s.

End Str.

(** ** The [re] module, for the patterns of this program

    A backtracking matcher in continuation-passing style: alternatives are
    tried left to right, a greedy repetition tries the longest run first, a
    lazy one the shortest, and the first complete match wins, as in [re].
    The patterns of app.py repeat single-character classes only and have at
    most one capturing group, so that is what the syntax offers. *)

Module Re.
Import Str.

Record flags := { IGNORECASE : bool; DOTALL : bool }.

Definition no_flags : flags := {| IGNORECASE := false; DOTALL := false |}.

(** One-character matchers. *)
Inductive cclass :=
| Any                                          (* [.] *)
| Space                                        (* [\s] *)
| OneOf (neg : bool) (ranges : list (N * N)).  (* [[...]] and [[^...]] *)

Inductive regex :=
| Lit (s : str)                      (* literal text *)
| Chr (c : cclass)
| Star (greedy : bool) (c : cclass)  (* [c*] and [c*?] *)
| Cat (a b : regex)
| Alt (a b : regex)                  (* [a|b] *)
| Group (a : regex)                  (* [(a)], the pattern's group 1 *)
| Eos.                               (* [$] without [re.MULTILINE] *)

(** [c+] and [c+?] *)
Definition Plus (greedy : bool) (c : cclass) : regex := Cat (Chr c) (Star greedy c).

Definition chars (s : string) : list (N * N) := map (fun c => (c, c)) (py s).
Definition range (lo hi : string) : list (N * N) :=
  match py lo, py hi with
  | [a], [b] => [(a, b)]
  | _, _ => []
  end.

Definition in_ranges (rs : list (N * N)) (x : N) : bool :=
  existsb (fun r => (fst r <=? x) && (x <=? snd r)) rs.

(** A pattern character against a text character. Under [re.IGNORECASE]
    the two are compared lower-cased; [i] and [s] also match the dotless i
    and the long s. *)
Definition chr_eq (fl : flags) (p x : N) : bool :=
  if IGNORECASE fl
  then (lower_char x =? lower_char p)
       || ((lower_char p =? 105) && (x =? 0x131))
       || ((lower_char p =? 115) && (x =? 0x17F))
  else x =? p.

Definition class_match (fl : flags) (c : cclass) (x : N) : bool :=
  match c with
  | Any => DOTALL fl || negb (x =? 10)
  | Space => isspace x
  | OneOf neg rs =>
      xorb neg (in_ranges rs x
                || (IGNORECASE fl
                    && (in_ranges rs (lower_char x) || in_ranges rs (upper_char x))))
  end.

(** A match in progress yields the text left after it and group 1. *)
Definition result : Type := option (str * option str).
Definition cont : Type := str -> option str -> result.

Fixpoint lit_match (fl : flags) (p s : str) : option str :=
  match p, s with
  | [], _ => Some s
  | a :: p', x :: s' => if chr_eq fl a x then lit_match fl p' s' else None
  | _ :: _, [] => None
  end.

Fixpoint star_greedy (fl : flags) (c : cclass) (s : str) (k : str -> result) : result :=
  match s with
  | x :: s' =>
      if class_match fl c x
      then match star_greedy fl c s' k with
           | Some r => Some r
           | None => k s
           end
      else k s
  | [] => k []
  end.

Fixpoint star_lazy (fl : flags) (c : cclass) (s : str) (k : str -> result) : result :=
  match k s with
  | Some r => Some r
  | None =>
      match s with
      | x :: s' => if class_match fl c x then star_lazy fl c s' k else None
      | [] => None
      end
  end.

(** [$]: at the end of the text, or just before a newline that ends it. *)
Definition at_end (s : str) : bool :=
  match s with
  | [] => true
  | [c] => c =? 10
  | _ => false
  end.

Fixpoint run (fl : flags) (r : regex) (s : str) (g : option str) (k : cont) : result :=
  match r with
  | Lit p => match lit_match fl p s with Some s' => k s' g | None => None end
  | Chr c =>
      match s with
      | x :: s' => if class_match fl c x then k s' g else None
      | [] => None
      end
  | Star true c => star_greedy fl c s (fun s' => k s' g)
  | Star false c => star_lazy fl c s (fun s' => k s' g)
  | Cat a b => run fl a s g (fun s' g' => run fl b s' g' k)
  | Alt a b =>
      match run fl a s g k with
      | Some res => Some res
      | None => run fl b s g k
      end
  | Group a => run fl a s g (fun s' _ => k s' (Some (take (length s - length s') s)))
  | Eos => if at_end s then k s g else None
  end.

(** [re.match] at the start of [s]. *)
Definition match_here (fl : flags) (r : regex) (s : str) : result :=
  run fl r s None (fun s' g => Some (s', g)).

(** [re.search(r, s)]: the leftmost match, as the text before it, the text
    after it and group 1. *)
Fixpoint search (fl : flags) (r : regex) (s : str) : option (str * str * option str) :=
  match match_here fl r s with
  | Some (rest, g) => Some ([], rest, g)
  | None =>
      match s with
      | [] => None
      | x :: t =>
          match search fl r t with
          | Some (pre, rest, g) => Some (x :: pre, rest, g)
          | None => None
          end
      end
  end.

(** [re.search(r, s).group(1)] when there is a match. *)
Definition search_group (fl : flags) (r : regex) (s : str) : option str :=
  match search fl r s with
  | Some (_, _, g) => Some (default [] g)
  | None => None
  end.

(** [re.sub(r, repl, s)] for a replacement text without group references.
    Each round consumes a character, so [S (length s)] rounds are enough.
    After an empty match the next character is copied, as [re] does. *)
Fixpoint sub_loop (fuel : nat) (fl : flags) (r : regex) (repl s : str) : str :=
  match fuel with
  | O => s
  | S n =>
      match search fl r s with
      | None => s
      | Some (pre, rest, _) =>
          if (length pre + length rest <? length s)%nat
          then pre ++ repl ++ sub_loop n fl r repl rest
          else match rest with
               | [] => pre ++ repl
               | x :: t => pre ++ repl ++ x :: sub_loop n fl r repl t
               end
      end
  end.

Definition sub (fl : flags) (r : regex) (repl s : str) : str :=
  sub_loop (S (length s)) fl r repl s.

(** [re.split(r, s)] for a pattern with one capturing group that takes
    part in every match and that cannot match the empty text (the one
    pattern app.py splits on): the text before each match, then group 1. *)
Fixpoint re_split_loop (fuel : nat) (fl : flags) (r : regex) (s : str) : list str :=
  match fuel with
  | O => [s]
  | S n =>
      match search fl r s with
      | None => [s]
      | Some (pre, rest, g) =>
          if (length pre + length rest <? length s)%nat
          then pre :: match g with Some x => [x] | None => [] end
                   ++ re_split_loop n fl r rest
          else [s]
      end
  end.

Definition re_split (fl : flags) (r : regex) (s : str) : list str :=
  re_split_loop (S (length s)) fl r s.

End Re.

(** ** Codecs: [base64], [quopri], UTF-8 and UTF-16 *)

Module Codec.
Import Str.

(** *** base64 *)

Definition b64_char (v : N) : N :=
  if v <? 26 then v + 65
  else if v <? 52 then v + 71
  else if v <? 62 then v - 4
  else if v =? 62 then 43
  else 47.

Definition b64_value (c : N) : option N :=
  if (65 <=? c) && (c <=? 90) then Some (c - 65)
  else if (97 <=? c) && (c <=? 122) then Some (c - 71)
  else if (48 <=? c) && (c <=? 57) then Some (c + 4)
  else if c =? 43 then Some 62
  else if c =? 47 then Some 63
  else None.

(** [base64.b64encode] (RFC 4648, with padding). *)
Fixpoint b64encode (b : bytes) : str :=
  match b with
  | [] => []
  | [x] =>
      [b64_char (N.shiftr x 2); b64_char (N.shiftl (N.land x 3) 4); 61; 61]
  | [x; y] =>
      [b64_char (N.shiftr x 2);
       b64_char (N.lor (N.shiftl (N.land x 3) 4) (N.shiftr y 4));
       b64_char (N.shiftl (N.land y 15) 2); 61]
  | x :: y :: z :: t =>
      b64_char (N.shiftr x 2)
      :: b64_char (N.lor (N.shiftl (N.land x 3) 4) (N.shiftr y 4))
      :: b64_char (N.lor (N.shiftl (N.land y 15) 2) (N.shiftr z 6))
      :: b64_char (N.land z 63)
      :: b64encode t
  end.

(** [binascii.a2b_base64] in its default, non-strict mode: characters
    outside the alphabet are skipped, a sufficient run of [=] after at
    least two characters of a quad ends the data, and leftover characters
    of a quad are an error ([None]). *)
Fixpoint a2b_base64 (s : bytes) (quad_pos : nat) (leftchar : N) (pads : nat)
    (out : bytes) : option bytes :=
  match s with
  | [] => match quad_pos with O => Some out | _ => None end
  | c :: s' =>
      if c =? 61 then
        if (2 <=? quad_pos)%nat && (4 <=? quad_pos + S pads)%nat then Some out
        else a2b_base64 s' quad_pos leftchar
               (if (2 <=? quad_pos)%nat then S pads else pads) out
      else
        match b64_value c with
        | None => a2b_base64 s' quad_pos leftchar pads out
        | Some v =>
            match quad_pos with
            | 0%nat => a2b_base64 s' 1 v 0 out
            | 1%nat =>
                a2b_base64 s' 2 (N.land v 15) 0
                  (out ++ [N.lor (N.shiftl leftchar 2) (N.shiftr v 4)])
            | 2%nat =>
                a2b_base64 s' 3 (N.land v 3) 0
                  (out ++ [N.lor (N.shiftl leftchar 4) (N.shiftr v 2)])
            | _ =>
                a2b_base64 s' 0 0 0 (out ++ [N.lor (N.shiftl leftchar 6) v])
            end
        end
  end.

(** [base64.b64decode(s)] for a [str] argument: the text must be ASCII
    ([ValueError] otherwise), then [binascii.a2b_base64]. *)
Definition b64decode (s : str) : option bytes :=
  if forallb (fun c => c <? 128) s then a2b_base64 s 0 0 0 [] else None.

(** *** Unicode codecs *)

(** The [errors] argument of [bytes.decode]. *)
Inductive errors := Strict | Ignore.

(** What a decoder does at malformed input: [UnicodeDecodeError] ([None])
    or carry on without it. *)
Definition on_error (e : errors) (rest : option str) : option str :=
  match e with Strict => None | Ignore => rest end.

(** The 16-bit units of a byte string, low byte first, and whether a byte
    is left over. *)
Fixpoint utf16le_units (b : bytes) : list N * bool :=
  match b with
  | [] => ([], false)
  | [_] => ([], true)
  | lo :: hi :: t => let (u, odd) := utf16le_units t in ((lo + 256 * hi) :: u, odd)
  end.

Fixpoint utf16be_units (b : bytes) : list N * bool :=
  match b with
  | [] => ([], false)
  | [_] => ([], true)
  | hi :: lo :: t => let (u, odd) := utf16be_units t in ((lo + 256 * hi) :: u, odd)
  end.

Definition is_high (u : N) : bool := (0xD800 <=? u) && (u <=? 0xDBFF).
Definition is_low (u : N) : bool := (0xDC00 <=? u) && (u <=? 0xDFFF).

(** Units to code points; [odd] says that the data ends in half a unit. *)
Fixpoint utf16_units_decode (e : errors) (odd : bool) (u : list N) : option str :=
  match u with
  | [] => if odd then on_error e (Some []) else Some []
  | h :: t =>
      if is_high h then
        match t with
        | [] => on_error e (Some [])
        | l :: t' =>
            if is_low l
            then cons (0x10000 + N.shiftl (h - 0xD800) 10 + (l - 0xDC00))
                   <$> utf16_units_decode e odd t'
            else on_error e (utf16_units_decode e odd t)
        end
      else if is_low h then on_error e (utf16_units_decode e odd t)
      else cons h <$> utf16_units_decode e odd t
  end.

(** [b.decode('utf-16', errors=e)]: a byte-order mark selects the byte
    order and is consumed; without one the order is the machine's, taken
    to be little-endian. *)
Definition utf16_decode (e : errors) (b : bytes) : option str :=
  match b with
  | 0xFF :: 0xFE :: t => let (u, odd) := utf16le_units t in utf16_units_decode e odd u
  | 0xFE :: 0xFF :: t => let (u, odd) := utf16be_units t in utf16_units_decode e odd u
  | _ => let (u, odd) := utf16le_units b in utf16_units_decode e odd u
  end.

(** [x.encode('utf-16')]: the mark, then the units low byte first. [None]
    is [UnicodeEncodeError] (a surrogate or a value past U+10FFFF). *)
Fixpoint utf16le_encode (x : str) : option bytes :=
  match x with
  | [] => Some []
  | c :: t =>
      if (c <? 0xD800) || ((0xE000 <=? c) && (c <? 0x10000)) then
        app [c mod 256; c / 256] <$> utf16le_encode t
      else if (0x10000 <=? c) && (c <? 0x110000) then
        let h := 0xD800 + N.shiftr (c - 0x10000) 10 in
        let l := 0xDC00 + N.land (c - 0x10000) 0x3FF in
        app [h mod 256; h / 256; l mod 256; l / 256] <$> utf16le_encode t
      else None
  end.

Definition utf16_encode (x : str) : option bytes :=
  app [0xFF; 0xFE] <$> utf16le_encode x.

Definition is_cont (b : N) : bool := (0x80 <=? b) && (b <=? 0xBF).

(** The well-formed UTF-8 sequence at the head of [b], if any: its code
    point and its length. *)
Definition utf8_seq (b : bytes) : option (N * nat) :=
  match b with
  | [] => None
  | b0 :: t =>
      if b0 <? 0x80 then Some (b0, 1%nat)
      else if (0xC2 <=? b0) && (b0 <=? 0xDF) then
        match t with
        | b1 :: _ =>
            if is_cont b1 then Some ((b0 - 0xC0) * 64 + (b1 - 0x80), 2%nat) else None
        | _ => None
        end
      else if (0xE0 <=? b0) && (b0 <=? 0xEF) then
        match t with
        | b1 :: b2 :: _ =>
            if is_cont b1 && is_cont b2
               && negb ((b0 =? 0xE0) && (b1 <? 0xA0))
               && negb ((b0 =? 0xED) && (0xA0 <=? b1))
            then Some ((b0 - 0xE0) * 4096 + (b1 - 0x80) * 64 + (b2 - 0x80), 3%nat)
            else None
        | _ => None
        end
      else if (0xF0 <=? b0) && (b0 <=? 0xF4) then
        match t with
        | b1 :: b2 :: b3 :: _ =>
            if is_cont b1 && is_cont b2 && is_cont b3
               && negb ((b0 =? 0xF0) && (b1 <? 0x90))
               && negb ((b0 =? 0xF4) && (0x90 <=? b1))
            then Some ((b0 - 0xF0) * 262144 + (b1 - 0x80) * 4096
                       + (b2 - 0x80) * 64 + (b3 - 0x80), 4%nat)
            else None
        | _ => None
        end
      else None
  end.

(** [b.decode('utf-8', errors=e)]; [skip] counts the bytes of the current
    sequence still to pass over. *)
Fixpoint utf8_decode_from (e : errors) (b : bytes) (skip : nat) : option str :=
  match b with
  | [] => Some []
  | _ :: t =>
      match skip with
      | S n => utf8_decode_from e t n
      | O =>
          match utf8_seq b with
          | Some (cp, len) => cons cp <$> utf8_decode_from e t (len - 1)
          | None => on_error e (utf8_decode_from e t 0)
          end
      end
  end.

Definition utf8_decode (e : errors) (b : bytes) : option str := utf8_decode_from e b 0.

(** [s.encode('utf-8')]; [None] is [UnicodeEncodeError]. *)
Fixpoint utf8_encode (s : str) : option bytes :=
  match s with
  | [] => Some []
  | c :: t =>
      if c <? 0x80 then cons c <$> utf8_encode t
      else if c <? 0x800 then
        app [0xC0 + c / 64; 0x80 + c mod 64] <$> utf8_encode t
      else if (c <? 0xD800) || ((0xE000 <=? c) && (c <? 0x10000)) then
        app [0xE0 + c / 4096; 0x80 + (c / 64) mod 64; 0x80 + c mod 64]
          <$> utf8_encode t
      else if (0x10000 <=? c) && (c <? 0x110000) then
        app [0xF0 + c / 262144; 0x80 + (c / 4096) mod 64;
             0x80 + (c / 64) mod 64; 0x80 + c mod 64] <$> utf8_encode t
      else None
  end.

(** Text-mode reading translates [\r\n] and [\r] to [\n]. *)
Fixpoint universal_newlines (s : str) : str :=
  match s with
  | [] => []
  | c :: t =>
      if c =? 13 then
        match t with
        | d :: t' => if d =? 10 then 10 :: universal_newlines t'
                     else 10 :: universal_newlines t
        | [] => [10]
        end
      else c :: universal_newlines t
  end.

(** *** quoted-printable *)

Definition is_hex (c : N) : bool :=
  ((48 <=? c) && (c <=? 57)) || ((65 <=? c) && (c <=? 70))
  || ((97 <=? c) && (c <=? 102)).

Definition hex_value (c : N) : N :=
  if c <=? 57 then c - 48 else if c <=? 70 then c - 55 else c - 87.

(** [quopri.decodestring] ([binascii.a2b_qp], [header=False]). [mode] is
    what the bytes read so far ask of the next ones: nothing, skip [n]
    bytes, or skip up to and including the next newline. *)
Inductive qp_mode := QpText | QpSkip (n : nat) | QpToNewline.

Fixpoint a2b_qp (s : bytes) (mode : qp_mode) : bytes :=
  match s with
  | [] => []
  | c :: t =>
      match mode with
      | QpSkip (S n) => a2b_qp t (QpSkip n)
      | QpToNewline => if c =? 10 then a2b_qp t QpText else a2b_qp t QpToNewline
      | _ =>
          if c =? 61 then
            match t with
            | [] => []
            | d :: t' =>
                if d =? 10 then a2b_qp t (QpSkip 1)
                else if d =? 13 then a2b_qp t QpToNewline
                else if d =? 61 then 61 :: a2b_qp t (QpSkip 1)
                else match t' with
                     | d' :: _ =>
                         if is_hex d && is_hex d'
                         then (16 * hex_value d + hex_value d') :: a2b_qp t (QpSkip 2)
                         else 61 :: a2b_qp t QpText
                     | [] => 61 :: a2b_qp t QpText
                     end
            end
          else c :: a2b_qp t QpText
      end
  end.

Definition quopri_decodestring (s : bytes) : bytes := a2b_qp s QpText.

End Codec.

(** ** The converter (app.py) *)

Module App.
Import Str Re Codec.

Definition nl : N := 10.
Definition cr : N := 13.

(** Library functions that are used but not modelled. *)
Class Libs := {
  (** [_charref.sub(_replace_charref, s)] of the [html] module *)
  charref_sub : str -> str;
  (** [werkzeug.utils.secure_filename] *)
  secure_filename : str -> str
}.

(** [html.unescape(s)] *)
Definition html_unescape `{Libs} (s : str) : str :=
  if contains (py "&") s then charref_sub s else s.

(** *** Paths

    [pathlib.PurePosixPath]; a path is given by the string that [str]
    returns for it. *)

(** [part.lstrip('/')] *)
Fixpoint lstrip_sep (part : str) : str :=
  match part with
  | c :: t => if c =? 47 then lstrip_sep t else part
  | [] => []
  end.

(** [splitroot(part)]: the root and what follows it. Exactly two leading
    slashes are a root of their own. *)
Definition splitroot (part : str) : str * str :=
  if startswith (py "/") part then
    let stripped_part := lstrip_sep part in
    if (length part - length stripped_part =? 2)%nat
    then (py "//", stripped_part)
    else (py "/", stripped_part)
  else ([], part).

(** [parse_parts]: the root and the names, empty names and [.] left out. *)
Definition parse_path (s : str) : str * list str :=
  let (root, rel) := splitroot s in
  (root,
   List.filter (fun x => negb (bool_decide (x = [])) && negb (bool_decide (x = py ".")))
     (default [] (split (py "/") rel))).

(** [str(path)] *)
Definition format_path (p : str * list str) : str :=
  let (root, names) := p in
  match root ++ join (py "/") names with
  | [] => py "."
  | s => s
  end.

(** [str(Path(dir) / name)]: a name with a root replaces [dir]. *)
Definition path_join (dir name : str) : str :=
  let (root, names) := parse_path dir in
  let (root2, names2) := parse_path name in
  format_path (if bool_decide (root2 = []) then (root, names ++ names2)
               else (root2, names2)).

(** *** Files

    The tree the program works on: the content of the files that can be
    read, by the path they are opened with; the directories; and the
    dictionary that [metadata.json] stores, empty when that file is
    missing or cannot be parsed. Different paths are taken to name
    different files (no links), and no path of the tree holds a NUL. *)

Record doc_meta := {
  meta_filename : str;
  meta_navigation : list str;
  meta_full_navigation : str;
  meta_path : str
}.

Record world := {
  files : gmap (list N) (list N);
  dirs : gset (list N);
  metadata : gmap (list N) doc_meta
}.

(** What becomes of [metadata.json] in [save_metadata]: it is rewritten;
    or it cannot be opened, and stays; or the writing breaks off, and
    leaves a text that [load_metadata] cannot parse. *)
Inductive saving := Saved | Refused | Broken.

(** The system. Whether it carries out a call that changes the tree or
    refuses it (a name that is too long, a missing directory, a directory
    where a file is wanted, rights, room) is not the program's doing and
    is not modelled: each call asks here, and a refusal comes with the text
    of the exception, [str(e)]. *)
Class System := {
  (** [os.mkdir(path)], an existing directory not counting as a refusal *)
  mkdir_error : world -> str -> option str;
  (** [open(path, 'w')] and [open(path, 'wb')] *)
  open_error : world -> str -> option str;
  (** [f.write(data)] and the closing of [f], once [open] has succeeded:
      the text of the exception and what the file is left with *)
  write_error : world -> str -> bytes -> option (str * bytes);
  (** [os.unlink(path)] *)
  unlink_error : world -> str -> option str;
  (** [open(path, 'r')] of a path that holds no file that can be read *)
  read_error : world -> str -> str;
  (** the [with] block of [save_metadata] *)
  save_metadata_result : world -> gmap (list N) doc_meta -> saving;
  (** a directory cannot be opened for writing *)
  open_directory : forall w path, path ∈ dirs w -> open_error w path <> None
}.

(** A path with a NUL never reaches the system: the call raises
    [ValueError('embedded null byte')]. *)
Definition call_error (answer : world -> str -> option str) (w : world) (path : str)
    : option str :=
  if contains [0] path then Some (py "embedded null byte") else answer w path.

Definition set_file (path : str) (data : bytes) (w : world) : world :=
  {| files := <[path := data]> (files w); dirs := dirs w; metadata := metadata w |}.

(** [path.mkdir(exist_ok=True)]; the text of the exception, if any. *)
Definition mkdir `{System} (path : str) (w : world) : world * option str :=
  match call_error mkdir_error w path with
  | Some e => (w, Some e)
  | None =>
      ({| files := files w; dirs := {[path]} ∪ dirs w; metadata := metadata w |}, None)
  end.

(** [with open(path, 'wb') as f: f.write(data)], which is also what
    [file.save(path)] does; the text of the exception, if any. *)
Definition write_file `{System} (path : str) (data : bytes) (w : world)
    : world * option str :=
  match call_error open_error w path with
  | Some e => (w, Some e)
  | None =>
      match write_error w path data with
      | Some (e, rest) => (set_file path rest w, Some e)
      | None => (set_file path data w, None)
      end
  end.

(** [with open(path, 'w', encoding='utf-8') as f: f.write(text)]; [false]
    when it raises. A text that cannot be encoded leaves the file empty.
    Newlines are written as they are (POSIX). *)
Definition write_text `{System} (path : str) (text : str) (w : world) : world * bool :=
  match call_error open_error w path with
  | Some _ => (w, false)
  | None =>
      match utf8_encode text with
      | None => (set_file path [] w, false)        (* UnicodeEncodeError *)
      | Some data =>
          match write_error w path data with
          | Some (_, rest) => (set_file path rest w, false)
          | None => (set_file path data w, true)
          end
      end
  end.

(** [try: path.unlink() / except Exception: print(...)] *)
Definition unlink `{System} (path : str) (w : world) : world :=
  match call_error unlink_error w path with
  | Some _ => w
  | None => {| files := delete path (files w); dirs := dirs w; metadata := metadata w |}
  end.

(** [path.exists()] *)
Definition path_exists (path : str) (w : world) : bool :=
  bool_decide (is_Some (files w !! path)) || bool_decide (path ∈ dirs w).

Definition UPLOAD_FOLDER : str := py "upload".
Definition UPLOAD_HTML_FOLDER : str := py "upload-html".

(** The text after the last ['.']: [filename.rsplit('.', 1)[1]] when
    [filename] has a ['.']. *)
Definition rsplit_dot_last (filename : str) : str :=
  fold_left (fun acc c => if c =? 46 then [] else acc ++ [c]) filename [].

(** [allowed_file(filename)] *)
Definition allowed_file (filename : str) : bool :=
  contains (py ".") filename
  && bool_decide (lower (rsplit_dot_last filename) = py "doc").

(** *** decode_html_content *)

(** [\s+] *)
Definition ws_re : regex := Plus true Space.

Definition decode_html_content (encoded_html encoding_type : str) : str :=
  if bool_decide (encoding_type = py "base64") then
    let clean_base64 := sub no_flags ws_re [] encoded_html in
    match b64decode clean_base64 with
    | Some decoded_bytes =>
        match utf16_decode Ignore decoded_bytes with
        | Some text => text
        | None =>                                  (* except UnicodeDecodeError *)
            match utf8_decode Ignore decoded_bytes with
            | Some text => text
            | None => encoded_html
            end
        end
    | None => encoded_html                         (* except Exception *)
    end
  else if bool_decide (encoding_type = py "quoted-printable") then
    match utf8_encode encoded_html with
    | Some encoded_bytes =>
        match utf8_decode Ignore (quopri_decodestring encoded_bytes) with
        | Some text => text
        | None => encoded_html
        end
    | None => encoded_html                         (* except Exception *)
    end
  else encoded_html.

(** *** Images *)

(** [[a-fA-F0-9]] *)
Definition hex_class : cclass :=
  OneOf false (range "a" "f" ++ range "A" "F" ++ range "0" "9").

(** [Content-Location: file:///C:/[a-fA-F0-9]+/(.*?\.(?:png|jpg|jpeg|gif))] *)
Definition location_path_re : regex :=
  Cat (Lit (py "Content-Location: file:///C:/"))
 (Cat (Plus true hex_class)
 (Cat (Lit (py "/"))
      (Group (Cat (Star false Any)
             (Cat (Lit (py "."))
                  (Alt (Lit (py "png")) (Alt (Lit (py "jpg"))
                  (Alt (Lit (py "jpeg")) (Lit (py "gif")))))))))).

(** [Content-Location: file:///C:/([a-fA-F0-9]+)$] *)
Definition location_hash_re : regex :=
  Cat (Lit (py "Content-Location: file:///C:/"))
 (Cat (Group (Plus true hex_class)) Eos).

(** [extract_base64_image(part, image_key)] *)
Definition extract_base64_image (part image_key : str) : option (str * bytes) :=
  match find [nl; nl] part with
  | None => None
  | Some content_start =>
      let base64_data := strip (drop (content_start + 2) part) in
      let base64_data := sub no_flags ws_re [] base64_data in
      match b64decode base64_data with
      | Some image_data => Some (image_key, image_data)
      | None => None                               (* except Exception *)
      end
  end.

(** [extract_image_from_part(part)] *)
Definition extract_image_from_part (part : str) : option (str * bytes) :=
  if negb (contains (py "Content-Transfer-Encoding: base64") part) then None
  else
    match search_group {| IGNORECASE := true; DOTALL := false |}
            location_path_re part with
    | Some image_path => extract_base64_image part image_path
    | None =>
        match search_group no_flags location_hash_re part with
        | Some image_hash => extract_base64_image part image_hash
        | None => None
        end
    end.

(** [os.path.basename] of [posixpath] (the script is a POSIX executable,
    see its first line): the text after the last ['/']. *)
Definition basename (p : str) : str :=
  fold_left (fun acc c => if c =? 47 then [] else acc ++ [c]) p [].

(** [determine_image_filename(image_key, image_data)] *)
Definition sniff_ext (image_data : bytes) : str :=
  if startswith [0x89; 80; 78; 71] image_data then py "png"
  else if startswith [0xff; 0xd8; 0xff] image_data then py "jpg"
  else if startswith (py "GIF") image_data then py "gif"
  else py "png".

Definition determine_image_filename (image_key : str) (image_data : bytes) : str :=
  if contains (py "/") image_key || contains (py "\") image_key
  then basename image_key
  else image_key ++ py "." ++ sniff_ext image_data.

(** A Python [dict] from key to image bytes, in insertion order:
    [images[key] = data]. *)
Fixpoint dict_set (key : str) (data : bytes) (d : list (str * bytes)) : list (str * bytes) :=
  match d with
  | [] => [(key, data)]
  | (k, v) :: t =>
      if bool_decide (k = key) then (k, data) :: t else (k, v) :: dict_set key data t
  end.

(** [src="<x>"] *)
Definition src_attr (x : str) : str := py "src=" ++ [dq] ++ x ++ [dq].

(** What a call that can raise gives: its value, or the text of the
    exception. *)
Inductive outcome (A : Type) :=
| Returned (a : A)
| Raised (e : str).
Arguments Returned {A} a.
Arguments Raised {A} e.

(** One round of the loop of [save_images_and_update_html]; after an
    exception there are no more rounds. *)
Definition save_image `{System} (images_dir : str) (st : world * outcome (str * nat))
    (item : str * bytes) : world * outcome (str * nat) :=
  match st with
  | (w, Raised e) => (w, Raised e)
  | (w, Returned (html_content, saved_count)) =>
      let (image_key, image_data) := item in
      let filename := determine_image_filename image_key image_data in
      let image_path := path_join images_dir filename in
      match write_file image_path image_data w with
      | (w, Some e) => (w, Raised e)
      | (w, None) =>
          let saved_count := S saved_count in
          let html_content :=
            replace (src_attr image_key) (src_attr (py "images/" ++ filename))
              html_content in
          let html_content :=
            if contains (py "/") image_key
            then replace (src_attr filename) (src_attr (py "images/" ++ filename))
                   html_content
            else html_content in
          (w, Returned (html_content, saved_count))
      end
  end.

(** [save_images_and_update_html(html_content, images, output_dir)] *)
Definition save_images_and_update_html `{System} (html_content : str)
    (images : list (str * bytes)) (output_dir : str) (w : world)
    : world * outcome (str * nat) :=
  let images_dir := path_join output_dir (py "images") in
  match mkdir images_dir w with
  | (w, Some e) => (w, Raised e)
  | (w, None) =>
      fold_left (save_image images_dir) images (w, Returned (html_content, 0%nat))
  end.

(** *** Sanitizing *)

Definition dotall : flags := {| IGNORECASE := false; DOTALL := true |}.
Definition ignorecase_dotall : flags := {| IGNORECASE := true; DOTALL := true |}.

(** [<p>.*?[Pp]age [Oo](wner|ner).*?</p>] *)
Definition page_owner_re : regex :=
  Cat (Lit (py "<p>"))
 (Cat (Star false Any)
 (Cat (Chr (OneOf false (chars "Pp")))
 (Cat (Lit (py "age "))
 (Cat (Chr (OneOf false (chars "Oo")))
 (Cat (Group (Alt (Lit (py "wner")) (Lit (py "ner"))))
 (Cat (Star false Any)
      (Lit (py "</p>")))))))).

(** [<p>.*?[Pp]age [Cc]ontact.*?</p>] *)
Definition page_contact_re : regex :=
  Cat (Lit (py "<p>"))
 (Cat (Star false Any)
 (Cat (Chr (OneOf false (chars "Pp")))
 (Cat (Lit (py "age "))
 (Cat (Chr (OneOf false (chars "Cc")))
 (Cat (Lit (py "ontact"))
 (Cat (Star false Any)
      (Lit (py "</p>")))))))).

(** [remove_confluence_metadata(html_content)] *)
Definition remove_confluence_metadata (html_content : str) : str :=
  let html_content := sub dotall page_owner_re [] html_content in
  let html_content := sub dotall page_contact_re [] html_content in
  html_content.

(** *** MIME parts *)

(** [boundary="(.*?)"] *)
Definition boundary_re : regex :=
  Cat (Lit (py "boundary=" ++ [dq])) (Cat (Group (Star false Any)) (Lit [dq])).

(** [------=_(Part|NextPart)_[A-F0-9._]+] *)
Definition boundary_pattern : regex :=
  Cat (Lit (py "------=_"))
 (Cat (Group (Alt (Lit (py "Part")) (Lit (py "NextPart"))))
 (Cat (Lit (py "_"))
      (Plus true (OneOf false (range "A" "F" ++ range "0" "9" ++ chars "._"))))).

(** [_split_mime_parts(text)]; [None] is the [ValueError] of [str.split]. *)
Definition _split_mime_parts (text : str) : option (list str) :=
  match search_group no_flags boundary_re text with
  | Some boundary => split (py "--" ++ boundary) text
  | None => Some (re_split no_flags boundary_pattern text)
  end.

(** [_extract_html_from_part(part)] *)
Definition _extract_html_from_part (part : str) : option str :=
  match find [nl; nl] part with
  | None => None
  | Some content_start =>
      let encoded_html := strip (drop (content_start + 2) part) in
      if contains (py "Content-Transfer-Encoding: base64") part then
        Some (decode_html_content encoded_html (py "base64"))
      else if contains (py "Content-Transfer-Encoding: quoted-printable") part then
        Some (decode_html_content encoded_html (py "quoted-printable"))
      else Some encoded_html
  end.

(** One round of the loop over the parts in [extract_html_and_images]:
    the state is [html_content] and [images]. *)
Definition scan_part (st : option str * list (str * bytes)) (part : str)
    : option str * list (str * bytes) :=
  let (html_content, images) := st in
  if contains (py "Content-Type: text/html") part
     && match html_content with None => true | Some _ => false end
  then (_extract_html_from_part part, images)
  else
    match extract_image_from_part part with
    | Some (image_key, image_data) => (html_content, dict_set image_key image_data images)
    | None => (html_content, images)
    end.

Definition scan_parts (parts : list str) : option str * list (str * bytes) :=
  fold_left scan_part parts (None, []).

(** [open(doc_path, 'r', encoding='utf-8', errors='ignore').read()];
    [None] when there is no such file. *)
Definition read_text (path : str) (w : world) : option str :=
  data ← files w !! path;
  text ← utf8_decode Ignore data;
  Some (universal_newlines text).

(** [extract_html_and_images(doc_path, output_dir)]; whatever is raised
    inside is caught and reported in the message. *)
Definition extract_html_and_images `{System} (doc_path output_dir : str) (w : world)
    : world * (bool * str * nat) :=
  match read_text doc_path w with
  | None =>                                        (* except Exception *)
      (w, (false, py "Error processing document: " ++ read_error w doc_path, 0%nat))
  | Some text =>
      match _split_mime_parts text with
      | None =>                                    (* except Exception *)
          (w, (false, py "Error processing document: empty separator", 0%nat))
      | Some parts =>
          let (html_content, images) := scan_parts parts in
          match html_content with
          | None => (w, (false, py "Could not extract valid HTML content", 0%nat))
          | Some html_content =>
              if bool_decide (html_content = [])
                 || negb (contains (py "<html") (lower html_content))
              then (w, (false, py "Could not extract valid HTML content", 0%nat))
              else
                match save_images_and_update_html html_content images output_dir w with
                | (w, Raised e) =>                 (* except Exception *)
                    (w, (false, py "Error processing document: " ++ e, 0%nat))
                | (w, Returned (html_content, num_images)) =>
                    let html_content := remove_confluence_metadata html_content in
                    (w, (true, html_content, num_images))
                end
          end
      end
  end.

(** *** Navigation *)

(** [<[^>]+>] *)
Definition tag_re : regex :=
  Cat (Lit (py "<")) (Cat (Plus true (OneOf true (chars ">"))) (Lit (py ">"))).

(** [Navigation:\s*(.+?)(?:\n\n|\r\n\r\n|$)] *)
Definition navigation_re : regex :=
  Cat (Lit (py "Navigation:"))
 (Cat (Star true Space)
 (Cat (Group (Plus false Any))
      (Alt (Lit [nl; nl]) (Alt (Lit [cr; nl; cr; nl]) Eos)))).

(** [extract_navigation_from_html(html_content)] *)
Definition extract_navigation_from_html `{Libs} (html_content : str) : option str :=
  let plain_text := sub no_flags tag_re [] html_content in
  match search_group ignorecase_dotall navigation_re plain_text with
  | Some group1 =>
      let nav_text := html_unescape (strip group1) in
      let nav_text := sub no_flags ws_re (py " ") nav_text in
      Some nav_text
  | None => None
  end.

(** [<p[^>]*>.*?Navigation:.*?</p>] and [<div[^>]*>.*?Navigation:.*?</div>] *)
Definition navigation_block_re (tag : str) : regex :=
  Cat (Lit (py "<" ++ tag))
 (Cat (Star true (OneOf true (chars ">")))
 (Cat (Lit (py ">"))
 (Cat (Star false Any)
 (Cat (Lit (py "Navigation:"))
 (Cat (Star false Any)
      (Lit (py "</" ++ tag ++ py ">"))))))).

(** [remove_navigation_from_html(html_content)] *)
Definition remove_navigation_from_html (html_content : str) : str :=
  let html_content :=
    sub ignorecase_dotall (navigation_block_re (py "p")) [] html_content in
  let html_content :=
    sub ignorecase_dotall (navigation_block_re (py "div")) [] html_content in
  html_content.

(** [parse_navigation_path(nav_path)] *)
Definition parse_navigation_path (nav_path : str) : option (list str) :=
  parts ← split (py ">") nav_path;
  Some (map strip parts).

(** [generate_html_filename(navigation_parts)] *)
Definition generate_html_filename (navigation_parts : list str) : str :=
  let clean_parts := map (replace (py " ") []) navigation_parts in
  join (py "_") clean_parts ++ py ".html".

(** *** The metadata file *)

(** [load_metadata()]: the dictionary that [metadata.json] stores, empty
    when there is no such file or it cannot be read. *)
Definition load_metadata (w : world) : gmap (list N) doc_meta := metadata w.

(** [save_metadata(metadata)]: what it returns tells whether the file was
    rewritten. *)
Definition save_metadata `{System} (metadata : gmap (list N) doc_meta) (w : world)
    : world * bool :=
  match save_metadata_result w metadata with
  | Saved => ({| files := files w; dirs := dirs w; metadata := metadata |}, true)
  | Refused => (w, false)
  | Broken => ({| files := files w; dirs := dirs w; metadata := ∅ |}, false)
  end.

(** [add_document_metadata(html_filename, navigation, full_navigation)] *)
Definition add_document_metadata `{System} (html_filename : str) (navigation : list str)
    (full_navigation : str) (w : world) : world * bool :=
  let metadata := load_metadata w in
  let metadata :=
    <[html_filename :=
        {| meta_filename := html_filename;
           meta_navigation := navigation;
           meta_full_navigation := full_navigation;
           meta_path := py "upload-html/" ++ html_filename |}]> metadata in
  save_metadata metadata w.

(** *** The upload view *)

(** [request.files.get('file')] *)
Record upload := { upload_filename : str; upload_content : bytes }.

Inductive response :=
| ErrorJson (status : nat) (error : str)
    (* [jsonify({'error': error}), status] *)
| FailureJson (status : nat) (error : str)
    (* [jsonify({'success': False, 'error': error}), status] *)
| SuccessJson (filename html_filename html_path : str) (images : nat)
    (navigation : list str) (full_navigation : str)
| Unhandled.
    (* an exception leaves the view *)

Definition no_navigation_error : str :=
  py "No navigation found in document. Please add a navigation line like: <p>Navigation: Category > Subcategory > Document Title</p>".

(** [upload_file()], with [request.files.get('file')] as argument. The
    staging of the upload and the writing of the page are outside any
    [try]: what they raise leaves the view. What [add_document_metadata]
    returns is not looked at. *)
Definition upload_file `{Libs} `{System} (file : option upload) (w : world)
    : world * response :=
  match file with
  | None => (w, ErrorJson 400 (py "No file part"))
  | Some file =>
      if bool_decide (upload_filename file = []) then
        (w, ErrorJson 400 (py "No selected file"))
      else if allowed_file (upload_filename file) then
        let filename := secure_filename (upload_filename file) in
        let upload_path := path_join UPLOAD_FOLDER filename in
        match write_file upload_path (upload_content file) w with
        | (w, Some _) => (w, Unhandled)
        | (w, None) =>
            let '(w, (success, result, num_images)) :=
              extract_html_and_images upload_path UPLOAD_HTML_FOLDER w in
            if success then
              match extract_navigation_from_html result with
              | None | Some [] => (w, FailureJson 400 no_navigation_error)
              | Some nav_breadcrumb =>
                  let result := remove_navigation_from_html result in
                  match parse_navigation_path nav_breadcrumb with
                  | None => (w, Unhandled)
                  | Some nav_parts =>
                      let html_filename := generate_html_filename nav_parts in
                      let html_path := path_join UPLOAD_HTML_FOLDER html_filename in
                      match write_text html_path result w with
                      | (w, false) => (w, Unhandled)
                      | (w, true) =>
                          let w := fst (add_document_metadata html_filename nav_parts
                                          nav_breadcrumb w) in
                          let w := unlink upload_path w in
                          (w, SuccessJson filename html_filename
                                (py "upload-html/" ++ html_filename)
                                num_images nav_parts nav_breadcrumb)
                      end
                  end
              end
            else (w, FailureJson 500 result)
        end
      else (w, ErrorJson 400 (py "Invalid file type. Only .doc files are allowed"))
  end.

(** *** The scan view *)

(** One element of the list that [scan_uploads] returns. *)
Record upload_entry := {
  entry_filename : str;
  entry_path : str;
  entry_navigation : list str
}.

(** One round of the loop of [scan_uploads]: the entry is listed when the
    page's path exists. *)
Definition scan_entry (w : world) (uploads : list upload_entry) (item : str * doc_meta)
    : list upload_entry :=
  let (html_filename, doc_metadata) := item in
  let html_path := path_join UPLOAD_HTML_FOLDER html_filename in
  if path_exists html_path w then
    uploads ++ [{| entry_filename := html_filename;
                   entry_path := py "upload-html/" ++ html_filename;
                   entry_navigation := meta_navigation doc_metadata |}]
  else uploads.

(** [scan_uploads()]: the value under ['uploads'] of the answer. The
    dictionary is gone through in the order of [map_to_list]; the order of
    the entries in the file is not represented. *)
Definition scan_uploads (w : world) : list upload_entry :=
  fold_left (scan_entry w) (map_to_list (load_metadata w)) [].

End App.

(** ** Notions of the specification, for comparison with the code *)

Module SpecWords.

(** The final path component of an asset key when both characters that
    [determine_image_filename] tests for, ['/'] and the backslash, separate
    components. *)
Definition final_path_component (key : str) : str :=
  fold_left (fun acc c => if (c =? 47) || (c =? 92) then [] else acc ++ [c]) key [].

End SpecWords.

(** ** Notions used in the statements and proofs *)

Module Notions.
Import Str Re Codec App.

(** A text of whitespace only (possibly empty). *)
Definition blank (s : str) : Prop := Forall (fun c => isspace c = true) s.

(** What [strip] returns in terms of its argument. *)
Definition trimmed_of (seg piece : str) : Prop :=
  exists l r, piece = l ++ seg ++ r /\ blank l /\ blank r /\
    (forall c t, seg = c :: t -> isspace c = false) /\
    (forall t c, seg = t ++ [c] -> isspace c = false).

(** [s] without its space characters (U+0020). *)
Definition drop_spaces (s : str) : str := List.filter (fun c => negb (c =? 32)) s.

(** The step of [basename]: a ['/'] starts the component afresh. *)
Definition basename_step (acc : str) (c : N) : str :=
  if c =? 47 then [] else acc ++ [c].

(** Whether an occurrence of [l] can begin inside [pre], whatever text
    follows: some suffix of [pre] that is not empty starts with [l], or is
    the start of [l]. *)
Fixpoint begins_in (l pre : str) : bool :=
  match pre with
  | [] => false
  | _ :: t => startswith l pre || startswith pre l || begins_in l t
  end.

(** Flags without [re.IGNORECASE]. *)
Definition case_sensitive (fl : flags) : Prop := IGNORECASE fl = false.

(** A match found after [pre], seen from the start of [pre]. *)
Definition shift (pre : str) (m : option (str * str * option str)) :=
  match m with
  | Some (p, rest, g) => Some (pre ++ p, rest, g)
  | None => None
  end.

(** Patterns without a capturing group. *)
Fixpoint group_free (r : regex) : bool :=
  match r with
  | Cat a b | Alt a b => group_free a && group_free b
  | Group _ => false
  | _ => true
  end.

(** The shape of what [re.split] returns for the fallback pattern: text
    chunks with a captured word between any two of them. *)
Fixpoint captures_interleaved (parts : list str) : Prop :=
  match parts with
  | [] => False
  | [_] => True
  | _ :: cap :: more =>
      (cap = py "Part" \/ cap = py "NextPart") /\ captures_interleaved more
  end.

(** The text that opens a boundary declaration, quote included. *)
Definition boundary_keyword : str := py "boundary=" ++ [dq].

(** The literal start of both Content-Location patterns. *)
Definition location_prefix : str := py "Content-Location: file:///C:/".

(** The closing tag of a paragraph. *)
Definition close_p : str := py "</p>".

(** [.*?</p>] *)
Definition close_re : regex := Cat (Star false Any) (Lit (py "</p>")).

(** Both patterns of [remove_confluence_metadata]: [<p>.*?], then a tail. *)
Definition paragraph_re (tail : regex) : regex :=
  Cat (Lit (py "<p>")) (Cat (Star false Any) tail).

(** The words [[Pp]age [Oo](wner|ner)] reads. *)
Definition owner_words : list str :=
  [py "Page Owner"; py "Page owner"; py "page Owner"; py "page owner";
   py "Page Oner"; py "Page oner"; py "page Oner"; py "page oner"].

(** The words [[Pp]age [Cc]ontact] reads. *)
Definition contact_words : list str :=
  [py "Page Contact"; py "Page contact"; py "page Contact"; py "page contact"].

(** [[Pp]age [Oo](wner|ner).*?</p>] *)
Definition owner_tail : regex :=
  Cat (Chr (OneOf false (chars "Pp")))
 (Cat (Lit (py "age "))
 (Cat (Chr (OneOf false (chars "Oo")))
 (Cat (Group (Alt (Lit (py "wner")) (Lit (py "ner"))))
      close_re))).

(** [[Pp]age [Cc]ontact.*?</p>] *)
Definition contact_tail : regex :=
  Cat (Chr (OneOf false (chars "Pp")))
 (Cat (Lit (py "age "))
 (Cat (Chr (OneOf false (chars "Cc")))
 (Cat (Lit (py "ontact"))
      close_re))).

(** Whether one of [words] occurs in [s]. *)
Definition has_word (words : list str) (s : str) : bool :=
  existsb (fun w => contains w s) words.

(** The values a byte takes. *)
Definition octet (x : N) : Prop := x < 256.

(** All of them, for checks by evaluation. *)
Definition octets : list N := map N.of_nat (seq 0 256).

(** What is checked of the base64 digit of each six-bit value. *)
Definition b64_char_ok (v : N) : bool :=
  if v <? 64 then
    match b64_value (b64_char v) with Some w => w =? v | None => false end
    && negb (b64_char v =? 61) && (b64_char v <? 128)
    && negb (isspace (b64_char v))
  else true.

(** How the six-bit groups of adjacent octets recombine. *)
Definition sextets_ok (x y : N) : bool :=
  let v1 := N.shiftr x 2 in
  let v2 := N.lor (N.shiftl (N.land x 3) 4) (N.shiftr y 4) in
  let v3 := N.lor (N.shiftl (N.land x 15) 2) (N.shiftr y 6) in
  (v1 <? 64) && (v2 <? 64) && (v3 <? 64) && (N.land x 63 <? 64)
  && (N.lor (N.shiftl v1 2) (N.shiftr v2 4) =? x)
  && (N.land v2 15 =? N.shiftr y 4)
  && (N.shiftr v3 2 =? N.land x 15)
  && (N.land v3 3 =? N.shiftr y 6)
  && (N.lor (N.shiftl (N.shiftr x 4) 4) (N.land x 15) =? x)
  && (N.lor (N.shiftl (N.shiftr x 6) 6) (N.land x 63) =? x).

(** The same facts, as propositions. *)
Record sextet_facts (x y : N) : Prop := {
  sf_v1 : N.shiftr x 2 < 64;
  sf_v2 : N.lor (N.shiftl (N.land x 3) 4) (N.shiftr y 4) < 64;
  sf_v3 : N.lor (N.shiftl (N.land x 15) 2) (N.shiftr y 6) < 64;
  sf_v4 : N.land x 63 < 64;
  sf_first : N.lor (N.shiftl (N.shiftr x 2) 2)
               (N.shiftr (N.lor (N.shiftl (N.land x 3) 4) (N.shiftr y 4)) 4) = x;
  sf_left2 : N.land (N.lor (N.shiftl (N.land x 3) 4) (N.shiftr y 4)) 15 = N.shiftr y 4;
  sf_high3 : N.shiftr (N.lor (N.shiftl (N.land x 15) 2) (N.shiftr y 6)) 2 = N.land x 15;
  sf_left3 : N.land (N.lor (N.shiftl (N.land x 15) 2) (N.shiftr y 6)) 3 = N.shiftr y 6;
  sf_second : N.lor (N.shiftl (N.shiftr x 4) 4) (N.land x 15) = x;
  sf_third : N.lor (N.shiftl (N.shiftr x 6) 6) (N.land x 63) = x
}.

(** The rewriting of the references to one asset, as one round of the
    loop of [save_images_and_update_html] does it. *)
Definition rewrite_references (html_content : str) (item : str * bytes) : str :=
  let (image_key, image_data) := item in
  let filename := determine_image_filename image_key image_data in
  let html_content :=
    replace (src_attr image_key) (src_attr (py "images/" ++ filename)) html_content in
  if contains (py "/") image_key
  then replace (src_attr filename) (src_attr (py "images/" ++ filename)) html_content
  else html_content.

(** Where an asset is written. *)
Definition image_path (output_dir key : str) (data : bytes) : str :=
  path_join (path_join output_dir (py "images")) (determine_image_filename key data).


(** [s] without its whitespace characters. *)
Definition drop_whitespace (s : str) : str := List.filter (fun c => negb (isspace c)) s.

(** [s] with every run of whitespace replaced by [repl]; [in_run] says
    that the character before was whitespace. *)
Fixpoint squeeze_from (in_run : bool) (repl s : str) : str :=
  match s with
  | [] => []
  | c :: t =>
      if isspace c
      then (if in_run then [] else repl) ++ squeeze_from true repl t
      else c :: squeeze_from false repl t
  end.

Definition squeeze (repl s : str) : str := squeeze_from false repl s.

(** A text of ASCII characters only. *)
Definition is_ascii (s : str) : bool := forallb (fun c => c <? 128) s.

(** The spellings that [str.lower] turns into [doc]. *)
Definition doc_spellings : list str :=
  [py "doc"; py "doC"; py "dOc"; py "dOC"; py "Doc"; py "DoC"; py "DOc"; py "DOC"].

(** The two header texts that [_extract_html_from_part] looks for. *)
Definition base64_header : str := py "Content-Transfer-Encoding: base64".
Definition quoted_printable_header : str := py "Content-Transfer-Encoding: quoted-printable".
Definition html_header : str := py "Content-Type: text/html".

(** The blank line that ends the headers of a part. *)
Definition blank_line : str := [nl; nl].

(** The start of an image reference: [src=] and the opening quote. *)
Definition src_open : str := py "src=" ++ [dq].

(** The first position of [s] at which the literal [p] matches under the
    flags [fl] (in any case with [re.IGNORECASE]). *)
Fixpoint find_lit (fl : flags) (p s : str) : option nat :=
  match lit_match fl p s with
  | Some _ => Some 0%nat
  | None =>
      match s with
      | [] => None
      | _ :: t => S <$> find_lit fl p t
      end
  end.

(** Whether the literal [p] matches somewhere in [s] under [fl]. *)
Definition mentions (fl : flags) (p s : str) : bool :=
  match find_lit fl p s with Some _ => true | None => false end.

(** Patterns every match of which holds a match of the literal [p]. *)
Fixpoint requires (p : str) (r : regex) : bool :=
  match r with
  | Lit q => bool_decide (q = p)
  | Cat a b => requires p a || requires p b
  | Alt a b => requires p a && requires p b
  | Group a => requires p a
  | _ => false
  end.

(** Whether the literal [l] and the text [b] agree, under [fl], as far as
    the shorter of the two goes. *)
Fixpoint lit_agree (fl : flags) (l b : str) : bool :=
  match l, b with
  | a :: l', x :: b' => chr_eq fl a x && lit_agree fl l' b'
  | _, _ => true
  end.

(** Whether a match of the literal [l] can begin inside [pre], whatever
    text follows. *)
Fixpoint begins_lit (fl : flags) (l pre : str) : bool :=
  match pre with
  | [] => false
  | _ :: t => lit_agree fl l pre || begins_lit fl l t
  end.

(** The end of the breadcrumb in [navigation_re]: a blank line or the end
    of the text. *)
Definition nav_stop : regex := Alt (Lit [nl; nl]) (Alt (Lit [cr; nl; cr; nl]) Eos).

(** A text whose only whitespace is single spaces; [after_space] says that
    the character before was a space. *)
Fixpoint single_spaced_from (after_space : bool) (s : str) : bool :=
  match s with
  | [] => true
  | c :: t =>
      if c =? 32 then negb after_space && single_spaced_from true t
      else negb (isspace c) && single_spaced_from false t
  end.

Definition single_spaced (s : str) : bool := single_spaced_from false s.

(** Flags of the first pattern of [extract_image_from_part]. *)
Definition ignorecase : flags := {| IGNORECASE := true; DOTALL := false |}.

(** The extensions that end an asset path in [location_path_re]. *)
Definition image_exts : list str := [py "png"; py "jpg"; py "jpeg"; py "gif"].

(** Whether [s] starts with a dot and one of those extensions, in any
    case. *)
Definition ext_at (s : str) : bool :=
  existsb (fun e => match lit_match ignorecase (py "." ++ e) s with
                    | Some _ => true
                    | None => false
                    end) image_exts.

(** The first position of [s] at which [ext_at] holds. *)
Fixpoint first_ext (s : str) : option nat :=
  if ext_at s then Some 0%nat
  else match s with
       | [] => None
       | _ :: t => S <$> first_ext t
       end.

End Notions.

(** ** Sample inputs *)

Module Samples.
Import Str Re Codec App.

(** Scenario C's image part: headers, a blank line, the base64 of bytes
    that start with the JPEG magic. *)
Definition scenario_C_part : str :=
  [nl] ++ py "Content-Type: image/jpeg" ++ [nl]
  ++ py "Content-Transfer-Encoding: base64" ++ [nl]
  ++ py "Content-Location: file:///C:/ABCDEF1234567890" ++ [nl; nl]
  ++ py "/9j/4AAQ" ++ [nl].

Definition sample_multipart : str :=
  py "Content-Type: multipart/related; boundary=" ++ [dq] ++ py "X" ++ [dq] ++ [nl; nl]
  ++ py "--X" ++ [nl] ++ py "Content-Type: text/html" ++ [nl; nl] ++ py "<html></html>" ++ [nl]
  ++ py "--X--" ++ [nl].

Definition sample_fallback : str :=
  py "preamble" ++ [nl] ++ py "------=_NextPart_01D5F0A1.3B2C4D50" ++ [nl]
  ++ py "Content-Type: text/html" ++ [nl; nl] ++ py "<html></html>" ++ [nl]
  ++ py "------=_NextPart_01D5F0A1.3B2C4D50--" ++ [nl].

(** Stand-ins for the two library functions, for running the pipeline on
    the samples: entity replacement that knows [&gt;] only, and names that
    [secure_filename] leaves alone. *)
Definition sample_libs : Libs :=
  {| charref_sub := replace (py "&gt;") (py ">"); secure_filename := fun name => name |}.

(** The text before the last ['/'] of a path, empty when there is none. *)
Definition dirname (path : str) : str :=
  take (length path - length (basename path) - 1)%nat path.

(** A directory of the tree, or the working directory. *)
Definition has_dir (path : str) (w : world) : bool :=
  bool_decide (path = []) || bool_decide (path ∈ dirs w).

Definition no_such_file (path : str) : str :=
  py "[Errno 2] No such file or directory: '" ++ path ++ py "'".

(** A stand-in for the system, for running the pipeline on the samples,
    with the answers of a POSIX system to a process that owns the tree: a
    directory is made where its parent exists and no file has its name; a
    file is opened for writing where its directory exists and the path is
    no directory; a file that exists can be removed; no writing breaks
    off, and [metadata.json] is rewritten whenever asked. *)
Definition sample_open_error (w : world) (path : str) : option str :=
  if bool_decide (path ∈ dirs w)
  then Some (py "[Errno 21] Is a directory: '" ++ path ++ py "'")
  else if has_dir (dirname path) w then None
  else Some (no_such_file path).

Definition sample_open_directory (w : world) (path : str) :
  path ∈ dirs w -> sample_open_error w path <> None.
Proof.
  intros H. unfold sample_open_error.
  rewrite bool_decide_eq_true_2 by exact H. discriminate.
Qed.

Definition sample_system : System :=
  {| mkdir_error w path :=
       if bool_decide (is_Some (files w !! path))
       then Some (py "[Errno 17] File exists: '" ++ path ++ py "'")
       else if has_dir (dirname path) w then None
       else Some (no_such_file path);
     open_error := sample_open_error;
     write_error _ _ _ := None;
     unlink_error w path :=
       if bool_decide (is_Some (files w !! path)) then None
       else Some (no_such_file path);
     read_error _ path := no_such_file path;
     save_metadata_result _ _ := Saved;
     open_directory := sample_open_directory |}.

(** The tree when the server has started: the two folders that lines 30
    and 31 make, and no file. *)
Definition empty_world : world :=
  {| files := ∅; dirs := {[UPLOAD_FOLDER; UPLOAD_HTML_FOLDER]}; metadata := ∅ |}.

Definition image_part : str :=
  [nl] ++ py "Content-Type: image/png" ++ [nl]
  ++ py "Content-Transfer-Encoding: base64" ++ [nl]
  ++ py "Content-Location: file:///C:/AB12CD/foo.fld/image001.png" ++ [nl; nl]
  ++ b64encode [0x89; 80; 78; 71; 13; 10; 26; 10] ++ [nl].

(** A multipart document with boundary [X], one [text/html] part holding
    [body] as it is, and one image part. *)
Definition sample_document (body : str) : str :=
  py "MIME-Version: 1.0" ++ [nl]
  ++ py "Content-Type: multipart/related; boundary=" ++ [dq] ++ py "X" ++ [dq] ++ [nl; nl]
  ++ py "--X" ++ [nl] ++ py "Content-Type: text/html" ++ [nl; nl] ++ body ++ [nl]
  ++ py "--X" ++ image_part
  ++ py "--X--" ++ [nl].

Definition sample_upload (body : str) : upload :=
  {| upload_filename := py "page.doc";
     upload_content := default [] (utf8_encode (sample_document body)) |}.


Definition staged_world (body : str) : world :=
  set_file (py "upload/page.doc") (upload_content (sample_upload body)) empty_world.

Definition no_breadcrumb_body : str :=
  py "<html><body><p>hi</p><img src=" ++ [dq] ++ py "foo.fld/image001.png" ++ [dq]
  ++ py "></body></html>".

(** The files after the rejected upload: the staged document and the
    image. *)
Definition rejected_world : world :=
  {| files :=
       <[py "upload-html/images/image001.png" := [0x89; 80; 78; 71; 13; 10; 26; 10]]>
         (files (staged_world no_breadcrumb_body));
     dirs := {[py "upload-html/images"]} ∪ dirs empty_world;
     metadata := ∅ |}.

(** A body with a breadcrumb paragraph followed by a blank line, and an
    image reference. *)
Definition breadcrumb_body : str :=
  py "<html><body><p>Navigation: APE &gt; Open Invoices</p>" ++ [nl; nl]
  ++ py "<p>hi</p><img src=" ++ [dq] ++ py "foo.fld/image001.png" ++ [dq]
  ++ py "></body></html>".

(** The page that the upload of [breadcrumb_body] saves. *)
Definition saved_page : str :=
  py "<html><body>" ++ [nl; nl]
  ++ py "<p>hi</p><img src=" ++ [dq] ++ py "images/image001.png" ++ [dq]
  ++ py "></body></html>".

(** The files and the metadata after that upload. *)
Definition accepted_world : world :=
  {| files :=
       <[py "upload-html/APE_OpenInvoices.html" := saved_page]>
         (<[py "upload-html/images/image001.png" := [0x89; 80; 78; 71; 13; 10; 26; 10]]> ∅);
     dirs := {[py "upload-html/images"]} ∪ dirs empty_world;
     metadata :=
       <[py "APE_OpenInvoices.html" :=
           {| meta_filename := py "APE_OpenInvoices.html";
              meta_navigation := [py "APE"; py "Open Invoices"];
              meta_full_navigation := py "APE > Open Invoices";
              meta_path := py "upload-html/APE_OpenInvoices.html" |}]> ∅ |}.

(** The document of [sample_document], with [image] for its image
    part. *)
Definition document_with (body image : str) : str :=
  py "MIME-Version: 1.0" ++ [nl]
  ++ py "Content-Type: multipart/related; boundary=" ++ [dq] ++ py "X" ++ [dq] ++ [nl; nl]
  ++ py "--X" ++ [nl] ++ py "Content-Type: text/html" ++ [nl; nl] ++ body ++ [nl]
  ++ py "--X" ++ image
  ++ py "--X--" ++ [nl].

(** An image part whose Content-Location names a file with a NUL in its
    name. *)
Definition null_image_part : str :=
  [nl] ++ py "Content-Type: image/png" ++ [nl]
  ++ py "Content-Transfer-Encoding: base64" ++ [nl]
  ++ py "Content-Location: file:///C:/AB12CD/foo.fld/image" ++ [0] ++ py ".png" ++ [nl; nl]
  ++ b64encode [0x89; 80; 78; 71; 13; 10; 26; 10] ++ [nl].

Definition null_name_upload : upload :=
  {| upload_filename := py "page.doc";
     upload_content :=
       default [] (utf8_encode (document_with breadcrumb_body null_image_part)) |}.

(** A body whose breadcrumb has a ['/'] in its first segment: the page's
    file name names a folder that does not exist. *)
Definition folder_body : str :=
  py "<html><body><p>Navigation: APE/Billing &gt; Invoices</p>" ++ [nl; nl]
  ++ py "<p>hi</p></body></html>".

End Samples.

(** * Properties *)

(** ** Facts about the string primitives *)

Module StrFacts.
Import Str Notions.

Lemma startswith_app (p t : str) : startswith p (p ++ t) = true.
Proof.
  induction p as [|a p IH]; simpl; [reflexivity|].
  rewrite N.eqb_refl. exact IH.
Qed.

Lemma startswith_inv (p s : str) :
  startswith p s = true -> exists t, s = p ++ t.
Proof.
  revert s. induction p as [|a p IH]; intros s H.
  - exists s. reflexivity.
  - destruct s as [|b s]; simpl in H; [discriminate|].
    apply andb_true_iff in H as [Hab Hps].
    apply N.eqb_eq in Hab. subst b.
    destruct (IH _ Hps) as [t ->]. exists t. reflexivity.
Qed.

Lemma startswith_false (p s t : str) :
  startswith p s = false -> s <> p ++ t.
Proof.
  intros H ->. rewrite startswith_app in H. discriminate.
Qed.

(** [find] returns the leftmost occurrence. *)
Lemma find_Some (sub s : str) (i : nat) :
  find sub s = Some i ->
  exists a b, s = a ++ sub ++ b /\ length a = i /\ take i s = a /\
              drop (i + length sub) s = b /\
              forall a' b', s = a' ++ sub ++ b' -> (i <= length a')%nat.
Proof.
  revert i. induction s as [|c s IH]; intros i; simpl.
  - destruct (startswith sub []) eqn:E; [|discriminate].
    intros [= <-]. apply startswith_inv in E as [t E].
    exists [], t. repeat split; auto.
    + symmetry in E. apply app_eq_nil in E as [-> ->]. reflexivity.
    + intros; lia.
  - destruct (startswith sub (c :: s)) eqn:E.
    + intros [= <-]. apply startswith_inv in E as [t E].
      exists [], t. rewrite E. repeat split; auto.
      * simpl. rewrite drop_app_length. reflexivity.
      * intros; lia.
    + destruct (find sub s) as [j|] eqn:F; simpl; [|discriminate].
      intros [= <-]. destruct (IH j eq_refl) as (a & b & -> & La & Ta & Db & Hmin).
      exists (c :: a), b.
      split; [reflexivity|]. split; [simpl; f_equal; exact La|].
      split; [simpl; f_equal; exact Ta|]. split; [exact Db|].
      intros a' b' Heq. destruct a' as [|c' a'].
      * exfalso. simpl in Heq. eapply startswith_false; [exact E|exact Heq].
      * simpl in Heq. injection Heq as _ Heq.
        specialize (Hmin _ _ Heq). simpl. lia.
Qed.

Lemma find_None (sub s : str) :
  find sub s = None -> forall a b, s <> a ++ sub ++ b.
Proof.
  induction s as [|c s IH]; simpl.
  - destruct (startswith sub []) eqn:E; [discriminate|].
    intros _ a b H. symmetry in H.
    apply app_eq_nil in H as [-> H]. simpl in H.
    eapply startswith_false; [exact E|]. symmetry. exact H.
  - destruct (startswith sub (c :: s)) eqn:E; [discriminate|].
    destruct (find sub s) eqn:F; simpl; [discriminate|].
    intros _ a b H. destruct a as [|c' a].
    + eapply startswith_false; [exact E|exact H].
    + simpl in H. injection H as _ H. exact (IH eq_refl _ _ H).
Qed.

Lemma find_occurs (sub a b : str) :
  exists i, find sub (a ++ sub ++ b) = Some i /\ (i <= length a)%nat.
Proof.
  destruct (find sub (a ++ sub ++ b)) as [i|] eqn:F.
  - exists i. split; [reflexivity|].
    destruct (find_Some _ _ _ F) as (_ & _ & _ & _ & _ & _ & Hmin).
    exact (Hmin a b eq_refl).
  - exfalso. exact (find_None _ _ F a b eq_refl).
Qed.

Lemma contains_true (sub s : str) :
  contains sub s = true <-> exists a b, s = a ++ sub ++ b.
Proof.
  unfold contains. split.
  - destruct (find sub s) as [i|] eqn:F; [|discriminate].
    intros _. destruct (find_Some _ _ _ F) as (a & b & H & _). eauto.
  - intros (a & b & ->). destruct (find_occurs sub a b) as (i & -> & _).
    reflexivity.
Qed.

Lemma contains_false (sub s : str) :
  contains sub s = false <-> forall a b, s <> a ++ sub ++ b.
Proof.
  split.
  - intros H a b E.
    assert (contains sub s = true) by (apply contains_true; eauto).
    congruence.
  - intros H. destruct (contains sub s) eqn:E; [|reflexivity].
    apply contains_true in E as (a & b & E). exfalso. exact (H _ _ E).
Qed.

(** The text before the leftmost occurrence holds no occurrence. *)
Lemma find_take_free (sub s : str) (i : nat) :
  sub <> [] -> find sub s = Some i -> contains sub (take i s) = false.
Proof.
  intros Hne F. apply contains_false. intros a b E.
  destruct (find_Some _ _ _ F) as (a0 & b0 & Hs & La & Ta & _ & Hmin).
  assert (Hs' : s = a ++ sub ++ (b ++ drop i s)).
  { rewrite <- (take_drop i s) at 1. rewrite E.
    rewrite <- !app_assoc. reflexivity. }
  specialize (Hmin _ _ Hs').
  assert (Hl : length (take i s) = length (a ++ sub ++ b)) by (rewrite E; reflexivity).
  rewrite length_take, !length_app in Hl.
  destruct sub; [congruence|]. simpl in Hl. lia.
Qed.

Lemma contains_single (c : N) (s : str) :
  contains [c] s = true <-> In c s.
Proof.
  rewrite contains_true. split.
  - intros (a & b & ->). apply in_or_app. right. left. reflexivity.
  - intros H. apply in_split in H as (a & b & ->). exists a, b. reflexivity.
Qed.

Lemma contains_single_false (c : N) (s : str) :
  contains [c] s = false <-> ~ In c s.
Proof.
  rewrite <- contains_single. destruct (contains [c] s); split; congruence.
Qed.

Lemma contains_nil_false (sub : str) : sub <> [] -> contains sub [] = false.
Proof.
  intros H. apply contains_false. intros a b E. symmetry in E.
  apply app_eq_nil in E as [_ E]. apply app_eq_nil in E as [E _]. congruence.
Qed.

(** *** [split] *)

Lemma split_loop_nonempty (n : nat) (sep s : str) : split_loop n sep s <> [].
Proof. destruct n; simpl; [|destruct (find sep s)]; discriminate. Qed.

Lemma join_cons (sep x : str) (l : list str) :
  l <> [] -> join sep (x :: l) = x ++ sep ++ join sep l.
Proof. destruct l; [congruence|reflexivity]. Qed.

(** Joining the parts with the separator gives the text back. *)
Lemma split_loop_join (n : nat) (sep s : str) :
  join sep (split_loop n sep s) = s.
Proof.
  revert s. induction n as [|n IH]; intros s; simpl; [reflexivity|].
  destruct (find sep s) as [i|] eqn:F; [|reflexivity].
  rewrite join_cons by apply split_loop_nonempty. rewrite IH.
  destruct (find_Some _ _ _ F) as (a & b & Hs & _ & -> & -> & _).
  symmetry. exact Hs.
Qed.

(** No part holds an occurrence of the separator. *)
Lemma split_loop_free (n : nat) (sep s : str) :
  sep <> [] -> (length s <= n)%nat ->
  Forall (fun p => contains sep p = false) (split_loop n sep s).
Proof.
  intros Hne. revert s. induction n as [|n IH]; intros s Hlen; simpl.
  - destruct s; [|simpl in Hlen; lia].
    constructor; [|constructor]. apply contains_nil_false, Hne.
  - destruct (find sep s) as [i|] eqn:F.
    + constructor; [exact (find_take_free _ _ _ Hne F)|].
      apply IH. rewrite length_drop.
      destruct sep; [congruence|]. simpl. lia.
    + constructor; [|constructor]. unfold contains. rewrite F. reflexivity.
Qed.

(** *** [replace] of one character by nothing *)

Lemma filter_ne_id (c : N) (s : str) :
  ~ In c s -> List.filter (fun x => negb (x =? c)) s = s.
Proof.
  induction s as [|x s IH]; simpl; intros H; [reflexivity|].
  destruct (N.eqb_spec x c) as [->|Hxc]; simpl.
  - exfalso. apply H. left. reflexivity.
  - f_equal. apply IH. intros Hin. apply H. right. exact Hin.
Qed.

Lemma replace_loop_char (n : nat) (c : N) (s : str) :
  (length s <= n)%nat ->
  replace_loop n [c] [] s = List.filter (fun x => negb (x =? c)) s.
Proof.
  revert s. induction n as [|n IH]; intros s Hlen; simpl.
  - destruct s; [reflexivity|simpl in Hlen; lia].
  - destruct (find [c] s) as [i|] eqn:F.
    + pose proof (find_take_free [c] s i ltac:(discriminate) F) as Hfree.
      destruct (find_Some _ _ _ F) as (a & b & Hs & La & Ta & Db & _).
      simpl in Db. rewrite Ta in Hfree |- *. rewrite Db.
      apply contains_single_false in Hfree.
      rewrite IH.
      * rewrite Hs. rewrite !List.filter_app. simpl.
        rewrite N.eqb_refl. simpl. rewrite (filter_ne_id _ _ Hfree). reflexivity.
      * rewrite <- Db, length_drop. simpl. lia.
    + symmetry. apply filter_ne_id. apply contains_single_false.
      unfold contains. rewrite F. reflexivity.
Qed.

(** *** [strip] *)

Lemma lstrip_spec (s : str) :
  exists l, s = l ++ lstrip s /\ blank l /\
            forall c t, lstrip s = c :: t -> isspace c = false.
Proof.
  induction s as [|c s (l & Hs & Hl & Hh)]; simpl.
  - exists []. repeat split; [constructor|discriminate].
  - destruct (isspace c) eqn:E.
    + exists (c :: l). split; [simpl; f_equal; exact Hs|].
      split; [constructor; assumption|exact Hh].
    + exists []. split; [reflexivity|]. split; [constructor|].
      intros c' t [= <- _]. exact E.
Qed.

Lemma rstrip_spec (s : str) :
  exists r, s = rstrip s ++ r /\ blank r /\
            forall t c, rstrip s = t ++ [c] -> isspace c = false.
Proof.
  unfold rstrip. destruct (lstrip_spec (rev s)) as (l & Hs & Hl & Hh).
  exists (rev l). split; [|split].
  - rewrite <- rev_app_distr, <- Hs, rev_involutive. reflexivity.
  - unfold blank in *. apply List.Forall_forall. intros x Hx.
    apply in_rev in Hx. rewrite List.Forall_forall in Hl. apply Hl, Hx.
  - intros t c E. apply (f_equal (@rev N)) in E.
    rewrite rev_involutive, rev_app_distr in E. simpl in E.
    exact (Hh _ _ E).
Qed.

Lemma strip_spec (s : str) : trimmed_of (strip s) s.
Proof.
  unfold strip.
  destruct (lstrip_spec s) as (l & Hs & Hl & Hh).
  destruct (rstrip_spec (lstrip s)) as (r & Hr & Hbr & Ht).
  exists l, r. split; [|split; [exact Hl|split; [exact Hbr|split; [|exact Ht]]]].
  - rewrite <- Hr. exact Hs.
  - intros c t E. rewrite E in Hr. simpl in Hr.
    exact (Hh _ _ Hr).
Qed.

Lemma trimmed_empty_iff (seg piece : str) :
  trimmed_of seg piece -> (seg = [] <-> blank piece).
Proof.
  intros (l & r & -> & Hl & Hr & Hh & _). split.
  - intros ->. apply Forall_app. split; [exact Hl|exact Hr].
  - intros Hb. destruct seg as [|c t]; [reflexivity|].
    apply Forall_app in Hb as [_ Hb]. apply Forall_app in Hb as [Hb _].
    apply Forall_cons in Hb as [Hc _].
    rewrite (Hh c t eq_refl) in Hc. discriminate.
Qed.

(** *** [basename] *)

Lemma basename_no_slash (p acc : str) :
  ~ In 47 p -> fold_left basename_step p acc = acc ++ p.
Proof.
  revert acc. induction p as [|c p IH]; intros acc H; simpl.
  - rewrite app_nil_r. reflexivity.
  - unfold basename_step at 2. destruct (N.eqb_spec c 47) as [->|Hc].
    + exfalso. apply H. left. reflexivity.
    + rewrite IH; [rewrite <- app_assoc; reflexivity|].
      intros Hin. apply H. right. exact Hin.
Qed.

Lemma last_occurrence (c : N) (l : str) :
  In c l -> exists a b, l = a ++ [c] ++ b /\ ~ In c b.
Proof.
  induction l as [|x l IH]; intros H; [destruct H|].
  destruct (in_dec N.eq_dec c l) as [Hin|Hnin].
  - destruct (IH Hin) as (a & b & -> & Hb). exists (x :: a), b. auto.
  - destruct H as [->|H]; [|contradiction]. exists [], l. auto.
Qed.

(** *** Occurrences *)

Lemma contains_app_false (p a b : str) :
  contains p (a ++ b) = false -> contains p a = false /\ contains p b = false.
Proof.
  intros H. pose proof (proj1 (contains_false _ _) H) as Hf.
  split; apply contains_false; intros x y E.
  - apply (Hf x (y ++ b)). rewrite E, <- !app_assoc. reflexivity.
  - apply (Hf (a ++ x) y). rewrite E, <- !app_assoc. reflexivity.
Qed.

(** A word whose first character does not recur in it cannot overlap
    itself: after a text free of the word, its first occurrence is where
    it is put. *)
Lemma find_after_clean (c : N) (p' u post : str) :
  ~ In c p' -> contains (c :: p') u = false ->
  find (c :: p') (u ++ (c :: p') ++ post) = Some (length u).
Proof.
  intros Hc Hu. set (p := c :: p') in *.
  destruct (find_occurs p u post) as (i & Hf & Hle).
  rewrite Hf. f_equal.
  destruct (find_Some _ _ _ Hf) as (a & b & Hs & La & _).
  destruct (Nat.eq_dec i (length u)) as [|Hne]; [assumption|exfalso].
  assert (Hlt : (length a < length u)%nat) by lia.
  pose proof (proj1 (contains_false _ _) Hu) as Hfree.
  apply app_eq_app in Hs as [l [[Hu1 Hs]|[Ha _]]].
  2:{ rewrite Ha, length_app in Hlt. lia. }
  assert (Hl : l <> []).
  { intros ->. rewrite app_nil_r in Hu1. rewrite Hu1 in Hlt. lia. }
  apply app_eq_app in Hs as [l' [[Hp Hs]|[Hl' _]]].
  - (* the occurrence would start inside [u] and end inside the word *)
    destruct l as [|c0 l0]; [congruence|].
    unfold p in Hp. simpl in Hp. injection Hp as <- Hp'.
    destruct l' as [|c1 l1].
    + simpl in Hs. apply (Hfree a []). rewrite app_nil_r.
      rewrite app_nil_r in Hp'. unfold p. rewrite Hp'. exact Hu1.
    + unfold p in Hs. simpl in Hs. injection Hs as <- _.
      apply Hc. rewrite Hp'. apply in_or_app. right. left. reflexivity.
  - apply (Hfree a l'). rewrite Hu1, Hl'. reflexivity.
Qed.

Lemma startswith_app_cases (l b X : str) :
  startswith l (b ++ X) = true -> startswith l b = true \/ startswith b l = true.
Proof.
  revert b. induction l as [|a l IH]; intros b H; [left; reflexivity|].
  destruct b as [|x b]; [right; reflexivity|].
  simpl in H |- *. apply andb_true_iff in H as [Hax H].
  apply N.eqb_eq in Hax. subst x. rewrite N.eqb_refl. simpl.
  exact (IH b H).
Qed.

Lemma begins_in_false (l pre : str) :
  begins_in l pre = false ->
  forall a b X, pre = a ++ b -> b <> [] -> startswith l (b ++ X) = false.
Proof.
  induction pre as [|x pre IH]; intros H a b X Hab Hb.
  - symmetry in Hab. apply app_eq_nil in Hab as [_ ->]. congruence.
  - cbn [begins_in] in H. apply orb_false_iff in H as [H Hrest].
    apply orb_false_iff in H as [H1 H2].
    destruct a as [|y a].
    + simpl in Hab. subst b.
      destruct (startswith l ((x :: pre) ++ X)) eqn:E; [|reflexivity].
      apply startswith_app_cases in E as [E|E]; congruence.
    + simpl in Hab. injection Hab as _ Hab. exact (IH Hrest a b X Hab Hb).
Qed.

Lemma begins_in_no_char (c : N) (l pre : str) :
  ~ In c pre -> begins_in (c :: l) pre = false.
Proof.
  induction pre as [|x pre IH]; intros H; [reflexivity|].
  simpl. destruct (N.eqb_spec c x) as [->|Hcx].
  - exfalso. apply H. left. reflexivity.
  - destruct (N.eqb_spec x c) as [->|_]; [congruence|]. simpl.
    apply IH. intros Hin. apply H. right. exact Hin.
Qed.

End StrFacts.

(** ** Facts about the matcher *)

Module ReFacts.
Import Str Re Notions StrFacts.

Lemma lit_match_app (fl : flags) (p s : str) :
  case_sensitive fl -> lit_match fl p (p ++ s) = Some s.
Proof.
  intros Hfl. induction p as [|a p IH]; simpl; [reflexivity|].
  unfold chr_eq. rewrite Hfl, N.eqb_refl. exact IH.
Qed.

Lemma lit_match_inv (fl : flags) (p s s' : str) :
  case_sensitive fl -> lit_match fl p s = Some s' -> s = p ++ s'.
Proof.
  intros Hfl. revert s. induction p as [|a p IH]; intros s; simpl.
  - intros [= ->]. reflexivity.
  - destruct s as [|x s]; [discriminate|].
    unfold chr_eq. rewrite Hfl. destruct (N.eqb_spec x a) as [->|]; [|discriminate].
    intros H. rewrite (IH _ H). reflexivity.
Qed.

Lemma lit_match_none (fl : flags) (p s : str) :
  case_sensitive fl -> lit_match fl p s = None -> forall t, s <> p ++ t.
Proof.
  intros Hfl H t ->. rewrite lit_match_app in H by exact Hfl. discriminate.
Qed.

Lemma lit_match_startswith (fl : flags) (p s : str) :
  case_sensitive fl ->
  lit_match fl p s = if startswith p s then Some (drop (length p) s) else None.
Proof.
  intros Hfl. destruct (startswith p s) eqn:E.
  - apply startswith_inv in E as [t ->].
    rewrite lit_match_app by exact Hfl. rewrite drop_app_length. reflexivity.
  - destruct (lit_match fl p s) as [s'|] eqn:L; [|reflexivity].
    apply lit_match_inv in L; [|exact Hfl]. subst s.
    rewrite startswith_app in E. discriminate.
Qed.

(** Whatever the flags, a literal consumes a prefix of its own length. *)
Lemma lit_match_suffix (fl : flags) (p s s' : str) :
  lit_match fl p s = Some s' -> exists m, s = m ++ s' /\ length m = length p.
Proof.
  revert s. induction p as [|a p IH]; intros s; simpl.
  - intros [= ->]. exists []. split; reflexivity.
  - destruct s as [|x s]; [discriminate|].
    destruct (chr_eq fl a x); [|discriminate].
    intros H. destruct (IH _ H) as (m & -> & Hm).
    exists (x :: m). split; [reflexivity|simpl; f_equal; exact Hm].
Qed.

(** *** Repetition *)

Lemma star_lazy_here (fl : flags) (c : cclass) (s : str) (k : str -> result) (r : str * option str) :
  k s = Some r -> star_lazy fl c s k = Some r.
Proof. intros H. destruct s; simpl; rewrite H; reflexivity. Qed.

Lemma star_lazy_step (fl : flags) (c : cclass) (x : N) (s : str) (k : str -> result) :
  k (x :: s) = None -> class_match fl c x = true ->
  star_lazy fl c (x :: s) k = star_lazy fl c s k.
Proof. intros H1 H2. simpl. rewrite H1, H2. reflexivity. Qed.

Lemma star_lazy_inv (fl : flags) (c : cclass) (s : str) (k : str -> result) (r : str * option str) :
  star_lazy fl c s k = Some r -> exists a t, s = a ++ t /\ k t = Some r.
Proof.
  induction s as [|x s IH]; simpl.
  - destruct (k []) eqn:E; [|discriminate].
    intros [= <-]. exists [], []. split; [reflexivity|exact E].
  - destruct (k (x :: s)) eqn:E.
    + intros [= <-]. exists [], (x :: s). split; [reflexivity|exact E].
    + destruct (class_match fl c x); [|discriminate].
      intros H. destruct (IH H) as (a & t & -> & Hk).
      exists (x :: a), t. split; [reflexivity|exact Hk].
Qed.

Lemma star_greedy_inv (fl : flags) (c : cclass) (s : str) (k : str -> result) (r : str * option str) :
  star_greedy fl c s k = Some r -> exists a t, s = a ++ t /\ k t = Some r.
Proof.
  induction s as [|x s IH]; simpl.
  - intros H. exists [], []. split; [reflexivity|exact H].
  - destruct (class_match fl c x).
    + destruct (star_greedy fl c s k) eqn:E.
      * intros [= <-]. destruct (IH eq_refl) as (a & t & -> & Hk).
        exists (x :: a), t. split; [reflexivity|exact Hk].
      * intros H. exists [], (x :: s). split; [reflexivity|exact H].
    + intros H. exists [], (x :: s). split; [reflexivity|exact H].
Qed.

Lemma star_lazy_skip (fl : flags) (c : cclass) (a t : str) (k : str -> result) :
  (forall a1 a2, a = a1 ++ a2 -> a2 <> [] -> k (a2 ++ t) = None) ->
  Forall (fun x => class_match fl c x = true) a ->
  star_lazy fl c (a ++ t) k = star_lazy fl c t k.
Proof.
  induction a as [|x a IH]; intros Hk Hc; [reflexivity|].
  apply Forall_cons in Hc as [Hx Hc].
  pose proof (Hk [] (x :: a) eq_refl ltac:(discriminate)) as H0.
  simpl in H0 |- *. rewrite H0, Hx. apply IH; [|exact Hc].
  intros a1 a2 -> Ha2. apply (Hk (x :: a1) a2); [reflexivity|exact Ha2].
Qed.

(** *** The matcher hands its continuation a suffix of the text *)

Lemma run_inv (fl : flags) (r : regex) :
  forall (s : str) (g : option str) (k : cont) (res : str * option str),
    run fl r s g k = Some res ->
    exists m s' g', s = m ++ s' /\ k s' g' = Some res.
Proof.
  induction r as [p|c|gr c|a IHa b IHb|a IHa b IHb|a IHa|]; intros s g k res; simpl.
  - destruct (lit_match fl p s) as [s'|] eqn:L; [|discriminate].
    intros H. destruct (lit_match_suffix _ _ _ _ L) as (m & -> & _). eauto.
  - destruct s as [|x s]; [discriminate|].
    destruct (class_match fl c x); [|discriminate].
    intros H. exists [x], s, g. split; [reflexivity|exact H].
  - destruct gr; intros H.
    + apply star_greedy_inv in H as (m & t & -> & H). eauto.
    + apply star_lazy_inv in H as (m & t & -> & H). eauto.
  - intros H. apply IHa in H as (m1 & s1 & g1 & -> & H).
    apply IHb in H as (m2 & s2 & g2 & -> & H).
    exists (m1 ++ m2), s2, g2. split; [rewrite app_assoc; reflexivity|exact H].
  - destruct (run fl a s g k) eqn:E.
    + intros [= <-]. exact (IHa _ _ _ _ E).
    + intros H. exact (IHb _ _ _ _ H).
  - intros H. apply IHa in H as (m & s' & g' & -> & H). eauto.
  - destruct (at_end s); [|discriminate]. intros H. exists [], s, g. eauto.
Qed.

Lemma match_here_inv (fl : flags) (r : regex) (s rest : str) (g : option str) :
  match_here fl r s = Some (rest, g) -> exists m, s = m ++ rest.
Proof.
  unfold match_here. intros H.
  apply run_inv in H as (m & s' & g' & -> & [= -> _]). eauto.
Qed.

(** *** [search] *)

Lemma search_inv (fl : flags) (r : regex) (s pre rest : str) (g : option str) :
  search fl r s = Some (pre, rest, g) ->
  exists m, s = pre ++ m ++ rest /\ match_here fl r (m ++ rest) = Some (rest, g).
Proof.
  revert pre. induction s as [|x s IH]; intros pre; simpl.
  - destruct (match_here fl r []) as [[rest' g']|] eqn:E; [|discriminate].
    intros [= <- <- <-]. destruct (match_here_inv _ _ _ _ _ E) as (m & Hm).
    exists m. simpl. rewrite <- Hm. split; [reflexivity|exact E].
  - destruct (match_here fl r (x :: s)) as [[rest' g']|] eqn:E.
    + intros [= <- <- <-]. destruct (match_here_inv _ _ _ _ _ E) as (m & Hm).
      exists m. simpl. rewrite <- Hm. split; [reflexivity|exact E].
    + destruct (search fl r s) as [[[pre' rest'] g']|] eqn:F; [|discriminate].
      intros [= <- <- <-]. destruct (IH _ eq_refl) as (m & -> & Hm).
      exists m. split; [reflexivity|exact Hm].
Qed.

Lemma search_here (fl : flags) (r : regex) (s rest : str) (g : option str) :
  match_here fl r s = Some (rest, g) -> search fl r s = Some ([], rest, g).
Proof. intros H. destruct s; simpl; rewrite H; reflexivity. Qed.

(** A stretch of text at no position of which the pattern matches is
    passed over. *)
Lemma search_skip (fl : flags) (r : regex) (pre t : str) :
  (forall a b, pre = a ++ b -> b <> [] -> match_here fl r (b ++ t) = None) ->
  search fl r (pre ++ t) = shift pre (search fl r t).
Proof.
  induction pre as [|x pre IH]; intros H.
  - simpl. destruct (search fl r t) as [[[? ?] ?]|]; reflexivity.
  - pose proof (H [] (x :: pre) eq_refl ltac:(discriminate)) as H0.
    simpl in H0 |- *. rewrite H0, IH.
    + destruct (search fl r t) as [[[? ?] ?]|]; reflexivity.
    + intros a b -> Hb. apply (H (x :: a) b); [reflexivity|exact Hb].
Qed.

Lemma search_none (fl : flags) (r : regex) (s : str) :
  (forall a b, s = a ++ b -> match_here fl r b = None) -> search fl r s = None.
Proof.
  induction s as [|x s IH]; intros H; simpl.
  - rewrite (H [] [] eq_refl). reflexivity.
  - rewrite (H [] (x :: s) eq_refl). rewrite IH; [reflexivity|].
    intros a b ->. apply (H (x :: a) b). reflexivity.
Qed.

(** *** [sub] *)

Lemma sub_loop_enough (fl : flags) (r : regex) (repl : str) (n m : nat) (s : str) :
  (length s < n)%nat -> (length s < m)%nat ->
  sub_loop n fl r repl s = sub_loop m fl r repl s.
Proof.
  revert m s. induction n as [|n IH]; intros m s Hn Hm; [lia|].
  destruct m as [|m]; [lia|]. simpl.
  destruct (search fl r s) as [[[pre rest] g]|] eqn:F; [|reflexivity].
  destruct (search_inv _ _ _ _ _ _ F) as (mid & Hs & _).
  assert (Hlen : length s = (length pre + length mid + length rest)%nat).
  { rewrite Hs, !length_app. lia. }
  destruct (Nat.ltb_spec (length pre + length rest) (length s)).
  - f_equal. f_equal. apply IH; lia.
  - destruct rest as [|x t]; [reflexivity|].
    f_equal. f_equal. f_equal. simpl in Hlen. apply IH; lia.
Qed.

(** The equation of [re.sub]. *)
Lemma sub_eq (fl : flags) (r : regex) (repl s : str) :
  sub fl r repl s =
  match search fl r s with
  | None => s
  | Some (pre, rest, _) =>
      if (length pre + length rest <? length s)%nat
      then pre ++ repl ++ sub fl r repl rest
      else match rest with
           | [] => pre ++ repl
           | x :: t => pre ++ repl ++ x :: sub fl r repl t
           end
  end.
Proof.
  unfold sub at 1. simpl.
  destruct (search fl r s) as [[[pre rest] g]|] eqn:F; [|reflexivity].
  destruct (search_inv _ _ _ _ _ _ F) as (mid & Hs & _).
  assert (Hlen : length s = (length pre + length mid + length rest)%nat).
  { rewrite Hs, !length_app. lia. }
  destruct (Nat.ltb_spec (length pre + length rest) (length s)).
  - f_equal. f_equal. apply sub_loop_enough; lia.
  - destruct rest as [|x t]; [reflexivity|].
    f_equal. f_equal. f_equal. simpl in Hlen. apply sub_loop_enough; simpl; lia.
Qed.

Lemma sub_no_match (fl : flags) (r : regex) (repl s : str) :
  search fl r s = None -> sub fl r repl s = s.
Proof. intros H. rewrite sub_eq, H. reflexivity. Qed.

(** With [re.DOTALL], [.*?] before a continuation that accepts exactly the
    texts starting with [p] stops at the first occurrence of [p]. *)
Lemma star_lazy_find (fl : flags) (p s : str) (g : option str) (k : str -> result) :
  DOTALL fl = true ->
  (forall s', k s' = if startswith p s' then Some (drop (length p) s', g) else None) ->
  star_lazy fl Any s k =
  match find p s with
  | Some i => Some (drop (i + length p) s, g)
  | None => None
  end.
Proof.
  intros Hd Hk. induction s as [|x s IH]; simpl; rewrite Hk.
  - destruct (startswith p []); reflexivity.
  - destruct (startswith p (x :: s)); [reflexivity|].
    rewrite Hd. simpl. rewrite IH.
    destruct (find p s); reflexivity.
Qed.

(** A pattern that starts with the literal [l] passes over text inside
    which no occurrence of [l] can begin. *)
Lemma search_clear (fl : flags) (l pre t : str) (r : regex) :
  case_sensitive fl -> begins_in l pre = false ->
  search fl (Cat (Lit l) r) (pre ++ t) = shift pre (search fl (Cat (Lit l) r) t).
Proof.
  intros Hfl Hc. apply search_skip. intros a b -> Hb.
  unfold match_here. cbn [run]. rewrite lit_match_startswith by exact Hfl.
  rewrite (begins_in_false l (a ++ b) Hc a b t eq_refl Hb). reflexivity.
Qed.

Lemma sub_clear (fl : flags) (l pre t repl : str) (r : regex) :
  case_sensitive fl -> begins_in l pre = false ->
  sub fl (Cat (Lit l) r) repl (pre ++ t) = pre ++ sub fl (Cat (Lit l) r) repl t.
Proof.
  intros Hfl Hc. rewrite (sub_eq _ _ _ (pre ++ t)), (sub_eq _ _ _ t).
  rewrite (search_clear _ _ _ _ _ Hfl Hc).
  destruct (search fl _ t) as [[[p rest] g]|]; simpl; [|reflexivity].
  rewrite !length_app.
  replace (length pre + length p + length rest <? length pre + length t)%nat
    with (length p + length rest <? length t)%nat.
  2:{ destruct (Nat.ltb_spec (length p + length rest) (length t));
      symmetry; [apply Nat.ltb_lt|apply Nat.ltb_ge]; lia. }
  destruct (length p + length rest <? length t)%nat.
  - rewrite <- !app_assoc. reflexivity.
  - destruct rest; rewrite <- !app_assoc; reflexivity.
Qed.

(** *** Patterns without a group leave group 1 as it was *)

Lemma run_group_free (fl : flags) (r : regex) :
  group_free r = true ->
  forall (s : str) (g : option str) (k : cont) (res : str * option str),
    run fl r s g k = Some res ->
    exists m s', s = m ++ s' /\ k s' g = Some res.
Proof.
  induction r as [p|c|gr c|a IHa b IHb|a IHa b IHb|a IHa|]; simpl; intros Hgf s g k res.
  - destruct (lit_match fl p s) as [s'|] eqn:L; [|discriminate].
    intros H. destruct (lit_match_suffix _ _ _ _ L) as (m & -> & _). eauto.
  - destruct s as [|x s]; [discriminate|].
    destruct (class_match fl c x); [|discriminate].
    intros H. exists [x], s. split; [reflexivity|exact H].
  - destruct gr; intros H.
    + apply star_greedy_inv in H as (m & t & -> & H). eauto.
    + apply star_lazy_inv in H as (m & t & -> & H). eauto.
  - apply andb_true_iff in Hgf as [Ha Hb].
    intros H. apply (IHa Ha) in H as (m1 & s1 & -> & H).
    apply (IHb Hb) in H as (m2 & s2 & -> & H).
    exists (m1 ++ m2), s2. split; [rewrite app_assoc; reflexivity|exact H].
  - apply andb_true_iff in Hgf as [Ha Hb].
    destruct (run fl a s g k) eqn:E.
    + intros [= <-]. exact (IHa Ha _ _ _ _ E).
    + intros H. exact (IHb Hb _ _ _ _ H).
  - discriminate.
  - destruct (at_end s); [|discriminate]. intros H. exists [], s. eauto.
Qed.

Lemma take_app_minus (a s : str) : take (length (a ++ s) - length s) (a ++ s) = a.
Proof.
  rewrite length_app. replace (length a + length s - length s)%nat with (length a) by lia.
  apply take_app_length.
Qed.

End ReFacts.

(** ** Facts about the patterns of app.py *)

Module AppFacts.
Import Str Re App Notions StrFacts ReFacts.

(** *** The fallback boundary pattern *)

(** A match of [l(a|b)tail] captures [a] or [b]. *)
Lemma prefixed_alternative_match (l a b : str) (tail : regex) (s rest : str) (g : option str) :
  group_free tail = true ->
  match_here no_flags (Cat (Lit l) (Cat (Group (Alt (Lit a) (Lit b))) tail)) s
    = Some (rest, g) ->
  (g = Some a \/ g = Some b) /\ (length l + length rest <= length s)%nat.
Proof.
  intros Hgf. unfold match_here. cbn [run].
  destruct (lit_match no_flags l s) as [s1|] eqn:L1; [|discriminate].
  apply lit_match_inv in L1; [|reflexivity]. subst s.
  assert (Hone : forall w res,
             match lit_match no_flags w s1 with
             | Some s' => run no_flags tail s' (Some (take (length s1 - length s') s1))
                            (fun s' g' => Some (s', g'))
             | None => None
             end = Some res ->
             snd res = Some w /\ (length (fst res) <= length s1)%nat).
  { intros w res H. destruct (lit_match no_flags w s1) as [s2|] eqn:L; [|discriminate].
    apply lit_match_inv in L; [|reflexivity]. subst s1.
    rewrite take_app_minus in H.
    apply run_group_free in H as (m & s' & -> & [= <-]); [|exact Hgf].
    split; [reflexivity|]. simpl. rewrite !length_app. lia. }
  intros H.
  match type of H with
  | match ?X with _ => _ end = _ => destruct X as [res|] eqn:E1
  end.
  - injection H as ->. apply Hone in E1 as [Hg Hl]. simpl in Hg, Hl.
    split; [left; exact Hg|]. rewrite length_app. lia.
  - apply Hone in H as [Hg Hl]. simpl in Hg, Hl.
    split; [right; exact Hg|]. rewrite length_app. lia.
Qed.

(** Every match of the fallback pattern consumes text and captures
    [Part] or [NextPart]. *)
Lemma boundary_pattern_match (s rest : str) (g : option str) :
  match_here no_flags boundary_pattern s = Some (rest, g) ->
  (g = Some (py "Part") \/ g = Some (py "NextPart")) /\ (length rest < length s)%nat.
Proof.
  intros H. apply prefixed_alternative_match in H as [Hg Hl]; [|reflexivity].
  split; [exact Hg|]. simpl in Hl. lia.
Qed.

Lemma re_split_loop_interleaved (n : nat) (s : str) :
  captures_interleaved (re_split_loop n no_flags boundary_pattern s).
Proof.
  revert s. induction n as [|n IH]; intros s; simpl; [exact I|].
  destruct (search no_flags boundary_pattern s) as [[[pre rest] g]|] eqn:F; [|exact I].
  destruct (search_inv _ _ _ _ _ _ F) as (m & Hs & Hm).
  apply boundary_pattern_match in Hm as [Hg _].
  destruct (length pre + length rest <? length s)%nat; [|exact I].
  destruct Hg as [-> | ->]; simpl; (split; [auto|apply IH]).
Qed.

Lemma re_split_first_match (s pre rest : str) (g : option str) :
  search no_flags boundary_pattern s = Some (pre, rest, g) ->
  exists cap,
    (cap = py "Part" \/ cap = py "NextPart") /\
    re_split no_flags boundary_pattern s
    = pre :: cap :: re_split_loop (length s) no_flags boundary_pattern rest.
Proof.
  intros F. unfold re_split. simpl. rewrite F.
  destruct (search_inv _ _ _ _ _ _ F) as (m & Hs & Hm).
  apply boundary_pattern_match in Hm as [Hg Hl].
  assert (Hlt : (length pre + length rest <? length s)%nat = true).
  { apply Nat.ltb_lt. rewrite Hs, !length_app. rewrite length_app in Hl. lia. }
  rewrite Hlt. destruct Hg as [-> | ->]; eexists; (split; [|reflexivity]); auto.
Qed.

Lemma re_split_loop_nonempty (n : nat) (fl : flags) (r : regex) (s : str) :
  re_split_loop n fl r s <> [].
Proof.
  destruct n; simpl; [discriminate|].
  destruct (search fl r s) as [[[pre rest] g]|]; [|discriminate].
  destruct (_ <? _)%nat; discriminate.
Qed.

(** *** The declared boundary *)

(** Where the first [boundary=] with an opening quote is followed by a
    token free of quotes and newlines and by a closing quote, the token is
    what [boundary_re] captures. *)
Lemma boundary_re_declared (pre token post : str) :
  find boundary_keyword (pre ++ boundary_keyword ++ token ++ [dq] ++ post)
    = Some (length pre) ->
  ~ In dq token -> ~ In nl token ->
  search_group no_flags boundary_re (pre ++ boundary_keyword ++ token ++ [dq] ++ post)
    = Some token.
Proof.
  intros Hfind Hq Hn. unfold search_group.
  destruct (find_Some _ _ _ Hfind) as (_ & _ & _ & _ & _ & _ & Hmin).
  rewrite search_skip.
  - assert (Hm : match_here no_flags boundary_re (boundary_keyword ++ token ++ [dq] ++ post)
                 = Some (post, Some token)).
    { unfold match_here, boundary_re. cbn [run]. fold boundary_keyword.
      rewrite lit_match_app by reflexivity.
      rewrite star_lazy_skip.
      - apply star_lazy_here. rewrite lit_match_app by reflexivity.
        rewrite take_app_minus. reflexivity.
      - intros a1 a2 -> Ha2. destruct a2 as [|x a2]; [congruence|].
        simpl. unfold chr_eq. simpl.
        destruct (N.eqb_spec x dq) as [->|]; [|reflexivity].
        exfalso. apply Hq. apply in_or_app. right. left. reflexivity.
      - apply List.Forall_forall. intros x Hx. simpl.
        destruct (N.eqb_spec x 10) as [->|]; [|reflexivity].
        exfalso. exact (Hn Hx). }
    rewrite (search_here _ _ _ _ _ Hm). reflexivity.
  - intros a b -> Hb.
    destruct (match_here no_flags boundary_re _) as [[rest g]|] eqn:E; [|reflexivity].
    exfalso. unfold match_here, boundary_re in E. cbn [run] in E.
    fold boundary_keyword in E.
    destruct (lit_match no_flags boundary_keyword _) as [s1|] eqn:L; [|discriminate].
    apply lit_match_inv in L; [|reflexivity].
    assert (Hdec : (a ++ b) ++ boundary_keyword ++ token ++ [dq] ++ post
                   = a ++ boundary_keyword ++ s1).
    { rewrite <- app_assoc. f_equal. exact L. }
    specialize (Hmin _ _ Hdec). rewrite length_app in Hmin.
    destruct b; [congruence|simpl in Hmin; lia].
Qed.

(** *** The bare-hash pattern *)

(** Wherever the bare-hash pattern matches, the header is the last thing
    in the part, but for one newline. *)
Lemma location_hash_only_at_end (part key : str) :
  search_group no_flags location_hash_re part = Some key ->
  exists pre,
    part = pre ++ location_prefix ++ key \/
    part = pre ++ location_prefix ++ key ++ [nl].
Proof.
  unfold search_group.
  destruct (search no_flags location_hash_re part) as [[[pre rest] g]|] eqn:F;
    [|discriminate].
  intros [= <-]. destruct (search_inv _ _ _ _ _ _ F) as (m & -> & Hm).
  exists pre. unfold match_here, location_hash_re, Plus in Hm. cbn [run] in Hm.
  fold location_prefix in Hm.
  destruct (lit_match no_flags location_prefix (m ++ rest)) as [s1|] eqn:L; [|discriminate].
  apply lit_match_inv in L; [|reflexivity]. rewrite L.
  destruct s1 as [|x s2]; [discriminate|].
  destruct (class_match no_flags hex_class x); [|discriminate].
  apply star_greedy_inv in Hm as (a & t & -> & Hk).
  destruct (at_end t) eqn:Hend; [|discriminate].
  injection Hk as <- <-.
  replace (take (S (length (a ++ t)) - length t) (x :: a ++ t)) with (x :: a).
  2:{ rewrite length_app.
      replace (S (length a + length t) - length t)%nat with (S (length a)) by lia.
      cbn [take]. rewrite take_app_length. reflexivity. }
  cbn [default].
  destruct t as [|c [|d t]]; cbn [at_end] in Hend; try discriminate.
  - left. rewrite app_nil_r. reflexivity.
  - right. apply N.eqb_eq in Hend. subst c. reflexivity.
Qed.

(** *** Paragraph removal

    Both patterns of [remove_confluence_metadata] are [<p>.*?] followed by
    a tail that reads one of a few words, then [.*?</p>]. *)

Lemma find_close_p (u post : str) :
  contains close_p u = false -> find close_p (u ++ close_p ++ post) = Some (length u).
Proof.
  intros H. change close_p with (60 :: [47; 112; 62]) in *.
  apply find_after_clean; [|exact H].
  intros [|[|[|[]]]]; discriminate.
Qed.

Lemma drop_close_p (u post : str) :
  drop (length u + 4) (u ++ close_p ++ post) = post.
Proof. rewrite drop_app_add. reflexivity. Qed.

Section Paragraph.

Variable tail : regex.
Variable words : list str.

Hypothesis tail_inv :
  forall t g0 rest g,
    run dotall tail t g0 (fun s' g' => Some (s', g')) = Some (rest, g) ->
    exists w u i, In w words /\ t = w ++ u /\
                  find close_p u = Some i /\ rest = drop (i + 4) u.

Hypothesis tail_match :
  forall w u i g0,
    In w words -> find close_p u = Some i ->
    exists g, run dotall tail (w ++ u) g0 (fun s' g' => Some (s', g'))
              = Some (drop (i + 4) u, g).

Hypothesis words_length :
  forall w w', In w words -> In w' words -> (length w' <= S (length w))%nat.

Lemma paragraph_body (a w b post : str) :
  In w words -> contains close_p (a ++ w ++ b) = false ->
  exists g,
    star_lazy dotall Any (a ++ w ++ b ++ close_p ++ post)
      (fun s' => run dotall tail s' None (fun s' g' => Some (s', g')))
    = Some (post, g).
Proof.
  intros Hw. induction a as [|x a IH]; intros Hfree.
  - simpl in Hfree |- *. apply contains_app_false in Hfree as [_ Hb].
    destruct (tail_match w (b ++ close_p ++ post) (length b) None Hw
                (find_close_p _ _ Hb)) as (g & Hg).
    rewrite drop_close_p in Hg. exists g. apply star_lazy_here. exact Hg.
  - change ((x :: a) ++ w ++ b) with (x :: a ++ w ++ b) in Hfree.
    change ((x :: a) ++ w ++ b ++ close_p ++ post)
      with (x :: a ++ w ++ b ++ close_p ++ post).
    destruct (run dotall tail (x :: a ++ w ++ b ++ close_p ++ post) None
                (fun s' g' => Some (s', g'))) as [[rest g]|] eqn:E.
    + exists g. rewrite (star_lazy_here _ _ _ _ _ E). f_equal. f_equal.
      destruct (tail_inv _ _ _ _ E) as (w' & u' & i & Hw' & Heq & Hfind & ->).
      set (U := x :: a ++ w ++ b) in *.
      assert (HU : exists U', U = w' ++ U' /\ u' = U' ++ close_p ++ post).
      { assert (Heq' : U ++ close_p ++ post = w' ++ u').
        { rewrite <- Heq. unfold U. cbn [app]. rewrite <- !app_assoc. reflexivity. }
        apply app_eq_app in Heq' as [l [[HU Hu']|[Hw'' Hcp]]].
        - exists l. split; assumption.
        - assert (l = []) as ->.
          { pose proof (words_length _ _ Hw Hw') as Hl.
            apply (f_equal (@length N)) in Hw''.
            rewrite length_app in Hw''. unfold U in Hw''. cbn [length] in Hw''.
            rewrite !length_app in Hw''. destruct l; [reflexivity|cbn [length] in Hw''; lia]. }
          exists []. rewrite app_nil_r in Hw''. rewrite app_nil_r.
          split; [symmetry; exact Hw''|symmetry; exact Hcp]. }
      destruct HU as (U' & HU & ->).
      assert (Hfree' : contains close_p U' = false).
      { rewrite HU in Hfree.
        apply contains_app_false in Hfree as [_ H]. exact H. }
      rewrite (find_close_p _ _ Hfree') in Hfind. injection Hfind as <-.
      apply drop_close_p.
    + rewrite star_lazy_step; [|exact E|reflexivity]. apply IH.
      change (x :: a ++ w ++ b) with ([x] ++ a ++ w ++ b) in Hfree.
      apply contains_app_false in Hfree as [_ H]. exact H.
Qed.

(** The pattern matches a whole paragraph whose text holds one of the
    words and no closing tag. *)
Lemma paragraph_match (a w b post : str) :
  In w words -> contains close_p (a ++ w ++ b) = false ->
  exists g, match_here dotall (paragraph_re tail)
              (py "<p>" ++ (a ++ w ++ b) ++ close_p ++ post) = Some (post, g).
Proof.
  intros Hw Hfree. unfold match_here, paragraph_re. cbn [run].
  rewrite lit_match_app by reflexivity. rewrite <- !app_assoc.
  exact (paragraph_body a w b post Hw Hfree).
Qed.

Lemma paragraph_sub (pre a w b post : str) :
  begins_in (py "<p>") pre = false ->
  In w words -> contains close_p (a ++ w ++ b) = false ->
  sub dotall (paragraph_re tail) [] (pre ++ py "<p>" ++ (a ++ w ++ b) ++ close_p ++ post)
  = pre ++ sub dotall (paragraph_re tail) [] post.
Proof.
  intros Hpre Hw Hfree. unfold paragraph_re.
  rewrite sub_clear by (reflexivity || exact Hpre). f_equal.
  fold (paragraph_re tail).
  destruct (paragraph_match a w b post Hw Hfree) as (g & Hm).
  rewrite sub_eq, (search_here _ _ _ _ _ Hm).
  replace (length [] + length post <? _)%nat with true; [reflexivity|].
  symmetry. apply Nat.ltb_lt. rewrite !length_app.
  change (length (py "<p>")) with 3%nat. cbn [length]. lia.
Qed.

(** Where none of the words occurs, nothing is removed. *)
Lemma paragraph_sub_absent (text : str) :
  (forall w, In w words -> contains w text = false) ->
  sub dotall (paragraph_re tail) [] text = text.
Proof.
  intros Habs. apply sub_no_match, search_none. intros a b ->.
  destruct (match_here dotall (paragraph_re tail) b) as [[rest g]|] eqn:E; [|reflexivity].
  exfalso. unfold match_here, paragraph_re in E. cbn [run] in E.
  destruct (lit_match dotall (py "<p>") b) as [s1|] eqn:L; [|discriminate].
  apply lit_match_inv in L; [|reflexivity]. subst b.
  apply star_lazy_inv in E as (a1 & t & -> & E).
  destruct (tail_inv _ _ _ _ E) as (w & u & i & Hw & -> & _).
  specialize (Habs w Hw). apply (proj1 (contains_false _ _) Habs (a ++ py "<p>" ++ a1) u).
  rewrite <- !app_assoc. reflexivity.
Qed.

End Paragraph.

Lemma run_close_re (t : str) (g : option str) :
  run dotall close_re t g (fun s' g' => Some (s', g'))
  = match find close_p t with
    | Some i => Some (drop (i + 4) t, g)
    | None => None
    end.
Proof.
  unfold close_re. cbn [run].
  apply (star_lazy_find dotall close_p t g); [reflexivity|].
  intros s'. unfold close_p. rewrite lit_match_startswith by reflexivity.
  destruct (startswith (py "</p>") s'); reflexivity.
Qed.

Lemma class_two (a b c : N) :
  class_match dotall (OneOf false [(a, a); (b, b)]) c = true -> c = a \/ c = b.
Proof.
  unfold class_match, in_ranges. cbn [existsb fst snd dotall IGNORECASE].
  intros H.
  destruct (N.leb_spec a c), (N.leb_spec c a), (N.leb_spec b c), (N.leb_spec c b);
    simpl in H; try discriminate; (left; lia) || (right; lia).
Qed.

Lemma page_owner_re_eq : page_owner_re = paragraph_re owner_tail.
Proof. reflexivity. Qed.

Lemma page_contact_re_eq : page_contact_re = paragraph_re contact_tail.
Proof. reflexivity. Qed.

(** Evaluate the tests the matcher makes on explicit characters. *)
Ltac crunch :=
  repeat match goal with
    | |- context [class_match ?f ?c ?x] =>
        let v := eval vm_compute in (class_match f c x) in
        change (class_match f c x) with v; cbn iota
    | |- context [lit_match ?f ?p (?x :: ?t)] =>
        let v := eval vm_compute in (lit_match f p (x :: t)) in
        change (lit_match f p (x :: t)) with v; cbn iota beta
    end.

Lemma owner_tail_match (w u : str) (i : nat) (g0 : option str) :
  In w owner_words -> find close_p u = Some i ->
  exists g, run dotall owner_tail (w ++ u) g0 (fun s' g' => Some (s', g'))
            = Some (drop (i + 4) u, g).
Proof.
  intros Hw Hf. unfold owner_words in Hw.
  repeat (destruct Hw as [<-|Hw]); [..|destruct Hw];
    unfold owner_tail; vm_compute py; cbn [run app]; crunch;
    rewrite run_close_re, Hf; eexists; reflexivity.
Qed.

Lemma contact_tail_match (w u : str) (i : nat) (g0 : option str) :
  In w contact_words -> find close_p u = Some i ->
  exists g, run dotall contact_tail (w ++ u) g0 (fun s' g' => Some (s', g'))
            = Some (drop (i + 4) u, g).
Proof.
  intros Hw Hf. unfold contact_words in Hw.
  repeat (destruct Hw as [<-|Hw]); [..|destruct Hw];
    unfold contact_tail; vm_compute py; cbn [run app]; crunch;
    rewrite run_close_re, Hf; eexists; reflexivity.
Qed.

Ltac in_list := cbv; repeat ((left; reflexivity) || right).

Lemma owner_tail_inv (t : str) (g0 : option str) (rest : str) (g : option str) :
  run dotall owner_tail t g0 (fun s' g' => Some (s', g')) = Some (rest, g) ->
  exists w u i, In w owner_words /\ t = w ++ u /\
                find close_p u = Some i /\ rest = drop (i + 4) u.
Proof.
  unfold owner_tail. cbn [run]. intros H.
  destruct t as [|c1 t1]; [discriminate|].
  destruct (class_match dotall (OneOf false (chars "Pp")) c1) eqn:C1; [|discriminate].
  destruct (lit_match dotall (py "age ") t1) as [t2|] eqn:L1; [|discriminate].
  apply lit_match_inv in L1; [|reflexivity]. subst t1.
  destruct t2 as [|c2 t3]; [discriminate|].
  destruct (class_match dotall (OneOf false (chars "Oo")) c2) eqn:C2; [|discriminate].
  apply (class_two 80 112) in C1. apply (class_two 79 111) in C2.
  assert (Hword : forall sfx t4 res,
             In sfx [py "wner"; py "ner"] ->
             run dotall close_re t4 (Some (take (length (sfx ++ t4) - length t4) (sfx ++ t4)))
               (fun s' g' => Some (s', g')) = Some res ->
             exists w u i, In w owner_words /\
               c1 :: py "age " ++ c2 :: sfx ++ t4 = w ++ u /\
               find close_p u = Some i /\ fst res = drop (i + 4) u).
  { intros sfx t4 res Hsfx Hrun. rewrite run_close_re in Hrun.
    destruct (find close_p t4) as [i|] eqn:F; [|discriminate].
    injection Hrun as <-.
    exists (c1 :: py "age " ++ c2 :: sfx), t4, i.
    split; [|split; [|split; [exact F|reflexivity]]].
    - destruct C1 as [-> | ->], C2 as [-> | ->], Hsfx as [<- | [<- | []]]; in_list.
    - cbn [app]. rewrite <- !app_assoc. reflexivity. }
  destruct (lit_match dotall (py "wner") t3) as [t4|] eqn:L2.
  - apply lit_match_inv in L2; [|reflexivity]. subst t3.
    match type of H with
    | match ?X with _ => _ end = _ => destruct X as [res|] eqn:E
    end.
    + injection H as ->. apply Hword in E; [|in_list].
      destruct E as (w & u & i & ? & ? & ? & ?). exists w, u, i. auto.
    + replace (lit_match dotall (py "ner") (py "wner" ++ t4)) with (@None str) in H
        by reflexivity.
      discriminate.
  - destruct (lit_match dotall (py "ner") t3) as [t4|] eqn:L3; [|discriminate].
    apply lit_match_inv in L3; [|reflexivity]. subst t3.
    apply Hword in H; [|in_list].
    destruct H as (w & u & i & ? & ? & ? & ?). exists w, u, i. auto.
Qed.

Lemma contact_tail_inv (t : str) (g0 : option str) (rest : str) (g : option str) :
  run dotall contact_tail t g0 (fun s' g' => Some (s', g')) = Some (rest, g) ->
  exists w u i, In w contact_words /\ t = w ++ u /\
                find close_p u = Some i /\ rest = drop (i + 4) u.
Proof.
  unfold contact_tail. cbn [run]. intros H.
  destruct t as [|c1 t1]; [discriminate|].
  destruct (class_match dotall (OneOf false (chars "Pp")) c1) eqn:C1; [|discriminate].
  destruct (lit_match dotall (py "age ") t1) as [t2|] eqn:L1; [|discriminate].
  apply lit_match_inv in L1; [|reflexivity]. subst t1.
  destruct t2 as [|c2 t3]; [discriminate|].
  destruct (class_match dotall (OneOf false (chars "Cc")) c2) eqn:C2; [|discriminate].
  apply (class_two 67 99) in C1 || apply (class_two 80 112) in C1.
  apply (class_two 67 99) in C2.
  destruct (lit_match dotall (py "ontact") t3) as [t4|] eqn:L2; [|discriminate].
  apply lit_match_inv in L2; [|reflexivity]. subst t3.
  rewrite run_close_re in H.
  destruct (find close_p t4) as [i|] eqn:F; [|discriminate].
  injection H as <- _.
  exists (c1 :: py "age " ++ c2 :: py "ontact"), t4, i.
  split; [|split; [|split; [exact F|reflexivity]]].
  - destruct C1 as [-> | ->], C2 as [-> | ->]; in_list.
  - cbn [app]. rewrite <- !app_assoc. reflexivity.
Qed.

Lemma owner_words_length (w w' : str) :
  In w owner_words -> In w' owner_words -> (length w' <= S (length w))%nat.
Proof.
  unfold owner_words. intros Hw Hw'.
  repeat (destruct Hw as [<-|Hw]); [..|destruct Hw];
    repeat (destruct Hw' as [<-|Hw']); try destruct Hw'; vm_compute; lia.
Qed.

Lemma contact_words_length (w w' : str) :
  In w contact_words -> In w' contact_words -> (length w' <= S (length w))%nat.
Proof.
  unfold contact_words. intros Hw Hw'.
  repeat (destruct Hw as [<-|Hw]); [..|destruct Hw];
    repeat (destruct Hw' as [<-|Hw']); try destruct Hw'; vm_compute; lia.
Qed.

Lemma has_word_true (words : list str) (s : str) :
  has_word words s = true -> exists w a b, In w words /\ s = a ++ w ++ b.
Proof.
  unfold has_word. intros H. apply existsb_exists in H as (w & Hw & Hc).
  apply contains_true in Hc as (a & b & ->). eauto.
Qed.

Lemma has_word_false (words : list str) (s : str) :
  has_word words s = false -> forall w, In w words -> contains w s = false.
Proof.
  unfold has_word. induction words as [|x words IH]; simpl; [contradiction|].
  intros H w [<-|Hw].
  - destruct (contains x s); [discriminate|reflexivity].
  - apply IH; [|exact Hw]. destruct (contains x s); [discriminate|exact H].
Qed.

Lemma owner_sub (pre a w b post : str) :
  begins_in (py "<p>") pre = false -> In w owner_words -> contains close_p (a ++ w ++ b) = false ->
  sub dotall page_owner_re [] (pre ++ py "<p>" ++ (a ++ w ++ b) ++ close_p ++ post)
  = pre ++ sub dotall page_owner_re [] post.
Proof.
  rewrite page_owner_re_eq.
  apply paragraph_sub; [exact owner_tail_inv|exact owner_tail_match|exact owner_words_length].
Qed.

Lemma contact_sub (pre a w b post : str) :
  begins_in (py "<p>") pre = false -> In w contact_words -> contains close_p (a ++ w ++ b) = false ->
  sub dotall page_contact_re [] (pre ++ py "<p>" ++ (a ++ w ++ b) ++ close_p ++ post)
  = pre ++ sub dotall page_contact_re [] post.
Proof.
  rewrite page_contact_re_eq.
  apply paragraph_sub; [exact contact_tail_inv|exact contact_tail_match|exact contact_words_length].
Qed.

Lemma owner_sub_absent (text : str) :
  has_word owner_words text = false -> sub dotall page_owner_re [] text = text.
Proof.
  intros H. rewrite page_owner_re_eq.
  apply (paragraph_sub_absent owner_tail owner_words owner_tail_inv).
  exact (has_word_false _ _ H).
Qed.

Lemma has_word_app_false (words : list str) (a b : str) :
  has_word words (a ++ b) = false ->
  has_word words a = false /\ has_word words b = false.
Proof.
  unfold has_word. induction words as [|x words IH]; simpl; [auto|].
  intros H. apply orb_false_iff in H as [Hx H].
  apply contains_app_false in Hx as [-> ->]. simpl. exact (IH H).
Qed.

End AppFacts.

(** ** Facts about the codecs *)

Module CodecFacts.
Import Str Re Codec Notions StrFacts ReFacts.

(** *** Checking a property of all octets by evaluation *)

Lemma In_octets (x : N) : x < 256 -> In x octets.
Proof.
  intros H. unfold octets. rewrite <- (N2Nat.id x).
  apply in_map, in_seq. lia.
Qed.

Lemma octets_forall (P : N -> bool) :
  forallb P octets = true -> forall x, x < 256 -> P x = true.
Proof.
  intros H x Hx. rewrite forallb_forall in H. apply H, In_octets, Hx.
Qed.

Lemma octets_forall2 (P : N -> N -> bool) :
  forallb (fun x => forallb (P x) octets) octets = true ->
  forall x y, x < 256 -> y < 256 -> P x y = true.
Proof.
  intros H x y Hx Hy.
  apply (octets_forall (P x)); [|exact Hy].
  exact (octets_forall (fun x => forallb (P x) octets) H x Hx).
Qed.

(** *** base64 *)

Lemma b64_char_facts (v : N) :
  v < 64 ->
  b64_value (b64_char v) = Some v /\ (b64_char v =? 61) = false /\
  (b64_char v <? 128) = true /\ isspace (b64_char v) = false.
Proof.
  intros H.
  assert (Hc : b64_char_ok v = true)
    by (apply (octets_forall b64_char_ok); [vm_compute; reflexivity|lia]).
  unfold b64_char_ok in Hc. destruct (N.ltb_spec v 64); [|lia].
  apply andb_true_iff in Hc as [Hc H4]. apply andb_true_iff in Hc as [Hc H3].
  apply andb_true_iff in Hc as [H1 H2].
  apply negb_true_iff in H2, H4.
  destruct (b64_value (b64_char v)) as [w|]; [|discriminate].
  apply N.eqb_eq in H1. subst w. auto.
Qed.

Lemma sextets (x y : N) : x < 256 -> y < 256 -> sextet_facts x y.
Proof.
  intros Hx Hy.
  assert (H : sextets_ok x y = true)
    by (apply (octets_forall2 sextets_ok); [vm_compute; reflexivity|lia|lia]).
  unfold sextets_ok in H. cbv zeta in H.
  repeat (apply andb_true_iff in H as [H ?]).
  repeat match goal with
         | H : (_ <? _) = true |- _ => apply N.ltb_lt in H
         | H : (_ =? _) = true |- _ => apply N.eqb_eq in H
         end.
  constructor; assumption.
Qed.

Lemma a2b_quad (v1 v2 v3 v4 : N) (rest out : bytes) :
  v1 < 64 -> v2 < 64 -> v3 < 64 -> v4 < 64 ->
  a2b_base64 (b64_char v1 :: b64_char v2 :: b64_char v3 :: b64_char v4 :: rest) 0 0 0 out
  = a2b_base64 rest 0 0 0
      (out ++ [N.lor (N.shiftl v1 2) (N.shiftr v2 4);
               N.lor (N.shiftl (N.land v2 15) 4) (N.shiftr v3 2);
               N.lor (N.shiftl (N.land v3 3) 6) v4]).
Proof.
  intros H1 H2 H3 H4.
  destruct (b64_char_facts v1 H1) as (V1 & E1 & _).
  destruct (b64_char_facts v2 H2) as (V2 & E2 & _).
  destruct (b64_char_facts v3 H3) as (V3 & E3 & _).
  destruct (b64_char_facts v4 H4) as (V4 & E4 & _).
  cbn [a2b_base64]. rewrite E1, V1. cbn [a2b_base64]. rewrite E2, V2.
  cbn [a2b_base64]. rewrite E3, V3. cbn [a2b_base64]. rewrite E4, V4.
  f_equal. rewrite <- !app_assoc. reflexivity.
Qed.

Lemma a2b_pad2 (v1 v2 : N) (out : bytes) :
  v1 < 64 -> v2 < 64 ->
  a2b_base64 [b64_char v1; b64_char v2; 61; 61] 0 0 0 out
  = Some (out ++ [N.lor (N.shiftl v1 2) (N.shiftr v2 4)]).
Proof.
  intros H1 H2.
  destruct (b64_char_facts v1 H1) as (V1 & E1 & _).
  destruct (b64_char_facts v2 H2) as (V2 & E2 & _).
  cbn [a2b_base64]. rewrite E1, V1. cbn [a2b_base64]. rewrite E2, V2.
  reflexivity.
Qed.

Lemma a2b_pad1 (v1 v2 v3 : N) (out : bytes) :
  v1 < 64 -> v2 < 64 -> v3 < 64 ->
  a2b_base64 [b64_char v1; b64_char v2; b64_char v3; 61] 0 0 0 out
  = Some (out ++ [N.lor (N.shiftl v1 2) (N.shiftr v2 4);
                  N.lor (N.shiftl (N.land v2 15) 4) (N.shiftr v3 2)]).
Proof.
  intros H1 H2 H3.
  destruct (b64_char_facts v1 H1) as (V1 & E1 & _).
  destruct (b64_char_facts v2 H2) as (V2 & E2 & _).
  destruct (b64_char_facts v3 H3) as (V3 & E3 & _).
  cbn [a2b_base64]. rewrite E1, V1. cbn [a2b_base64]. rewrite E2, V2.
  cbn [a2b_base64]. rewrite E3, V3. cbn [a2b_base64].
  rewrite <- !app_assoc. reflexivity.
Qed.

(** Decoding undoes encoding. *)
Lemma a2b_b64encode (n : nat) (b out : bytes) :
  (length b <= n)%nat -> Forall octet b ->
  a2b_base64 (b64encode b) 0 0 0 out = Some (out ++ b).
Proof.
  revert b out. induction n as [|n IH]; intros b out Hlen Hb.
  - destruct b; [|simpl in Hlen; lia]. simpl. rewrite app_nil_r. reflexivity.
  - destruct b as [|x [|y [|z t]]].
    + simpl. rewrite app_nil_r. reflexivity.
    + apply Forall_cons in Hb as [Hx _].
      destruct (sextets x 0 Hx ltac:(reflexivity)) as [? ? ? ? F1 ? ? ? ? ?].
      cbn [b64encode]. change (N.shiftr 0 4) with 0 in *.
      rewrite N.lor_0_r in *. rewrite a2b_pad2 by assumption.
      rewrite F1. reflexivity.
    + apply Forall_cons in Hb as [Hx Hb]. apply Forall_cons in Hb as [Hy _].
      destruct (sextets x y Hx Hy) as [? ? _ _ F1 L2 _ _ _ _].
      destruct (sextets y 0 Hy ltac:(reflexivity)) as [_ _ ? _ _ _ H3 _ S2 _].
      cbn [b64encode]. change (N.shiftr 0 6) with 0 in *.
      rewrite N.lor_0_r in *. rewrite a2b_pad1 by assumption.
      rewrite F1, L2, H3, S2. reflexivity.
    + apply Forall_cons in Hb as [Hx Hb]. apply Forall_cons in Hb as [Hy Hb].
      apply Forall_cons in Hb as [Hz Hb].
      destruct (sextets x y Hx Hy) as [? ? _ _ F1 L2 _ _ _ _].
      destruct (sextets y z Hy Hz) as [_ _ ? _ _ _ H3 L3 S2 _].
      destruct (sextets z 0 Hz ltac:(reflexivity)) as [_ _ _ ? _ _ _ _ _ T3].
      cbn [b64encode]. rewrite a2b_quad by assumption.
      rewrite F1, L2, H3, S2, L3, T3.
      rewrite IH; [|simpl in Hlen; lia|exact Hb].
      rewrite <- app_assoc. reflexivity.
Qed.

Lemma b64encode_chars (b : bytes) :
  Forall octet b ->
  Forall (fun c => (c <? 128) = true /\ isspace c = false) (b64encode b).
Proof.
  assert (Hc : forall v, v < 64 -> (b64_char v <? 128) = true /\ isspace (b64_char v) = false).
  { intros v Hv. destruct (b64_char_facts v Hv) as (_ & _ & ? & ?). auto. }
  assert (Hpad : (61 <? 128) = true /\ isspace 61 = false) by (split; reflexivity).
  assert (Hgen : forall n b, (length b <= n)%nat -> Forall octet b ->
             Forall (fun c => (c <? 128) = true /\ isspace c = false) (b64encode b)).
  { induction n as [|n IH]; intros b' Hlen Hb.
    - destruct b'; [constructor|simpl in Hlen; lia].
    - destruct b' as [|x [|y [|z t]]].
      + constructor.
      + apply Forall_cons in Hb as [Hx _].
        destruct (sextets x 0 Hx ltac:(reflexivity)) as [? ? ? ? _ _ _ _ _ _].
        cbn [b64encode]. change (N.shiftr 0 4) with 0 in *. rewrite N.lor_0_r in *.
        repeat constructor; try apply Hc; assumption.
      + apply Forall_cons in Hb as [Hx Hb]. apply Forall_cons in Hb as [Hy _].
        destruct (sextets x y Hx Hy) as [? ? _ _ _ _ _ _ _ _].
        destruct (sextets y 0 Hy ltac:(reflexivity)) as [_ _ ? _ _ _ _ _ _ _].
        cbn [b64encode]. change (N.shiftr 0 6) with 0 in *. rewrite N.lor_0_r in *.
        repeat constructor; try apply Hc; assumption.
      + apply Forall_cons in Hb as [Hx Hb]. apply Forall_cons in Hb as [Hy Hb].
        apply Forall_cons in Hb as [Hz Hb].
        destruct (sextets x y Hx Hy) as [? ? _ _ _ _ _ _ _ _].
        destruct (sextets y z Hy Hz) as [_ _ ? _ _ _ _ _ _ _].
        destruct (sextets z 0 Hz ltac:(reflexivity)) as [_ _ _ ? _ _ _ _ _ _].
        cbn [b64encode].
        repeat (constructor; [apply Hc; assumption|]).
        apply IH; [simpl in Hlen; lia|exact Hb]. }
  intros Hb. exact (Hgen (length b) b (le_n _) Hb).
Qed.

(** [b64decode] undoes [b64encode]. *)
Lemma b64decode_b64encode (b : bytes) :
  Forall octet b -> b64decode (b64encode b) = Some b.
Proof.
  intros Hb. unfold b64decode.
  replace (forallb (fun c => c <? 128) (b64encode b)) with true.
  - exact (a2b_b64encode (length b) b [] (le_n _) Hb).
  - symmetry. apply forallb_forall. intros c Hc.
    pose proof (b64encode_chars b Hb) as Hall.
    rewrite List.Forall_forall in Hall. exact (proj1 (Hall c Hc)).
Qed.

(** *** UTF-16 *)

Lemma utf16le_roundtrip (e : errors) (x : str) :
  forall b, utf16le_encode x = Some b ->
    Forall octet b /\
    exists u, utf16le_units b = (u, false) /\ utf16_units_decode e false u = Some x.
Proof.
  induction x as [|c x IH]; intros b; cbn [utf16le_encode].
  - intros [= <-]. split; [constructor|]. exists []. split; reflexivity.
  - destruct ((c <? 0xD800) || ((0xE000 <=? c) && (c <? 0x10000))) eqn:Hbmp.
    + destruct (utf16le_encode x) as [b'|]; [|discriminate].
      intros [= <-]. destruct (IH b' eq_refl) as (Hb' & u & Hu & Hd).
      assert (Hc : c < 0xD800 \/ (0xE000 <= c /\ c < 0x10000)).
      { apply orb_true_iff in Hbmp as [H|H]; [left; apply N.ltb_lt, H|right].
        apply andb_true_iff in H as [H1 H2].
        apply N.leb_le in H1. apply N.ltb_lt in H2. auto. }
      split.
      * repeat constructor; try exact Hb'; unfold octet.
        -- apply N.mod_lt. discriminate.
        -- apply N.Div0.div_lt_upper_bound. lia.
      * exists (c :: u). cbn [app utf16le_units]. rewrite Hu. split.
        -- f_equal. f_equal. rewrite N.add_comm. symmetry. apply N.div_mod. discriminate.
        -- cbn [utf16_units_decode]. unfold is_high, is_low.
           replace ((0xD800 <=? c) && (c <=? 0xDBFF)) with false
             by (symmetry; apply andb_false_iff; destruct Hc;
                 [left; apply N.leb_gt|right; apply N.leb_gt]; lia).
           replace ((0xDC00 <=? c) && (c <=? 0xDFFF)) with false
             by (symmetry; apply andb_false_iff; destruct Hc;
                 [left; apply N.leb_gt|right; apply N.leb_gt]; lia).
           rewrite Hd. reflexivity.
    + destruct ((0x10000 <=? c) && (c <? 0x110000)) eqn:Hsup; [|discriminate].
      destruct (utf16le_encode x) as [b'|]; [|discriminate].
      intros [= <-]. destruct (IH b' eq_refl) as (Hb' & u & Hu & Hd).
      apply andb_true_iff in Hsup as [H1 H2].
      apply N.leb_le in H1. apply N.ltb_lt in H2.
      set (c' := c - 0x10000) in *.
      assert (Hc' : c' < 0x100000) by (unfold c'; lia).
      assert (Hhi : N.shiftr c' 10 < 0x400).
      { rewrite N.shiftr_div_pow2. apply N.Div0.div_lt_upper_bound. exact Hc'. }
      assert (Hlo : N.land c' 0x3FF < 0x400).
      { change 0x3FF with (N.ones 10). rewrite N.land_ones.
        apply N.mod_lt. discriminate. }
      assert (Hsum : N.shiftl (N.shiftr c' 10) 10 + N.land c' 0x3FF = c').
      { change 0x3FF with (N.ones 10).
        rewrite N.land_ones, N.shiftr_div_pow2, N.shiftl_mul_pow2.
        rewrite N.mul_comm. symmetry. apply N.div_mod. discriminate. }
      split.
      * repeat constructor; try exact Hb'; unfold octet;
          try (apply N.mod_lt; discriminate);
          apply N.Div0.div_lt_upper_bound; lia.
      * exists ((0xD800 + N.shiftr c' 10) :: (0xDC00 + N.land c' 0x3FF) :: u).
        cbn [app utf16le_units]. rewrite Hu. split.
        -- f_equal. f_equal; [|f_equal];
             rewrite N.add_comm; symmetry; apply N.div_mod; discriminate.
        -- cbn [utf16_units_decode]. unfold is_high, is_low.
           replace ((0xD800 <=? 0xD800 + N.shiftr c' 10)
                    && (0xD800 + N.shiftr c' 10 <=? 0xDBFF)) with true
             by (symmetry; apply andb_true_iff; split; apply N.leb_le; lia).
           replace ((0xDC00 <=? 0xDC00 + N.land c' 0x3FF)
                    && (0xDC00 + N.land c' 0x3FF <=? 0xDFFF)) with true
             by (symmetry; apply andb_true_iff; split; apply N.leb_le; lia).
           rewrite Hd. cbn [fmap option_fmap option_map]. f_equal. f_equal.
           replace (0xD800 + N.shiftr c' 10 - 0xD800) with (N.shiftr c' 10) by lia.
           replace (0xDC00 + N.land c' 0x3FF - 0xDC00) with (N.land c' 0x3FF) by lia.
           rewrite <- N.add_assoc, Hsum. unfold c'. lia.
Qed.

(** Decoding undoes [x.encode('utf-16')]. *)
Lemma utf16_decode_encode (e : errors) (x : str) (b : bytes) :
  utf16_encode x = Some b -> Forall octet b /\ utf16_decode e b = Some x.
Proof.
  unfold utf16_encode. destruct (utf16le_encode x) as [le|] eqn:E; [|discriminate].
  intros [= <-]. destruct (utf16le_roundtrip e x le E) as (Hle & u & Hu & Hd).
  split.
  - repeat constructor; try exact Hle; reflexivity.
  - cbn. rewrite Hu. exact Hd.
Qed.

(** With [errors='ignore'] no decoder raises. *)
Lemma utf16_units_decode_ignore (odd : bool) (u : list N) :
  exists x, utf16_units_decode Ignore odd u = Some x.
Proof.
  remember (length u) as n eqn:Hn. revert u Hn.
  induction n as [n IH] using lt_wf_ind. intros u Hn.
  destruct u as [|h t]; cbn [utf16_units_decode on_error].
  - destruct odd; eauto.
  - assert (Ht : exists x, utf16_units_decode Ignore odd t = Some x).
    { apply (IH (length t)); [subst n; simpl; lia|reflexivity]. }
    destruct Ht as (xt & Ht).
    destruct (is_high h).
    + destruct t as [|l t']; [eauto|].
      destruct (is_low l).
      * destruct (IH (length t') ltac:(subst n; simpl; lia) t' eq_refl) as (x' & ->).
        simpl. eauto.
      * eauto.
    + destruct (is_low h); [eauto|]. rewrite Ht. simpl. eauto.
Qed.

Lemma utf16_decode_ignore (b : bytes) : exists x, utf16_decode Ignore b = Some x.
Proof.
  assert (H : forall p : list N * bool,
             exists x, (let (u, odd) := p in utf16_units_decode Ignore odd u) = Some x).
  { intros [u odd]. apply utf16_units_decode_ignore. }
  unfold utf16_decode.
  repeat match goal with
         | |- context [match ?v with _ => _ end] =>
             lazymatch v with
             | utf16le_units _ => fail
             | utf16be_units _ => fail
             | _ => destruct v
             end
         end; apply H.
Qed.

(** *** [\s+] *)

Lemma sub_ws_id (repl s : str) :
  Forall (fun c => isspace c = false) s -> sub no_flags (Plus true Space) repl s = s.
Proof.
  intros Hs. apply sub_no_match, search_none. intros a b ->.
  apply Forall_app in Hs as [_ Hb]. unfold match_here, Plus. cbn [run].
  destruct b as [|x b]; [reflexivity|].
  apply Forall_cons in Hb as [Hx _]. cbn [class_match]. rewrite Hx. reflexivity.
Qed.

End CodecFacts.

(** ** Facts about the pipeline *)

Module PipelineFacts.
Import Str Re Codec App Notions StrFacts.

Section Saving.
Context `{System}.

(** What one call for writing can change. *)
Lemma write_file_effect (path : str) (data : bytes) (w w' : world) (r : option str) :
  write_file path data w = (w', r) ->
  metadata w' = metadata w /\ dirs w' = dirs w /\
  (forall p, p <> path -> files w' !! p = files w !! p) /\
  (forall p, is_Some (files w !! p) -> is_Some (files w' !! p)) /\
  (r = None -> w' = set_file path data w).
Proof.
  unfold write_file.
  assert (Hset : forall d,
            metadata (set_file path d w) = metadata w /\
            dirs (set_file path d w) = dirs w /\
            (forall p, p <> path -> files (set_file path d w) !! p = files w !! p) /\
            (forall p, is_Some (files w !! p) -> is_Some (files (set_file path d w) !! p))).
  { intros d. split; [reflexivity|]. split; [reflexivity|]. cbn [set_file files]. split.
    - intros p Hp. apply lookup_insert_ne. intros E. apply Hp. symmetry. exact E.
    - intros p Hp. destruct (decide (path = p)) as [->|Hne].
      + rewrite lookup_insert_eq. eauto.
      + rewrite lookup_insert_ne by exact Hne. exact Hp. }
  destruct (call_error open_error w path) as [e|].
  - intros [= <- <-]. repeat split; try reflexivity; try discriminate. intros p Hp. exact Hp.
  - destruct (write_error w path data) as [[e rest]|]; intros [= <- <-].
    + destruct (Hset rest) as (H1 & H2 & H3 & H4).
      split; [exact H1|]. split; [exact H2|]. split; [exact H3|]. split; [exact H4|].
      discriminate.
    + destruct (Hset data) as (H1 & H2 & H3 & H4).
      split; [exact H1|]. split; [exact H2|]. split; [exact H3|]. split; [exact H4|].
      reflexivity.
Qed.

Lemma write_file_null (path : str) (data : bytes) (w : world) :
  contains [0] path = true ->
  write_file path data w = (w, Some (py "embedded null byte")).
Proof. intros Hz. unfold write_file, call_error. rewrite Hz. reflexivity. Qed.

Lemma mkdir_effect (path : str) (w w' : world) (r : option str) :
  mkdir path w = (w', r) ->
  metadata w' = metadata w /\ files w' = files w /\
  (r = None -> dirs w' = {[path]} ∪ dirs w).
Proof.
  unfold mkdir. destruct (call_error mkdir_error w path) as [e|]; intros [= <- <-].
  - repeat split; try reflexivity. discriminate.
  - repeat split; reflexivity.
Qed.

(** After an exception the loop does nothing more. *)
Lemma save_images_raised (dir : str) (images : list (str * bytes)) (w : world) (e : str) :
  fold_left (save_image dir) images (w, Raised e) = (w, Raised e).
Proof. induction images as [|[key data] images IH]; [reflexivity|exact IH]. Qed.

(** One round, seen from the state it starts in. *)
Lemma save_image_step (dir : str) (w : world) (html : str) (n : nat)
    (key : str) (data : bytes) :
  let path := path_join dir (determine_image_filename key data) in
  (exists e, snd (write_file path data w) = Some e /\
             save_image dir (w, Returned (html, n)) (key, data)
             = (fst (write_file path data w), Raised e)) \/
  (write_file path data w = (set_file path data w, None) /\
   save_image dir (w, Returned (html, n)) (key, data)
   = (set_file path data w, Returned (rewrite_references html (key, data), S n))).
Proof.
  intros path. unfold save_image. fold path.
  destruct (write_file path data w) as [w' [e|]] eqn:Hw.
  - left. exists e. split; reflexivity.
  - right. destruct (write_file_effect _ _ _ _ _ Hw) as (_ & _ & _ & _ & Hset).
    rewrite (Hset eq_refl). split; reflexivity.
Qed.

Lemma save_image_effect (dir : str) (st : world * outcome (str * nat))
    (key : str) (data : bytes) :
  let w := fst st in
  let w' := fst (save_image dir st (key, data)) in
  metadata w' = metadata w /\ dirs w' = dirs w /\
  (forall p, p <> path_join dir (determine_image_filename key data) ->
             files w' !! p = files w !! p) /\
  (forall p, is_Some (files w !! p) -> is_Some (files w' !! p)).
Proof.
  destruct st as [w [[html n]|e]]; cbn [fst].
  - unfold save_image.
    destruct (write_file (path_join dir (determine_image_filename key data)) data w)
      as [w' r] eqn:Hw.
    destruct (write_file_effect _ _ _ _ _ Hw) as (H1 & H2 & H3 & H4 & _).
    destruct r; cbn [fst]; repeat split; assumption.
  - cbn [save_image fst]. repeat split; trivial.
Qed.

Lemma save_images_metadata (dir : str) (images : list (str * bytes))
    (st : world * outcome (str * nat)) :
  metadata (fst (fold_left (save_image dir) images st)) = metadata (fst st).
Proof.
  revert st. induction images as [|[key data] images IH]; intros st; [reflexivity|].
  cbn [fold_left]. rewrite IH.
  destruct (save_image_effect dir st key data) as (Hm & _). exact Hm.
Qed.

Lemma save_images_dirs (dir : str) (images : list (str * bytes))
    (st : world * outcome (str * nat)) :
  dirs (fst (fold_left (save_image dir) images st)) = dirs (fst st).
Proof.
  revert st. induction images as [|[key data] images IH]; intros st; [reflexivity|].
  cbn [fold_left]. rewrite IH.
  destruct (save_image_effect dir st key data) as (_ & Hd & _). exact Hd.
Qed.

(** Only asset paths are written. *)
Lemma save_images_frame (dir : str) (images : list (str * bytes))
    (st : world * outcome (str * nat)) (path : str) :
  (forall key data, In (key, data) images ->
                    path <> path_join dir (determine_image_filename key data)) ->
  files (fst (fold_left (save_image dir) images st)) !! path = files (fst st) !! path.
Proof.
  revert st. induction images as [|[key data] images IH]; intros st Hpath; [reflexivity|].
  cbn [fold_left]. rewrite IH.
  - destruct (save_image_effect dir st key data) as (_ & _ & Hf & _).
    apply Hf. apply (Hpath key data). left. reflexivity.
  - intros k d Hin. apply Hpath. right. exact Hin.
Qed.

Lemma save_images_keep (dir : str) (images : list (str * bytes))
    (st : world * outcome (str * nat)) (path : str) :
  is_Some (files (fst st) !! path) ->
  is_Some (files (fst (fold_left (save_image dir) images st)) !! path).
Proof.
  revert st. induction images as [|[key data] images IH]; intros st Hp; [exact Hp|].
  cbn [fold_left]. apply IH.
  destruct (save_image_effect dir st key data) as (_ & _ & _ & Hk). apply Hk, Hp.
Qed.

(** When the loop gets through, it has counted every asset and rewritten
    the references to each in turn. *)
Lemma save_images_returned (dir : str) (images : list (str * bytes)) (w w' : world)
    (html html' : str) (n n' : nat) :
  fold_left (save_image dir) images (w, Returned (html, n)) = (w', Returned (html', n')) ->
  n' = (n + length images)%nat /\ html' = fold_left rewrite_references images html.
Proof.
  revert w html n. induction images as [|[key data] images IH]; intros w html n.
  - cbn [fold_left]. intros [= <- <- <-]. split; [simpl; lia|reflexivity].
  - cbn [fold_left].
    destruct (save_image_step dir w html n key data) as [(e & _ & ->)|[_ ->]].
    + rewrite save_images_raised. discriminate.
    + intros Hf. apply IH in Hf as [-> ->]. split; [simpl; lia|reflexivity].
Qed.

(** When the loop gets through, every asset has its file. *)
Lemma save_images_written (dir : str) (images : list (str * bytes)) (w w' : world)
    (html html' : str) (n n' : nat) (key : str) (data : bytes) :
  fold_left (save_image dir) images (w, Returned (html, n)) = (w', Returned (html', n')) ->
  In (key, data) images ->
  is_Some (files w' !! path_join dir (determine_image_filename key data)).
Proof.
  revert w html n. induction images as [|[k d] images IH]; intros w html n Hf Hin;
    [destruct Hin|].
  cbn [fold_left] in Hf.
  destruct (save_image_step dir w html n k d) as [(e & _ & Hs)|[_ Hs]];
    rewrite Hs in Hf.
  - rewrite save_images_raised in Hf. discriminate.
  - destruct Hin as [[= -> ->]|Hin]; [|exact (IH _ _ _ Hf Hin)].
    pose proof (save_images_keep dir images
                  (set_file (path_join dir (determine_image_filename key data)) data w,
                   Returned (rewrite_references html (key, data), S n))
                  (path_join dir (determine_image_filename key data))) as Hk.
    rewrite Hf in Hk. apply Hk. cbn [fst set_file files].
    rewrite lookup_insert_eq. eauto.
Qed.

Lemma write_file_refused (path : str) (data : bytes) (w : world) :
  call_error open_error w path <> None ->
  exists e, write_file path data w = (w, Some e).
Proof.
  intros Hr. unfold write_file.
  destruct (call_error open_error w path) as [e|]; [|congruence]. exists e. reflexivity.
Qed.

(** The paths that cannot be opened for writing whatever the system says
    to the rest: those with a NUL, and the directories. *)
Lemma call_error_sure (w : world) (path : str) :
  contains [0] path = true \/ path ∈ dirs w -> call_error open_error w path <> None.
Proof.
  unfold call_error. intros [Hz|Hd].
  - rewrite Hz. discriminate.
  - destruct (contains [0] path); [discriminate|]. apply open_directory, Hd.
Qed.

(** An asset whose path cannot be opened, with the directories as they
    are when the loop starts, stops the loop, if nothing has stopped it
    before. *)
Lemma save_images_refused (dir : str) (images : list (str * bytes))
    (st : world * outcome (str * nat)) (key : str) (data : bytes) :
  In (key, data) images ->
  contains [0] (path_join dir (determine_image_filename key data)) = true \/
  path_join dir (determine_image_filename key data) ∈ dirs (fst st) ->
  exists e, snd (fold_left (save_image dir) images st) = Raised e.
Proof.
  intros Hin Hp. revert st Hp. induction images as [|[k d] images IH]; intros st Hp;
    [destruct Hin|].
  cbn [fold_left]. destruct Hin as [[= -> ->]|Hin].
  - destruct st as [w [[html n]|e]].
    + destruct (write_file_refused (path_join dir (determine_image_filename key data))
                  data w (call_error_sure _ _ Hp)) as (e & Hw).
      destruct (save_image_step dir w html n key data) as [(e' & _ & ->)|[Hw' _]].
      * rewrite save_images_raised. eauto.
      * rewrite Hw in Hw'. discriminate.
    + cbn [save_image]. rewrite save_images_raised. eauto.
  - apply (IH Hin).
    destruct (save_image_effect dir st k d) as (_ & Hd & _). cbn zeta in Hd.
    rewrite Hd. exact Hp.
Qed.

(** What [save_images_and_update_html] can change, however it ends. *)
Lemma save_images_effect (html : str) (images : list (str * bytes)) (output_dir : str)
    (w w' : world) (r : outcome (str * nat)) :
  save_images_and_update_html html images output_dir w = (w', r) ->
  metadata w' = metadata w /\
  (forall p, is_Some (files w !! p) -> is_Some (files w' !! p)) /\
  (forall path,
     (forall key data, In (key, data) images -> path <> image_path output_dir key data) ->
     files w' !! path = files w !! path).
Proof.
  unfold save_images_and_update_html, image_path.
  destruct (mkdir (path_join output_dir (py "images")) w) as [w1 [e|]] eqn:Hm;
    destruct (mkdir_effect _ _ _ _ Hm) as (Hmeta & Hfiles & _).
  - intros [= <- <-]. split; [exact Hmeta|]. rewrite Hfiles. split; [auto|reflexivity].
  - intros Hf.
    pose proof (save_images_metadata (path_join output_dir (py "images")) images
                  (w1, Returned (html, 0%nat))) as H1.
    pose proof (save_images_keep (path_join output_dir (py "images")) images
                  (w1, Returned (html, 0%nat))) as H2.
    pose proof (save_images_frame (path_join output_dir (py "images")) images
                  (w1, Returned (html, 0%nat))) as H3.
    rewrite Hf in H1, H2, H3. cbn [fst] in H1, H2, H3.
    rewrite Hmeta in H1. rewrite Hfiles in H2, H3.
    split; [exact H1|]. split; [exact H2|exact H3].
Qed.

(** What it has done when it returns. *)
Lemma save_images_done (html : str) (images : list (str * bytes)) (output_dir : str)
    (w w' : world) (html' : str) (n : nat) :
  save_images_and_update_html html images output_dir w = (w', Returned (html', n)) ->
  n = length images /\
  html' = fold_left rewrite_references images html /\
  dirs w' = {[path_join output_dir (py "images")]} ∪ dirs w /\
  (forall key data, In (key, data) images ->
     is_Some (files w' !! image_path output_dir key data)).
Proof.
  unfold save_images_and_update_html, image_path.
  destruct (mkdir (path_join output_dir (py "images")) w) as [w1 [e|]] eqn:Hm;
    [discriminate|].
  destruct (mkdir_effect _ _ _ _ Hm) as (_ & _ & Hdirs).
  intros Hf. destruct (save_images_returned _ _ _ _ _ _ _ _ Hf) as [-> ->].
  split; [reflexivity|]. split; [reflexivity|]. split.
  - pose proof (save_images_dirs (path_join output_dir (py "images")) images
                  (w1, Returned (html, 0%nat))) as Hd.
    rewrite Hf in Hd. cbn [fst] in Hd. rewrite Hd. apply Hdirs. reflexivity.
  - intros key data Hin. exact (save_images_written _ _ _ _ _ _ _ _ _ _ Hf Hin).
Qed.

(** A loop that gets through has got through every part of the list. *)
Lemma save_images_prefix (dir : str) (l1 l2 : list (str * bytes))
    (st : world * outcome (str * nat)) (w' : world) (r : str * nat) :
  fold_left (save_image dir) (l1 ++ l2) st = (w', Returned r) ->
  exists w1 r1, fold_left (save_image dir) l1 st = (w1, Returned r1) /\
                fold_left (save_image dir) l2 (w1, Returned r1) = (w', Returned r).
Proof.
  rewrite fold_left_app. destruct (fold_left (save_image dir) l1 st) as [w1 [r1|e]].
  - intros Hf. exists w1, r1. split; [reflexivity|exact Hf].
  - rewrite save_images_raised. discriminate.
Qed.

(** The file of an asset holds its bytes when no later asset is written
    to the same path. *)
Lemma save_images_overwrite (html : str) (before after : list (str * bytes))
    (key : str) (data : bytes) (output_dir : str) (w w' : world) (html' : str) (n : nat) :
  save_images_and_update_html html (before ++ (key, data) :: after) output_dir w
  = (w', Returned (html', n)) ->
  (forall k d, In (k, d) after ->
               image_path output_dir k d <> image_path output_dir key data) ->
  files w' !! image_path output_dir key data = Some data.
Proof.
  unfold save_images_and_update_html, image_path.
  set (dir := path_join output_dir (py "images")).
  destruct (mkdir dir w) as [w0 [e|]]; [discriminate|].
  intros Hf Hlater. apply save_images_prefix in Hf as (w1 & [h1 n1] & _ & Hf).
  cbn [fold_left] in Hf.
  destruct (save_image_step dir w1 h1 n1 key data) as [(e & _ & Hs)|[_ Hs]];
    rewrite Hs in Hf.
  - rewrite save_images_raised in Hf. discriminate.
  - pose proof (save_images_frame dir after
                  (set_file (path_join dir (determine_image_filename key data)) data w1,
                   Returned (rewrite_references h1 (key, data), S n1))
                  (path_join dir (determine_image_filename key data))) as Hfr.
    rewrite Hf in Hfr. cbn [fst] in Hfr. rewrite Hfr.
    + cbn [set_file files]. apply lookup_insert_eq.
    + intros k d Hin E. apply (Hlater k d Hin). symmetry. exact E.
Qed.

End Saving.


Section Converting.
Context `{System}.



(** What a conversion can change, however it ends. *)
Lemma conversion_effect (doc_path output_dir : str) (w w' : world) (r : bool * str * nat) :
  extract_html_and_images doc_path output_dir w = (w', r) ->
  metadata w' = metadata w /\
  (forall p, is_Some (files w !! p) -> is_Some (files w' !! p)).
Proof.
  unfold extract_html_and_images.
  destruct (read_text doc_path w) as [text|]; [|intros [= <- _]; auto].
  destruct (_split_mime_parts text) as [parts|]; [|intros [= <- _]; auto].
  destruct (scan_parts parts) as [[html|] images]; [|intros [= <- _]; auto].
  destruct (bool_decide (html = []) || negb (contains (py "<html") (lower html)));
    [intros [= <- _]; auto|].
  destruct (save_images_and_update_html html images output_dir w) as [w1 o] eqn:Hs.
  destruct (save_images_effect _ _ _ _ _ _ Hs) as (Hm & Hk & _).
  destruct o as [[h n]|e]; intros [= <- _]; auto.
Qed.

End Converting.

End PipelineFacts.

(** ** Further facts about texts and patterns *)

Module TextFacts.
Import Str Re Codec App Notions StrFacts ReFacts.

(** *** Whitespace runs *)

Lemma star_greedy_space (fl : flags) (s : str) (g : option str) :
  star_greedy fl Space s (fun s' => Some (s', g)) = Some (lstrip s, g).
Proof.
  induction s as [|c s IH]; [reflexivity|].
  cbn [star_greedy class_match lstrip].
  destruct (isspace c); [rewrite IH|]; reflexivity.
Qed.

Lemma match_ws_here (fl : flags) (c : N) (t : str) :
  match_here fl ws_re (c :: t) = if isspace c then Some (lstrip t, None) else None.
Proof.
  unfold match_here, ws_re, Plus. cbn [run class_match].
  destruct (isspace c); [apply star_greedy_space|reflexivity].
Qed.

Lemma lstrip_length (s : str) : (length (lstrip s) <= length s)%nat.
Proof.
  induction s as [|c s IH]; simpl; [lia|].
  destruct (isspace c); simpl; lia.
Qed.

(** The first whitespace run of a text is the first match of [\s+]. *)
Lemma search_ws (fl : flags) (pre : str) (c : N) (t : str) :
  Forall (fun x => isspace x = false) pre -> isspace c = true ->
  search fl ws_re (pre ++ c :: t) = Some (pre, lstrip t, None).
Proof.
  intros Hpre Hc. rewrite search_skip.
  - rewrite (search_here _ _ _ (lstrip t) None).
    + unfold shift. rewrite app_nil_r. reflexivity.
    + rewrite match_ws_here, Hc. reflexivity.
  - intros a b -> Hb. destruct b as [|x b]; [congruence|].
    apply Forall_app in Hpre as [_ Hpre]. apply Forall_cons in Hpre as [Hx _].
    simpl. rewrite match_ws_here, Hx. reflexivity.
Qed.

Lemma squeeze_from_lstrip (repl s : str) :
  squeeze_from true repl s = squeeze_from false repl (lstrip s).
Proof.
  induction s as [|c s IH]; [reflexivity|]. simpl.
  destruct (isspace c) eqn:E; [exact IH|]. simpl. rewrite E. reflexivity.
Qed.

Lemma squeeze_app_clean (repl pre s : str) :
  Forall (fun x => isspace x = false) pre ->
  squeeze repl (pre ++ s) = pre ++ squeeze repl s.
Proof.
  unfold squeeze. induction 1 as [|x pre Hx _ IH]; [reflexivity|].
  simpl. rewrite Hx, IH. reflexivity.
Qed.

Lemma span_clean (s : str) :
  (Forall (fun x => isspace x = false) s) \/
  exists pre c t, s = pre ++ c :: t /\ Forall (fun x => isspace x = false) pre /\
                  isspace c = true.
Proof.
  induction s as [|x s [IH | (pre & c & t & -> & Hpre & Hc)]].
  - left. constructor.
  - destruct (isspace x) eqn:E.
    + right. exists [], x, s. repeat split; [constructor|exact E].
    + left. constructor; assumption.
  - right. destruct (isspace x) eqn:E.
    + exists [], x, (pre ++ c :: t). repeat split; [constructor|exact E].
    + exists (x :: pre), c, t. repeat split; [constructor; assumption|exact Hc].
Qed.

(** [re.sub(r'\s+', repl, s)] replaces each run of whitespace by [repl]. *)
Lemma sub_ws_squeeze (repl s : str) : sub no_flags ws_re repl s = squeeze repl s.
Proof.
  remember (length s) as n eqn:Hn. revert s Hn.
  induction n as [n IH] using lt_wf_ind. intros s Hn.
  destruct (span_clean s) as [Hs | (pre & c & t & -> & Hpre & Hc)].
  - unfold ws_re. rewrite CodecFacts.sub_ws_id by exact Hs.
    rewrite <- (app_nil_r s) at 2. rewrite squeeze_app_clean by exact Hs.
    rewrite app_nil_r. reflexivity.
  - rewrite sub_eq, (search_ws _ _ _ _ Hpre Hc).
    pose proof (lstrip_length t) as Hl.
    assert (Hlt : (length pre + length (lstrip t) <? length (pre ++ c :: t))%nat = true).
    { apply Nat.ltb_lt. rewrite length_app. simpl. lia. }
    rewrite Hlt, squeeze_app_clean by exact Hpre. f_equal.
    unfold squeeze at 1. simpl. rewrite Hc. f_equal.
    rewrite squeeze_from_lstrip. apply (IH (length (lstrip t))); [|reflexivity].
    rewrite Hn, length_app. simpl. lia.
Qed.

Lemma squeeze_nil (s : str) : squeeze [] s = drop_whitespace s.
Proof.
  unfold squeeze, drop_whitespace.
  enough (H : forall b, squeeze_from b [] s = List.filter (fun c => negb (isspace c)) s)
    by apply H.
  induction s as [|c s IH]; intros b; [reflexivity|]. simpl.
  destruct (isspace c); simpl; [destruct b; apply IH|f_equal; apply IH].
Qed.

(** [re.sub(r'\s+', '', s)] removes the whitespace of [s]. *)
Lemma sub_ws_drop (s : str) : sub no_flags ws_re [] s = drop_whitespace s.
Proof. rewrite sub_ws_squeeze. apply squeeze_nil. Qed.

Lemma drop_whitespace_app (a b : str) :
  drop_whitespace (a ++ b) = drop_whitespace a ++ drop_whitespace b.
Proof. apply List.filter_app. Qed.

Lemma drop_whitespace_blank (s : str) : blank s -> drop_whitespace s = [].
Proof.
  induction 1 as [|c s Hc _ IH]; [reflexivity|].
  unfold drop_whitespace in *. simpl. rewrite Hc. exact IH.
Qed.

Lemma drop_whitespace_strip (s : str) : drop_whitespace (strip s) = drop_whitespace s.
Proof.
  destruct (strip_spec s) as (l & r & Hs & Hl & Hr & _).
  rewrite Hs at 2. rewrite !drop_whitespace_app.
  rewrite (drop_whitespace_blank _ Hl), (drop_whitespace_blank _ Hr), app_nil_r.
  reflexivity.
Qed.

End TextFacts.

(** ** Further facts about matching *)

Module MatchFacts.
Import Str Re Codec App Notions StrFacts ReFacts.

(** *** Literals under any flags *)

Lemma chr_eq_refl (fl : flags) (a : N) : chr_eq fl a a = true.
Proof.
  unfold chr_eq. destruct (IGNORECASE fl); [|apply N.eqb_refl].
  rewrite N.eqb_refl. reflexivity.
Qed.

Lemma lit_match_app_any (fl : flags) (p s : str) : lit_match fl p (p ++ s) = Some s.
Proof.
  induction p as [|a p IH]; [reflexivity|]. simpl. rewrite chr_eq_refl. exact IH.
Qed.

Lemma lit_match_drop (fl : flags) (p s s' : str) :
  lit_match fl p s = Some s' -> s' = drop (length p) s.
Proof.
  intros H. destruct (lit_match_suffix _ _ _ _ H) as (m & -> & <-).
  rewrite drop_app_length. reflexivity.
Qed.

(** *** The first match of a literal *)

Lemma find_lit_Some (fl : flags) (p s : str) (i : nat) :
  find_lit fl p s = Some i ->
  exists a b, s = a ++ b /\ length a = i /\ lit_match fl p b <> None /\
    forall a1 a2, a = a1 ++ a2 -> a2 <> [] -> lit_match fl p (a2 ++ b) = None.
Proof.
  revert i. induction s as [|c s IH]; intros i; cbn [find_lit].
  - destruct (lit_match fl p []) eqn:E; [|discriminate].
    intros [= <-]. exists [], []. repeat split; [congruence|].
    intros a1 a2 Ha Hne. symmetry in Ha. apply app_eq_nil in Ha as [_ ->]. congruence.
  - destruct (lit_match fl p (c :: s)) eqn:E.
    + intros [= <-]. exists [], (c :: s). repeat split; [congruence|].
      intros a1 a2 Ha Hne. symmetry in Ha. apply app_eq_nil in Ha as [_ ->]. congruence.
    + destruct (find_lit fl p s) as [j|] eqn:F; [|discriminate].
      intros [= <-]. destruct (IH j eq_refl) as (a & b & -> & Ha & Hb & Hmin).
      exists (c :: a), b. split; [reflexivity|]. split; [simpl; lia|].
      split; [exact Hb|]. intros a1 a2 Hsplit Hne.
      destruct a1 as [|x a1].
      * simpl in Hsplit. subst a2. exact E.
      * injection Hsplit as _ Hsplit. exact (Hmin a1 a2 Hsplit Hne).
Qed.

Lemma find_lit_None (fl : flags) (p s : str) :
  find_lit fl p s = None -> forall a b, s = a ++ b -> lit_match fl p b = None.
Proof.
  induction s as [|c s IH]; cbn [find_lit].
  - destruct (lit_match fl p []) eqn:E; [discriminate|].
    intros _ a b Hs. symmetry in Hs. apply app_eq_nil in Hs as [_ ->]. exact E.
  - destruct (lit_match fl p (c :: s)) eqn:E; [discriminate|].
    destruct (find_lit fl p s) eqn:F; [discriminate|].
    intros _ a b Hs. destruct a as [|x a].
    + simpl in Hs. subst b. exact E.
    + injection Hs as _ Hs. exact (IH eq_refl a b Hs).
Qed.

Lemma mentions_false (fl : flags) (p s : str) :
  mentions fl p s = false -> forall a b, s = a ++ b -> lit_match fl p b = None.
Proof.
  unfold mentions. destruct (find_lit fl p s) eqn:F; [discriminate|].
  intros _. exact (find_lit_None _ _ _ F).
Qed.

(** *** Patterns that require a literal *)

Lemma run_requires (fl : flags) (p : str) (r : regex) :
  requires p r = true ->
  forall (s : str) (g : option str) (k : cont) (res : str * option str),
    run fl r s g k = Some res ->
    exists a b, s = a ++ b /\ lit_match fl p b <> None.
Proof.
  induction r as [q|c|gr c|a IHa b IHb|a IHa b IHb|a IHa|]; cbn [requires];
    intros Hr s g k res H; try discriminate.
  - apply bool_decide_eq_true in Hr. subst q. cbn [run] in H.
    exists [], s. split; [reflexivity|].
    destruct (lit_match fl p s); [discriminate|discriminate].
  - cbn [run] in H. apply orb_true_iff in Hr as [Hr|Hr].
    + exact (IHa Hr _ _ _ _ H).
    + apply run_inv in H as (m & s' & g' & -> & H).
      destruct (IHb Hr _ _ _ _ H) as (a' & b' & -> & Hb).
      exists (m ++ a'), b'. split; [rewrite app_assoc; reflexivity|exact Hb].
  - cbn [run] in H. apply andb_true_iff in Hr as [Hra Hrb].
    destruct (run fl a s g k) eqn:E.
    + exact (IHa Hra _ _ _ _ E).
    + exact (IHb Hrb _ _ _ _ H).
  - cbn [run] in H. exact (IHa Hr _ _ _ _ H).
Qed.

(** A pattern that requires a literal finds nothing in a text that does
    not mention it. *)
Lemma sub_not_mentioned (fl : flags) (p : str) (r : regex) (repl s : str) :
  requires p r = true -> mentions fl p s = false -> sub fl r repl s = s.
Proof.
  intros Hr Hm. apply sub_no_match, search_none. intros a b ->.
  destruct (match_here fl r b) as [res|] eqn:E; [|reflexivity].
  exfalso. destruct (run_requires fl p r Hr _ _ _ _ E) as (a' & b' & -> & Hb).
  apply Hb. apply (mentions_false _ _ _ Hm (a ++ a') b').
  rewrite app_assoc. reflexivity.
Qed.

(** *** Passing over a prefix *)

Lemma sub_skip (fl : flags) (r : regex) (repl pre t : str) :
  (forall a b, pre = a ++ b -> b <> [] -> match_here fl r (b ++ t) = None) ->
  sub fl r repl (pre ++ t) = pre ++ sub fl r repl t.
Proof.
  intros Hskip. rewrite (sub_eq _ _ _ (pre ++ t)), (sub_eq _ _ _ t).
  rewrite (search_skip _ _ _ _ Hskip).
  destruct (search fl r t) as [[[p rest] g]|]; simpl; [|reflexivity].
  rewrite !length_app.
  replace (length pre + length p + length rest <? length pre + length t)%nat
    with (length p + length rest <? length t)%nat.
  2:{ destruct (Nat.ltb_spec (length p + length rest) (length t));
      symmetry; [apply Nat.ltb_lt|apply Nat.ltb_ge]; lia. }
  destruct (length p + length rest <? length t)%nat.
  - rewrite <- !app_assoc. reflexivity.
  - destruct rest; rewrite <- !app_assoc; reflexivity.
Qed.

(** A match at the start of the text that is not empty is replaced, and
    the substitution goes on after it. *)
Lemma sub_here (fl : flags) (r : regex) (repl s rest : str) (g : option str) :
  (length rest < length s)%nat -> match_here fl r s = Some (rest, g) ->
  sub fl r repl s = repl ++ sub fl r repl rest.
Proof.
  intros Hlen H. rewrite sub_eq, (search_here _ _ _ _ _ H).
  replace (length [] + length rest <? length s)%nat with true; [reflexivity|].
  symmetry. apply Nat.ltb_lt. simpl. exact Hlen.
Qed.

(** *** Replacing by nothing only deletes *)

Lemma sub_nil_sublist (fl : flags) (r : regex) (s : str) : sublist (sub fl r [] s) s.
Proof.
  remember (length s) as n eqn:Hn. revert s Hn.
  induction n as [n IH] using lt_wf_ind. intros s Hn.
  rewrite sub_eq. destruct (search fl r s) as [[[pre rest] g]|] eqn:F; [|reflexivity].
  destruct (search_inv _ _ _ _ _ _ F) as (m & Hs & _).
  assert (Hlen : length s = (length pre + length m + length rest)%nat).
  { rewrite Hs, !length_app. lia. }
  destruct (Nat.ltb_spec (length pre + length rest) (length s)).
  - rewrite Hs. cbn [app]. apply sublist_app; [reflexivity|].
    apply sublist_inserts_l. apply (IH (length rest)); [lia|reflexivity].
  - destruct m; [|simpl in Hlen; lia]. cbn [app] in Hs.
    destruct rest as [|x t].
    + rewrite Hs. reflexivity.
    + rewrite Hs. cbn [app]. apply sublist_app; [reflexivity|].
      apply sublist_skip. apply (IH (length t)); [simpl in Hlen; lia|reflexivity].
Qed.

(** *** Greedy repetition *)

Lemma star_greedy_run (fl : flags) (c : cclass) (a t : str) (k : str -> result)
    (res : str * option str) :
  Forall (fun x => class_match fl c x = true) a ->
  k t = Some res ->
  (forall x t', t = x :: t' -> class_match fl c x = false) ->
  star_greedy fl c (a ++ t) k = Some res.
Proof.
  intros Ha Hk Hstop. induction Ha as [|x a Hx _ IH].
  - simpl. destruct t as [|x t']; [exact Hk|].
    cbn [star_greedy]. rewrite (Hstop x t' eq_refl). exact Hk.
  - cbn [app star_greedy]. rewrite Hx, IH. reflexivity.
Qed.

(** *** The class [[^>]] *)

Lemma lower_char_below (x v : N) : v < 65 -> lower_char x = v <-> x = v.
Proof.
  intros Hv. unfold lower_char.
  destruct (N.leb_spec 65 x); destruct (N.leb_spec x 90); cbn [andb];
    try (destruct (N.eqb_spec x 0x130); [lia|]);
    try (destruct (N.eqb_spec x 0x212A); [lia|]); lia.
Qed.

Lemma upper_char_below (x v : N) : v < 65 -> upper_char x = v <-> x = v.
Proof.
  intros Hv. unfold upper_char.
  destruct (N.leb_spec 97 x); destruct (N.leb_spec x 122); cbn [andb]; lia.
Qed.

Lemma not_gt_class (fl : flags) (x : N) :
  class_match fl (OneOf true (chars ">")) x = negb (x =? 62).
Proof.
  cbn [class_match]. change (chars ">") with [(62, 62)].
  unfold in_ranges. cbn [existsb fst snd]. rewrite !orb_false_r.
  assert (E : forall y, (62 <=? y) && (y <=? 62) = (y =? 62)).
  { intros y. destruct (N.leb_spec 62 y); destruct (N.leb_spec y 62);
      destruct (N.eqb_spec y 62); cbn [andb]; lia || reflexivity. }
  rewrite !E. destruct (N.eqb_spec x 62) as [->|Hx]; [reflexivity|].
  destruct (IGNORECASE fl); [|reflexivity]. cbn [orb andb].
  destruct (N.eqb_spec (lower_char x) 62) as [El|_].
  { exfalso. apply Hx. apply (lower_char_below x 62); [lia|exact El]. }
  destruct (N.eqb_spec (upper_char x) 62) as [Eu|_].
  { exfalso. apply Hx. apply (upper_char_below x 62); [lia|exact Eu]. }
  reflexivity.
Qed.

(** A literal that starts with a character below the letters matches only
    where the text has that character. *)
Lemma lit_match_head (fl : flags) (v : N) (p s : str) :
  v < 65 -> lit_match fl (v :: p) s <> None -> exists t, s = v :: t.
Proof.
  intros Hv H. destruct s as [|x t]; [simpl in H; congruence|].
  exists t. f_equal. cbn [lit_match] in H. unfold chr_eq in H.
  destruct (IGNORECASE fl).
  - destruct (N.eqb_spec (lower_char x) (lower_char v)) as [E|_].
    + assert (Hlv : lower_char v = v) by (apply lower_char_below; [exact Hv|reflexivity]).
      rewrite Hlv in E. apply (lower_char_below x v); assumption.
    + assert (Hlv : lower_char v = v) by (apply lower_char_below; [exact Hv|reflexivity]).
      rewrite Hlv in H.
      destruct (N.eqb_spec v 105); [lia|]. destruct (N.eqb_spec v 115); [lia|].
      cbn [andb orb] in H. congruence.
  - destruct (N.eqb_spec x v); [assumption|congruence].
Qed.

(** *** Characters below the letters *)

Lemma chr_eq_below (fl : flags) (v x : N) : v < 65 -> chr_eq fl v x = (x =? v).
Proof.
  intros Hv. unfold chr_eq. destruct (IGNORECASE fl); [|reflexivity].
  assert (Hlv : lower_char v = v) by (apply lower_char_below; [exact Hv|reflexivity]).
  rewrite Hlv.
  destruct (N.eqb_spec v 105); [lia|]. destruct (N.eqb_spec v 115); [lia|].
  cbn [andb]. rewrite !orb_false_r.
  destruct (N.eqb_spec x v) as [->|Hx].
  - rewrite Hlv. apply N.eqb_refl.
  - destruct (N.eqb_spec (lower_char x) v) as [E|_]; [|reflexivity].
    exfalso. apply Hx. apply (lower_char_below x v); assumption.
Qed.

(** *** Literals that cannot begin in a stretch of text *)

Lemma lit_agree_match (fl : flags) (l b X : str) :
  lit_match fl l (b ++ X) <> None -> lit_agree fl l b = true.
Proof.
  revert b. induction l as [|a l IH]; intros b H; [destruct b; reflexivity|].
  destruct b as [|x b]; [reflexivity|]. cbn [app lit_match] in H. cbn [lit_agree].
  destruct (chr_eq fl a x); [|congruence]. apply IH, H.
Qed.

Lemma begins_lit_false (fl : flags) (l pre : str) :
  begins_lit fl l pre = false ->
  forall a b X, pre = a ++ b -> b <> [] -> lit_match fl l (b ++ X) = None.
Proof.
  induction pre as [|c pre IH]; intros H a b X Hs Hb.
  - symmetry in Hs. apply app_eq_nil in Hs as [_ ->]. congruence.
  - cbn [begins_lit] in H. apply orb_false_iff in H as [H1 H2].
    destruct a as [|y a].
    + simpl in Hs. subst b.
      destruct (lit_match fl l ((c :: pre) ++ X)) eqn:E; [|reflexivity].
      rewrite (lit_agree_match fl l (c :: pre) X) in H1; [discriminate|congruence].
    + injection Hs as _ Hs. exact (IH H2 a b X Hs Hb).
Qed.

Lemma match_here_lit_none (fl : flags) (l : str) (r : regex) (s : str) :
  lit_match fl l s = None -> match_here fl (Cat (Lit l) r) s = None.
Proof. intros H. unfold match_here. cbn [run]. rewrite H. reflexivity. Qed.

Lemma sub_clear_lit (fl : flags) (l pre t repl : str) (r : regex) :
  begins_lit fl l pre = false ->
  sub fl (Cat (Lit l) r) repl (pre ++ t) = pre ++ sub fl (Cat (Lit l) r) repl t.
Proof.
  intros H. apply sub_skip. intros a b Hs Hb. apply match_here_lit_none.
  exact (begins_lit_false _ _ _ H a b t Hs Hb).
Qed.

Lemma find_lit_at (fl : flags) (p a b : str) :
  find_lit fl p (a ++ b) = Some (length a) ->
  forall a1 a2, a = a1 ++ a2 -> a2 <> [] -> lit_match fl p (a2 ++ b) = None.
Proof.
  intros H. destruct (find_lit_Some _ _ _ _ H) as (a' & b' & Hs & Hl & _ & Hmin).
  apply app_inj_1 in Hs as [<- <-]; [exact Hmin|symmetry; exact Hl].
Qed.

Lemma any_dotall (fl : flags) (a : str) :
  DOTALL fl = true -> Forall (fun x => class_match fl Any x = true) a.
Proof.
  intros H. apply List.Forall_forall. intros x _. cbn [class_match]. rewrite H. reflexivity.
Qed.

Lemma not_gt_all (fl : flags) (a : str) :
  ~ In 62 a -> Forall (fun x => class_match fl (OneOf true (chars ">")) x = true) a.
Proof.
  intros H. apply List.Forall_forall. intros x Hx. rewrite not_gt_class.
  destruct (N.eqb_spec x 62) as [->|_]; [contradiction|reflexivity].
Qed.

End MatchFacts.

(** ** Further facts about the converter *)

Module PathFacts.
Import Str Re Codec App Notions StrFacts.

(** *** Splitting what was joined *)

Lemma join_last (sep : str) (l : list str) (x : str) :
  l <> [] -> join sep (l ++ [x]) = join sep l ++ sep ++ x.
Proof.
  induction l as [|a l IH]; intros Hne; [congruence|].
  destruct l as [|b l]; [reflexivity|].
  change ((a :: b :: l) ++ [x]) with (a :: (b :: l) ++ [x]).
  rewrite join_cons by (simpl; discriminate). rewrite IH by discriminate.
  rewrite (join_cons sep a (b :: l)) by discriminate. rewrite <- !app_assoc. reflexivity.
Qed.

Lemma split_loop_joined (c : N) (l : list str) (n : nat) :
  l <> [] -> Forall (fun x => ~ In c x) l -> (length (join [c] l) <= n)%nat ->
  split_loop n [c] (join [c] l) = l.
Proof.
  revert n. induction l as [|x l IH]; intros n Hne Hall Hlen; [congruence|].
  apply Forall_cons in Hall as [Hx Hall].
  destruct l as [|y l].
  - cbn [join] in *.
    assert (F : find [c] x = None).
    { apply (contains_single_false c) in Hx. unfold contains in Hx.
      destruct (find [c] x); [discriminate|reflexivity]. }
    destruct n; simpl; [|rewrite F]; reflexivity.
  - rewrite join_cons in * by discriminate.
    assert (F : find [c] (x ++ [c] ++ join [c] (y :: l)) = Some (length x)).
    { apply (find_after_clean c []); [intros []|].
      apply (contains_single_false c). exact Hx. }
    destruct n as [|n].
    { exfalso. rewrite !length_app in Hlen. cbn [length] in Hlen. lia. }
    cbn [split_loop]. rewrite F, take_app_length.
    replace (drop (length x + length [c]) (x ++ [c] ++ join [c] (y :: l)))
      with (join [c] (y :: l)).
    + f_equal. apply IH; [discriminate|exact Hall|].
      rewrite !length_app in Hlen. cbn [length] in Hlen. lia.
    + rewrite (app_assoc x [c]), <- (length_app x [c]), drop_app_length. reflexivity.
Qed.

(** *** Paths *)

(** A name of a parsed path: not empty, not [.], without ['/']. *)
Definition clean (x : str) : Prop := ~ In 47 x /\ x <> [] /\ x <> py ".".

Definition is_root (root : str) : Prop := root = [] \/ root = py "/" \/ root = py "//".

Lemma keep_clean (l : list str) :
  Forall clean l ->
  List.filter (fun x => negb (bool_decide (x = [])) && negb (bool_decide (x = py "."))) l = l.
Proof.
  induction 1 as [|x l (_ & H1 & H2) _ IH]; [reflexivity|].
  cbn [List.filter]. rewrite !bool_decide_eq_false_2 by assumption.
  cbn [negb andb]. rewrite IH. reflexivity.
Qed.

Lemma split_names (names : list str) :
  Forall clean names ->
  List.filter (fun x => negb (bool_decide (x = [])) && negb (bool_decide (x = py ".")))
    (default [] (split (py "/") (join (py "/") names)))
  = names.
Proof.
  intros Hc. destruct names as [|x l]; [reflexivity|].
  change (split (py "/") (join (py "/") (x :: l)))
    with (Some (split_loop (length (join [47] (x :: l))) [47] (join [47] (x :: l)))).
  cbn [default]. rewrite split_loop_joined.
  - apply keep_clean, Hc.
  - discriminate.
  - eapply Forall_impl; [exact Hc|]. intros y (Hy & _). exact Hy.
  - lia.
Qed.

Lemma lstrip_sep_names (names : list str) :
  Forall clean names -> lstrip_sep (join (py "/") names) = join (py "/") names.
Proof.
  intros Hc. destruct names as [|x l]; [reflexivity|].
  apply Forall_cons in Hc as [(Hs & Hne & _) _].
  destruct x as [|a x]; [congruence|].
  assert (Ha : a <> 47) by (intros ->; apply Hs; left; reflexivity).
  destruct l as [|y l]; cbn [join app lstrip_sep];
    destruct (N.eqb_spec a 47); congruence.
Qed.

Lemma names_start (names : list str) :
  Forall clean names -> startswith (py "/") (join (py "/") names) = false.
Proof.
  intros Hc. destruct names as [|x l]; [reflexivity|].
  apply Forall_cons in Hc as [(Hs & Hne & _) _].
  destruct x as [|a x]; [congruence|].
  assert (Ha : a <> 47) by (intros ->; apply Hs; left; reflexivity).
  destruct l as [|y l]; cbn [join app startswith py map list_ascii_of_string];
    change (N_of_ascii "/") with 47; destruct (N.eqb_spec 47 a); (congruence || reflexivity).
Qed.

Lemma splitroot_one (t : str) :
  lstrip_sep t = t -> splitroot (47 :: t) = (py "/", t).
Proof.
  intros Ht. unfold splitroot.
  change (startswith (py "/") (47 :: t)) with true. cbv iota.
  change (lstrip_sep (47 :: t)) with (lstrip_sep t). rewrite Ht.
  replace (length (47%N :: t) - length t)%nat with 1%nat by (simpl; lia).
  reflexivity.
Qed.

Lemma splitroot_two (t : str) :
  lstrip_sep t = t -> splitroot (47 :: 47 :: t) = (py "//", t).
Proof.
  intros Ht. unfold splitroot.
  change (startswith (py "/") (47 :: 47 :: t)) with true. cbv iota.
  change (lstrip_sep (47 :: 47 :: t)) with (lstrip_sep t). rewrite Ht.
  replace (length (47%N :: 47%N :: t) - length t)%nat with 2%nat by (simpl; lia).
  reflexivity.
Qed.

(** Parsing the string of a path gives the path back. *)
Lemma parse_format (root : str) (names : list str) :
  is_root root -> Forall clean names ->
  parse_path (format_path (root, names)) = (root, names).
Proof.
  intros Hr Hc. pose proof (split_names names Hc) as Hsplit.
  pose proof (lstrip_sep_names names Hc) as Hstrip.
  pose proof (names_start names Hc) as Hstart.
  destruct Hr as [-> | [-> | ->]].
  - destruct names as [|x l]; [reflexivity|].
    assert (Hj : join (py "/") (x :: l) <> []).
    { apply Forall_cons in Hc as [(_ & Hne & _) _].
      destruct l; cbn [join]; [exact Hne|].
      intros E. apply app_eq_nil in E as [E _]. congruence. }
    assert (Hf : format_path ([], x :: l) = join (py "/") (x :: l)).
    { unfold format_path. cbn [app].
      destruct (join (py "/") (x :: l)); [congruence|reflexivity]. }
    rewrite Hf. unfold parse_path, splitroot. rewrite Hstart, Hsplit. reflexivity.
  - change (format_path (py "/", names)) with (47 :: join (py "/") names).
    unfold parse_path. rewrite (splitroot_one _ Hstrip), Hsplit. reflexivity.
  - change (format_path (py "//", names)) with (47 :: 47 :: join (py "/") names).
    unfold parse_path. rewrite (splitroot_two _ Hstrip), Hsplit. reflexivity.
Qed.

(** What parsing gives is a root and clean names. *)
Lemma parse_path_clean (s root : str) (names : list str) :
  parse_path s = (root, names) -> is_root root /\ Forall clean names.
Proof.
  unfold parse_path. destruct (splitroot s) as [r rel] eqn:Hs. intros [= <- <-].
  split.
  - unfold splitroot in Hs. destruct (startswith (py "/") s).
    + destruct (_ =? 2)%nat; injection Hs as <- _; unfold is_root; auto.
    + injection Hs as <- _. left. reflexivity.
  - apply List.Forall_forall. intros x Hin. apply filter_In in Hin as [Hin Hk].
    apply andb_true_iff in Hk as [H1 H2].
    apply negb_true_iff, bool_decide_eq_false in H1.
    apply negb_true_iff, bool_decide_eq_false in H2.
    split; [|split; assumption].
    change (split (py "/") rel) with (Some (split_loop (length rel) (py "/") rel)) in Hin.
    cbn [default] in Hin.
    pose proof (split_loop_free (length rel) (py "/") rel ltac:(discriminate) (le_n _)) as Hfree.
    rewrite List.Forall_forall in Hfree. apply (contains_single_false 47), Hfree, Hin.
Qed.

Lemma parse_name (name : str) : clean name -> parse_path name = ([], [name]).
Proof.
  intros Hc.
  assert (Hf : format_path ([], [name]) = name).
  { destruct Hc as (_ & Hne & _). destruct name; [congruence|reflexivity]. }
  rewrite <- Hf at 1.
  apply (parse_format [] [name]); [left; reflexivity|]. constructor; [exact Hc|constructor].
Qed.

(** A clean name is appended to the names of the directory. *)
Lemma path_join_name (dir name root : str) (names : list str) :
  parse_path dir = (root, names) -> clean name ->
  path_join dir name = format_path (root, names ++ [name]) /\
  parse_path (path_join dir name) = (root, names ++ [name]).
Proof.
  intros Hd Hc. destruct (parse_path_clean _ _ _ Hd) as [Hr Hn].
  assert (E : path_join dir name = format_path (root, names ++ [name])).
  { unfold path_join. rewrite Hd, (parse_name _ Hc). reflexivity. }
  split; [exact E|]. rewrite E. apply parse_format; [exact Hr|].
  apply Forall_app. split; [exact Hn|]. constructor; [exact Hc|constructor].
Qed.

(** Below a directory that has a name, a clean name is one more step. *)
Lemma path_join_below (dir sub name : str) :
  clean sub -> clean name ->
  path_join (path_join dir sub) name = path_join dir sub ++ py "/" ++ name.
Proof.
  intros Hs Hc. destruct (parse_path dir) as [root names] eqn:Hd.
  destruct (path_join_name dir sub root names Hd Hs) as [E1 P1].
  destruct (path_join_name _ name _ _ P1 Hc) as [E2 _].
  rewrite E2, E1. unfold format_path.
  rewrite (join_last _ (names ++ [sub])) by (destruct names; discriminate).
  assert (Hne : root ++ join (py "/") (names ++ [sub]) <> []).
  { destruct (parse_path_clean _ _ _ Hd) as [_ Hn].
    intros E. apply app_eq_nil in E as [_ E].
    destruct names as [|x l].
    - cbn [app join] in E. destruct Hs as (_ & Hs & _). congruence.
    - apply Forall_cons in Hn as [(_ & Hx & _) _].
      change ((x :: l) ++ [sub]) with (x :: (l ++ [sub])) in E.
      rewrite join_cons in E by (destruct l; discriminate).
      apply app_eq_nil in E as [E _]. congruence. }
  rewrite app_assoc.
  destruct (root ++ join (py "/") (names ++ [sub])) as [|a t] eqn:Et; [congruence|].
  reflexivity.
Qed.

(** An empty name and [.] add nothing. *)
Lemma path_join_nothing (dir sub name : str) :
  clean sub -> name = [] \/ name = py "." ->
  path_join (path_join dir sub) name = path_join dir sub.
Proof.
  intros Hs Hn. destruct (parse_path dir) as [root names] eqn:Hd.
  destruct (path_join_name dir sub root names Hd Hs) as [E1 P1].
  unfold path_join at 1. rewrite P1.
  assert (Hp : parse_path name = ([], [])) by (destruct Hn as [-> | ->]; reflexivity).
  rewrite Hp. rewrite bool_decide_eq_true_2 by reflexivity.
  rewrite app_nil_r. symmetry. exact E1.
Qed.

End PathFacts.

(** ** Parts, pages and uploads *)

Module PartFacts.
Import Str Re Codec App Notions StrFacts ReFacts AppFacts CodecFacts PipelineFacts TextFacts MatchFacts.
Import PathFacts.

(** *** File names *)

Lemma last_piece (d : N) (p acc : str) :
  ~ In d p ->
  fold_left (fun acc c => if c =? d then [] else acc ++ [c]) p acc = acc ++ p.
Proof.
  revert acc. induction p as [|c p IH]; intros acc H; simpl.
  - rewrite app_nil_r. reflexivity.
  - destruct (N.eqb_spec c d) as [->|_]; [exfalso; apply H; left; reflexivity|].
    rewrite IH by (intros Hin; apply H; right; exact Hin).
    rewrite <- app_assoc. reflexivity.
Qed.

Lemma rsplit_dot_last_app (stem ext : str) :
  ~ In 46 ext -> rsplit_dot_last (stem ++ py "." ++ ext) = ext.
Proof.
  intros H. unfold rsplit_dot_last. rewrite fold_left_app.
  change (py "." ++ ext) with (46 :: ext). cbn [fold_left].
  rewrite N.eqb_refl. apply (last_piece 46 ext []). exact H.
Qed.

Lemma ascii_lower_cases (c l : N) :
  97 <= l -> l <= 122 -> ascii_lower c = l <-> c = l \/ c = l - 32.
Proof.
  intros H1 H2. unfold ascii_lower.
  destruct (N.leb_spec 65 c); destruct (N.leb_spec c 90); cbn [andb]; lia.
Qed.

Lemma lower_doc_spellings (ext : str) : lower ext = py "doc" <-> In ext doc_spellings.
Proof.
  split.
  - intros H. destruct ext as [|a [|b [|c [|? ?]]]]; try discriminate.
    injection H as Ha Hb Hc.
    apply (ascii_lower_cases a 100) in Ha; [|lia..].
    apply (ascii_lower_cases b 111) in Hb; [|lia..].
    apply (ascii_lower_cases c 99) in Hc; [|lia..].
    destruct Ha as [-> | ->], Hb as [-> | ->], Hc as [-> | ->]; cbv; tauto.
  - intros H. repeat (destruct H as [<-|H]; [reflexivity|]). destruct H.
Qed.

Lemma doc_spellings_no_dot (ext : str) : In ext doc_spellings -> ~ In 46 ext.
Proof.
  intros H. repeat (destruct H as [<-|H]; [cbv; intuition discriminate|]). destruct H.
Qed.

Lemma allowed_file_spec (filename : str) :
  allowed_file filename = true <->
  exists stem ext, filename = stem ++ py "." ++ ext /\ lower ext = py "doc".
Proof.
  unfold allowed_file. rewrite andb_true_iff, bool_decide_eq_true. split.
  - intros [Hdot Hext]. apply (contains_single 46) in Hdot.
    destruct (last_occurrence _ _ Hdot) as (a & b & -> & Hb).
    exists a, b. split; [reflexivity|].
    change (a ++ [46] ++ b) with (a ++ py "." ++ b) in Hext.
    rewrite (rsplit_dot_last_app a b Hb) in Hext. exact Hext.
  - intros (stem & ext & -> & Hext).
    split; [apply contains_true; exists stem, ext; reflexivity|].
    rewrite rsplit_dot_last_app; [exact Hext|].
    apply doc_spellings_no_dot, lower_doc_spellings, Hext.
Qed.

(** *** The body of a part *)

Lemma lstrip_blank_app (ws s : str) : blank ws -> lstrip (ws ++ s) = lstrip s.
Proof.
  induction 1 as [|c ws Hc _ IH]; [reflexivity|]. simpl. rewrite Hc. exact IH.
Qed.

Lemma strip_blank_app (ws s : str) : blank ws -> strip (ws ++ s) = strip s.
Proof. intros H. unfold strip. rewrite lstrip_blank_app by exact H. reflexivity. Qed.

(** The text after the first blank line of [headers ++ blank_line ++ body],
    when [headers] holds no blank line, is [body], after a newline when
    [headers] ends with one. *)
Lemma body_after_blank_line (headers body : str) :
  contains blank_line headers = false ->
  exists i ws,
    find blank_line (headers ++ blank_line ++ body) = Some i /\
    drop (i + 2) (headers ++ blank_line ++ body) = ws ++ body /\
    blank ws.
Proof.
  intros Hfree.
  destruct (find_occurs blank_line headers body) as (i & Hf & Hi).
  destruct (find_Some _ _ _ Hf) as (a & b & Hs & Ha & _ & Hd & _).
  exists i. change (length blank_line) with 2%nat in Hd. rewrite Hd.
  assert (Hh : headers = a ++ drop i headers).
  { rewrite <- (take_drop i headers) at 1. f_equal.
    apply (f_equal (take i)) in Hs.
    rewrite take_app_le in Hs by exact Hi.
    rewrite <- Ha, take_app_length in Hs. rewrite <- Ha. exact Hs. }
  rewrite Hh, <- app_assoc in Hs. apply app_inv_head in Hs.
  destruct (drop i headers) as [|x [|y h3]] eqn:E.
  - exists []. split; [exact Hf|]. simpl in Hs. injection Hs as <-.
    split; [reflexivity|constructor].
  - exists [nl]. split; [exact Hf|]. simpl in Hs. injection Hs as -> <-.
    split; [reflexivity|repeat constructor].
  - exfalso. simpl in Hs. injection Hs as -> -> _.
    rewrite contains_false in Hfree. apply (Hfree a h3). exact Hh.
Qed.

(** *** decode_html_content *)

Lemma decode_base64_utf16 (encoded_html : str) (decoded_bytes : bytes) (text : str) :
  b64decode (drop_whitespace encoded_html) = Some decoded_bytes ->
  utf16_decode Ignore decoded_bytes = Some text ->
  decode_html_content encoded_html (py "base64") = text.
Proof.
  intros Hb Hu. unfold decode_html_content.
  rewrite bool_decide_eq_true_2 by reflexivity.
  rewrite sub_ws_drop, Hb, Hu. reflexivity.
Qed.

Lemma decode_base64_invalid (encoded_html : str) :
  b64decode (drop_whitespace encoded_html) = None ->
  decode_html_content encoded_html (py "base64") = encoded_html.
Proof.
  intros Hb. unfold decode_html_content.
  rewrite bool_decide_eq_true_2 by reflexivity.
  rewrite sub_ws_drop, Hb. reflexivity.
Qed.

(** *** The loop over the parts *)

Lemma scan_parts_html_kept (parts : list str) (html : str) (images : list (str * bytes)) :
  fst (fold_left scan_part parts (Some html, images)) = Some html.
Proof.
  revert images. induction parts as [|part parts IH]; intros images; [reflexivity|].
  cbn [fold_left]. unfold scan_part at 2. rewrite andb_false_r.
  destruct (extract_image_from_part part) as [[k d]|]; apply IH.
Qed.

Lemma scan_parts_no_html (parts : list str) (images : list (str * bytes)) :
  Forall (fun part => contains html_header part = false \/
                      _extract_html_from_part part = None) parts ->
  fst (fold_left scan_part parts (None, images)) = None.
Proof.
  intros H. revert images. induction H as [|part parts Hp _ IH]; intros images;
    [reflexivity|].
  cbn [fold_left]. unfold scan_part at 2. fold html_header.
  destruct (contains html_header part) eqn:Hct; cbn [andb].
  - destruct Hp as [Hp | ->]; [discriminate|]. apply IH.
  - destruct (extract_image_from_part part) as [[k d]|]; apply IH.
Qed.

(** *** save_images_and_update_html *)

Lemma replace_absent (old new s : str) :
  old <> [] -> contains old s = false -> replace old new s = s.
Proof.
  intros Hne H. unfold replace. destruct old as [|c old]; [congruence|].
  unfold contains in H. destruct (length s) as [|n]; [reflexivity|].
  simpl. destruct (find (c :: old) s); [discriminate|reflexivity].
Qed.

Lemma contains_prefix_false (p q s : str) :
  contains p s = false -> contains (p ++ q) s = false.
Proof.
  rewrite !contains_false. intros H a b E. apply (H a (q ++ b)).
  rewrite E, <- app_assoc. reflexivity.
Qed.

Lemma rewrite_no_reference (images : list (str * bytes)) (html : str) :
  contains src_open html = false ->
  fold_left rewrite_references images html = html.
Proof.
  intros Hfree. induction images as [|[key data] images IH]; [reflexivity|].
  cbn [fold_left rewrite_references].
  assert (Hrep : forall x y, replace (src_attr x) y html = html).
  { intros x y. apply replace_absent; [discriminate|].
    unfold src_attr. change (py "src=" ++ [dq] ++ x ++ [dq]) with (src_open ++ x ++ [dq]).
    apply contains_prefix_false, Hfree. }
  rewrite !Hrep. destruct (contains (py "/") key); exact IH.
Qed.

(** *** Reading the document *)

Lemma utf8_decode_from_ignore (b : bytes) (skip : nat) :
  exists x, utf8_decode_from Ignore b skip = Some x.
Proof.
  revert skip. induction b as [|c b IH]; intros skip; [exists []; reflexivity|].
  cbn [utf8_decode_from]. destruct skip as [|n]; [|apply IH].
  destruct (utf8_seq (c :: b)) as [[cp len]|].
  - destruct (IH (len - 1)%nat) as (x & ->). exists (cp :: x). reflexivity.
  - apply IH.
Qed.

Lemma universal_newlines_no_cr (s : str) : ~ In cr (universal_newlines s).
Proof.
  remember (length s) as n eqn:Hn. revert s Hn.
  induction n as [n IH] using lt_wf_ind. intros s Hn.
  destruct s as [|c t]; [intros []|]. cbn [universal_newlines].
  destruct (N.eqb_spec c 13) as [->|Hc].
  - destruct t as [|d t'].
    + intros [E|[]]. discriminate.
    + destruct (d =? 10).
      * intros [E|Hin]; [discriminate|].
        apply (IH (length t')) in Hin; [exact Hin|simpl in Hn; lia|reflexivity].
      * intros [E|Hin]; [discriminate|].
        apply (IH (length (d :: t'))) in Hin; [exact Hin|simpl in Hn |- *; lia|reflexivity].
  - intros [E|Hin]; [apply Hc; exact E|].
    apply (IH (length t)) in Hin; [exact Hin|simpl in Hn; lia|reflexivity].
Qed.

(** *** The upload view, case by case *)

Lemma upload_file_cases `{Libs} `{System} (file : option upload) (w w' : world)
    (r : response) :
  upload_file file w = (w', r) ->
  (w' = w /\ exists msg, r = ErrorJson 400 msg) \/
  exists f,
    file = Some f /\ upload_filename f <> [] /\
    allowed_file (upload_filename f) = true /\
    ((exists e,
        write_file (path_join UPLOAD_FOLDER (secure_filename (upload_filename f)))
          (upload_content f) w = (w', Some e) /\
        r = Unhandled) \/
     exists w1 w2 success result n,
       write_file (path_join UPLOAD_FOLDER (secure_filename (upload_filename f)))
         (upload_content f) w = (w1, None) /\
       extract_html_and_images
         (path_join UPLOAD_FOLDER (secure_filename (upload_filename f))) UPLOAD_HTML_FOLDER w1
       = (w2, (success, result, n)) /\
       ((w' = w2 /\ exists status msg, r = FailureJson status msg) \/
        (exists nav nav_parts,
           success = true /\
           extract_navigation_from_html result = Some nav /\ nav <> [] /\
           parse_navigation_path nav = Some nav_parts /\
           ((write_text (path_join UPLOAD_HTML_FOLDER (generate_html_filename nav_parts))
               (remove_navigation_from_html result) w2 = (w', false) /\
             r = Unhandled) \/
            (exists w3,
               write_text (path_join UPLOAD_HTML_FOLDER (generate_html_filename nav_parts))
                 (remove_navigation_from_html result) w2 = (w3, true) /\
               w' = unlink (path_join UPLOAD_FOLDER (secure_filename (upload_filename f)))
                      (fst (add_document_metadata (generate_html_filename nav_parts)
                              nav_parts nav w3)) /\
               r = SuccessJson (secure_filename (upload_filename f))
                     (generate_html_filename nav_parts)
                     (py "upload-html/" ++ generate_html_filename nav_parts)
                     n nav_parts nav))))).
Proof.
  unfold upload_file. destruct file as [f|]; [|intros [= <- <-]; left; eauto].
  destruct (bool_decide (upload_filename f = [])) eqn:Hname;
    [intros [= <- <-]; left; eauto|].
  apply bool_decide_eq_false in Hname.
  destruct (allowed_file (upload_filename f)) eqn:Hallowed;
    [|intros [= <- <-]; left; eauto].
  cbv zeta. intros Hup. right. exists f.
  split; [reflexivity|]. split; [exact Hname|]. split; [exact Hallowed|].
  destruct (write_file _ (upload_content f) w) as [w1 [e|]] eqn:Hstage.
  { left. exists e. injection Hup as <- <-. split; reflexivity. }
  right.
  destruct (extract_html_and_images _ _ w1) as [w2 [[success result] n]] eqn:Hconv.
  exists w1, w2, success, result, n.
  split; [reflexivity|]. split; [exact Hconv|].
  destruct success; [|injection Hup as <- <-; left; eauto].
  destruct (extract_navigation_from_html result) as [nav|] eqn:Hnav;
    [|injection Hup as <- <-; left; eauto].
  destruct nav as [|c nav]; [injection Hup as <- <-; left; eauto|].
  assert (Hparse : parse_navigation_path (c :: nav)
                   = Some (map strip (split_loop (length (c :: nav)) (py ">") (c :: nav))))
    by reflexivity.
  rewrite Hparse in Hup.
  right. exists (c :: nav), (map strip (split_loop (length (c :: nav)) (py ">") (c :: nav))).
  split; [reflexivity|]. split; [reflexivity|]. split; [discriminate|].
  split; [exact Hparse|].
  destruct (write_text _ (remove_navigation_from_html result) w2) as [w3 [|]] eqn:Hpage.
  - right. exists w3. injection Hup as <- <-. repeat split.
  - left. injection Hup as <- <-. repeat split.
Qed.

(** What the writing of the page can change. *)
Lemma write_text_effect `{System} (path : str) (text : str) (w w' : world) (ok : bool) :
  write_text path text w = (w', ok) ->
  metadata w' = metadata w /\ dirs w' = dirs w /\
  (forall p, p <> path -> files w' !! p = files w !! p) /\
  (forall p, is_Some (files w !! p) -> is_Some (files w' !! p)) /\
  (ok = true -> exists data, utf8_encode text = Some data /\ w' = set_file path data w).
Proof.
  unfold write_text.
  assert (Hset : forall d,
            metadata (set_file path d w) = metadata w /\
            dirs (set_file path d w) = dirs w /\
            (forall p, p <> path -> files (set_file path d w) !! p = files w !! p) /\
            (forall p, is_Some (files w !! p) -> is_Some (files (set_file path d w) !! p))).
  { intros d. split; [reflexivity|]. split; [reflexivity|]. cbn [set_file files]. split.
    - intros p Hp. apply lookup_insert_ne. intros E. apply Hp. symmetry. exact E.
    - intros p Hp. destruct (decide (path = p)) as [->|Hne].
      + rewrite lookup_insert_eq. eauto.
      + rewrite lookup_insert_ne by exact Hne. exact Hp. }
  destruct (call_error open_error w path) as [e|].
  { intros [= <- <-]. repeat split; try reflexivity; try discriminate. intros p Hp. exact Hp. }
  destruct (utf8_encode text) as [data|].
  - destruct (write_error w path data) as [[e rest]|]; intros [= <- <-].
    + destruct (Hset rest) as (H1 & H2 & H3 & H4). repeat split; try assumption. discriminate.
    + destruct (Hset data) as (H1 & H2 & H3 & H4). repeat split; try assumption.
      intros _. exists data. split; reflexivity.
  - intros [= <- <-]. destruct (Hset []) as (H1 & H2 & H3 & H4).
    repeat split; try assumption. discriminate.
Qed.

(** What the recording of a page and the removal of the upload can
    change. *)
Lemma add_document_metadata_effect `{System} (html_filename : str) (navigation : list str)
    (full_navigation : str) (w : world) :
  let w' := fst (add_document_metadata html_filename navigation full_navigation w) in
  files w' = files w /\ dirs w' = dirs w /\
  (metadata w'
   = <[html_filename :=
         {| meta_filename := html_filename;
            meta_navigation := navigation;
            meta_full_navigation := full_navigation;
            meta_path := py "upload-html/" ++ html_filename |}]> (metadata w) \/
   metadata w' = metadata w \/ metadata w' = ∅).
Proof.
  unfold add_document_metadata, save_metadata, load_metadata.
  destruct (save_metadata_result w _); cbn [fst files dirs metadata]; auto.
Qed.

Lemma unlink_effect `{System} (path : str) (w : world) :
  metadata (unlink path w) = metadata w /\ dirs (unlink path w) = dirs w /\
  (forall p, p <> path -> files (unlink path w) !! p = files w !! p).
Proof.
  unfold unlink. destruct (call_error unlink_error w path); cbn [metadata dirs files];
    repeat split; try reflexivity.
  intros p Hp. apply lookup_delete_ne. intros E. apply Hp. symmetry. exact E.
Qed.

(** *** Tags and the navigation line *)

Lemma tag_match (t post : str) :
  t <> [] -> ~ In 62 t ->
  match_here no_flags tag_re (py "<" ++ t ++ py ">" ++ post) = Some (post, None).
Proof.
  intros Hne Hgt. unfold match_here, tag_re, Plus. cbn [run].
  rewrite lit_match_app_any.
  destruct t as [|c t]; [congruence|]. cbn [app]. rewrite not_gt_class.
  destruct (N.eqb_spec c 62) as [->|_]; [exfalso; apply Hgt; left; reflexivity|].
  cbn [negb]. apply star_greedy_run.
  - apply not_gt_all. intros Hin. apply Hgt. right. exact Hin.
  - cbn [run]. rewrite lit_match_app_any. reflexivity.
  - intros x t' E. injection E as <- _. rewrite not_gt_class. reflexivity.
Qed.

Lemma tag_not_here (x : N) (s : str) : x <> 60 -> match_here no_flags tag_re (x :: s) = None.
Proof.
  intros Hx. unfold tag_re. apply match_here_lit_none. cbn [py list_ascii_of_string map lit_match].
  change (N_of_ascii "<") with 60. rewrite chr_eq_below by lia.
  destruct (N.eqb_spec x 60); [contradiction|reflexivity].
Qed.

(** Text without ['<'] is passed over by the tag pattern. *)
Lemma sub_tag_prefix (pre t : str) :
  ~ In 60 pre -> sub no_flags tag_re [] (pre ++ t) = pre ++ sub no_flags tag_re [] t.
Proof.
  intros Hpre. apply sub_skip. intros a b -> Hb.
  destruct b as [|x b]; [congruence|]. apply tag_not_here.
  intros ->. apply Hpre. apply in_or_app. right. left. reflexivity.
Qed.

(** A tag after such text is removed. *)
Lemma sub_tag (pre t post : str) :
  ~ In 60 pre -> t <> [] -> ~ In 62 t ->
  sub no_flags tag_re [] (pre ++ py "<" ++ t ++ py ">" ++ post)
  = pre ++ sub no_flags tag_re [] post.
Proof.
  intros Hpre Hne Hgt. rewrite (sub_tag_prefix _ _ Hpre). f_equal.
  rewrite (sub_here _ _ _ _ post None); [reflexivity| |apply tag_match; assumption].
  rewrite !length_app. simpl. lia.
Qed.

Lemma sub_tag_free (s : str) : ~ In 60 s -> sub no_flags tag_re [] s = s.
Proof.
  intros H. rewrite <- (app_nil_r s) at 1. rewrite (sub_tag_prefix _ _ H).
  rewrite app_nil_r. reflexivity.
Qed.

Lemma lit_three (fl : flags) (u : str) :
  startswith [nl; cr; nl] u = false -> lit_match fl [nl; cr; nl] u = None.
Proof.
  destruct u as [|y1 [|y2 [|y3 u]]]; cbn [lit_match startswith];
    rewrite ?chr_eq_below by (unfold nl, cr; lia);
    rewrite ?(N.eqb_sym nl), ?(N.eqb_sym cr);
    repeat match goal with
           | |- context [?a =? ?b] => destruct (a =? b); cbn [andb]
           end; try reflexivity; discriminate.
Qed.

(** Where the breadcrumb cannot end. *)
Lemma nav_stop_fails (fl : flags) (x : N) (u : str) (g : option str) (k : cont) :
  x <> nl -> startswith [nl; cr; nl] u = false ->
  run fl nav_stop (x :: u) g k = None.
Proof.
  intros Hx Hu. unfold nav_stop. cbn [run].
  assert (Hcons : forall a p, lit_match fl (a :: p) (x :: u)
                              = if chr_eq fl a x then lit_match fl p u else None)
    by reflexivity.
  rewrite !Hcons, !chr_eq_below by (unfold nl, cr; lia).
  destruct (N.eqb_spec x nl); [contradiction|].
  rewrite (lit_three fl u Hu).
  assert (He : at_end (x :: u) = false).
  { destruct u; cbn [at_end]; [|reflexivity].
    destruct (N.eqb_spec x 10); [contradiction|reflexivity]. }
  rewrite He. destruct (x =? cr); reflexivity.
Qed.

(** The breadcrumb that [navigation_re] finds at the start of a text: what
    follows [Navigation:] and its whitespace, up to a blank line or the end
    of the text, when it holds no newline. *)
Lemma navigation_search (lead body tail : str) :
  blank lead -> body <> [] -> lstrip body = body -> ~ In nl body ->
  tail = [] \/ (exists rest, tail = blank_line ++ rest) ->
  search_group ignorecase_dotall navigation_re (py "Navigation:" ++ lead ++ body ++ tail)
  = Some body.
Proof.
  intros Hlead Hne Hstrip Hnl Htail.
  destruct body as [|c body]; [congruence|].
  assert (Hc : isspace c = false).
  { destruct (lstrip_spec (c :: body)) as (_ & _ & _ & Hh). apply (Hh c body Hstrip). }
  enough (Hm : exists rest, match_here ignorecase_dotall navigation_re
                 (py "Navigation:" ++ lead ++ (c :: body) ++ tail)
               = Some (rest, Some (c :: body))).
  { destruct Hm as (rest & Hm). unfold search_group.
    rewrite (search_here _ _ _ _ _ Hm). reflexivity. }
  exists (match tail with [] => [] | _ => drop 2 tail end).
  unfold match_here, navigation_re, Plus. cbn [run].
  rewrite lit_match_app_any. apply star_greedy_run.
  - exact Hlead.
  - cbn [app run class_match]. cbn [DOTALL ignorecase_dotall orb].
    rewrite star_lazy_skip.
    + apply star_lazy_here.
      change (c :: body ++ tail) with ((c :: body) ++ tail). rewrite take_app_minus.
      destruct Htail as [-> | (rest & ->)]; reflexivity.
    + intros a1 a2 Ha Ha2. destruct a2 as [|x a2]; [congruence|].
      cbn [app].
      apply (nav_stop_fails ignorecase_dotall x (a2 ++ tail)
               (Some (take (length (c :: body ++ tail) - length (x :: a2 ++ tail))
                        (c :: body ++ tail)))
               (fun s' g' => Some (s', g'))).
      * intros ->. apply Hnl. right. rewrite Ha. apply in_or_app. right. left. reflexivity.
      * destruct a2 as [|y a2].
        -- cbn [app]. destruct Htail as [-> | (rest & ->)]; reflexivity.
        -- cbn [app startswith]. destruct (N.eqb_spec nl y) as [E|_]; [|reflexivity].
           exfalso. apply Hnl. right. rewrite Ha. apply in_or_app. right. right. left.
           symmetry. exact E.
    + apply any_dotall. reflexivity.
  - intros x t' E. injection E as <- _. exact Hc.
Qed.

Lemma strip_subset (s : str) (x : N) : In x (strip s) -> In x s.
Proof.
  destruct (strip_spec s) as (l & r & Hs & _). intros H. rewrite Hs.
  apply in_or_app. right. apply in_or_app. left. exact H.
Qed.

(** What [extract_navigation_from_html] returns when the text without its
    tags starts with the navigation line. *)
Lemma extract_navigation_plain `{Libs} (html lead body tail : str) :
  sub no_flags tag_re [] html = py "Navigation:" ++ lead ++ body ++ tail ->
  blank lead -> body <> [] -> lstrip body = body -> ~ In nl body -> ~ In 38 body ->
  tail = [] \/ (exists rest, tail = blank_line ++ rest) ->
  extract_navigation_from_html html = Some (squeeze (py " ") (strip body)).
Proof.
  intros Hplain Hlead Hne Hstrip Hnl Hamp Htail. unfold extract_navigation_from_html.
  rewrite Hplain, (navigation_search _ _ _ Hlead Hne Hstrip Hnl Htail).
  unfold html_unescape.
  replace (contains (py "&") (strip body)) with false.
  - rewrite sub_ws_squeeze. reflexivity.
  - symmetry. apply (contains_single_false 38). intros Hin. apply Hamp.
    apply strip_subset, Hin.
Qed.

(** The result of collapsing whitespace runs to a space is single-spaced. *)
Lemma squeeze_single_spaced (s : str) (b : bool) :
  single_spaced_from b (squeeze_from b [32] s) = true.
Proof.
  revert b. induction s as [|c s IH]; intros b; [reflexivity|].
  cbn [squeeze_from]. destruct (isspace c) eqn:E.
  - destruct b; cbn [app].
    + apply IH.
    + cbn [single_spaced_from]. rewrite N.eqb_refl. cbn [negb andb]. apply IH.
  - cbn [single_spaced_from]. destruct (N.eqb_spec c 32) as [->|_]; [discriminate|].
    rewrite E. cbn [negb andb]. apply IH.
Qed.

(** *** The navigation block *)

Lemma navigation_block_match (tag attrs mid body post : str) :
  ~ In 62 attrs ->
  find_lit ignorecase_dotall (py "Navigation:")
    (mid ++ py "Navigation:" ++ body ++ (py "</" ++ tag ++ py ">") ++ post)
  = Some (length mid) ->
  find_lit ignorecase_dotall (py "</" ++ tag ++ py ">")
    (body ++ (py "</" ++ tag ++ py ">") ++ post)
  = Some (length body) ->
  match_here ignorecase_dotall (navigation_block_re tag)
    ((py "<" ++ tag) ++ attrs ++ py ">" ++ mid ++ py "Navigation:" ++ body
     ++ (py "</" ++ tag ++ py ">") ++ post)
  = Some (post, None).
Proof.
  intros Hattrs Hnav Hclose.
  unfold match_here, navigation_block_re. cbn [run].
  rewrite lit_match_app_any. apply star_greedy_run.
  - apply not_gt_all, Hattrs.
  - cbn [run]. rewrite lit_match_app_any. rewrite star_lazy_skip.
    + apply star_lazy_here. cbn [run]. rewrite lit_match_app_any.
      rewrite star_lazy_skip.
      * apply star_lazy_here. cbn [run]. rewrite lit_match_app_any. reflexivity.
      * intros a1 a2 Ha Ha2. cbn [run].
        rewrite (find_lit_at _ _ _ _ Hclose a1 a2 Ha Ha2). reflexivity.
      * apply any_dotall. reflexivity.
    + intros a1 a2 Ha Ha2. cbn [run].
      rewrite (find_lit_at _ _ _ _ Hnav a1 a2 Ha Ha2). reflexivity.
    + apply any_dotall. reflexivity.
  - intros x t' E. injection E as <- _. rewrite not_gt_class. reflexivity.
Qed.

(** *** How far the owner pattern reaches *)

Lemma owner_reach_match (mid w body post : str) :
  In w owner_words ->
  existsb (fun w' => begins_in w' mid) owner_words = false ->
  contains close_p body = false ->
  exists g,
    match_here dotall page_owner_re (py "<p>" ++ mid ++ w ++ body ++ close_p ++ post)
    = Some (post, g).
Proof.
  intros Hw Hmid Hbody. rewrite page_owner_re_eq.
  unfold match_here, paragraph_re. cbn [run].
  rewrite lit_match_app by reflexivity.
  destruct (owner_tail_match w (body ++ close_p ++ post) (length body) None Hw
              (find_close_p _ _ Hbody)) as (g & Hg).
  rewrite drop_close_p in Hg. exists g.
  rewrite star_lazy_skip; [apply star_lazy_here; exact Hg| |apply any_dotall; reflexivity].
  intros a1 a2 Ha Ha2.
  destruct (run dotall owner_tail (a2 ++ w ++ body ++ close_p ++ post) None
              (fun s' g' => Some (s', g'))) as [[rest g']|] eqn:E; [|reflexivity].
  exfalso. destruct (owner_tail_inv _ _ _ _ E) as (w' & u' & i & Hw' & Heq & _).
  assert (Hb : begins_in w' mid = false).
  { destruct (begins_in w' mid) eqn:B; [|reflexivity].
    rewrite <- Hmid. symmetry. apply existsb_exists. exists w'. split; assumption. }
  pose proof (begins_in_false w' mid Hb a1 a2 (w ++ body ++ close_p ++ post) Ha Ha2) as Hs.
  rewrite Heq, startswith_app in Hs. discriminate.
Qed.

(** *** The asset path in a Content-Location header *)

Lemma hex_class_hex (c : N) : is_hex c = true -> class_match ignorecase hex_class c = true.
Proof.
  intros H. unfold hex_class.
  change (range "a" "f" ++ range "A" "F" ++ range "0" "9") with [(97, 102); (65, 70); (48, 57)].
  cbn [class_match].
  replace (in_ranges [(97, 102); (65, 70); (48, 57)] c) with true; [reflexivity|].
  symmetry. unfold in_ranges. cbn [existsb fst snd]. unfold is_hex in H.
  rewrite orb_false_r.
  destruct ((97 <=? c) && (c <=? 102)); [reflexivity|].
  destruct ((65 <=? c) && (c <=? 70)); [reflexivity|].
  destruct ((48 <=? c) && (c <=? 57)); [reflexivity|]. discriminate.
Qed.

Lemma lit_match_app_long (fl : flags) (p s X : str) :
  (length p <= length s)%nat ->
  lit_match fl p (s ++ X) = (fun r => r ++ X) <$> lit_match fl p s.
Proof.
  revert s. induction p as [|a p IH]; intros s Hl; [reflexivity|].
  destruct s as [|x s]; [simpl in Hl; lia|]. cbn [app lit_match].
  destruct (chr_eq fl a x); [|reflexivity]. apply IH. simpl in Hl. lia.
Qed.

Lemma ext_at_app (s X : str) : (5 <= length s)%nat -> ext_at (s ++ X) = ext_at s.
Proof.
  intros Hl. unfold ext_at, image_exts. cbn [existsb].
  rewrite !lit_match_app_long by (simpl; lia).
  repeat match goal with
         | |- context [lit_match ?f ?p s] => destruct (lit_match f p s)
         end; reflexivity.
Qed.

Lemma ext_at_false (s : str) (g : option str) (k : cont) :
  ext_at s = false ->
  run ignorecase
    (Cat (Lit (py "."))
       (Alt (Lit (py "png")) (Alt (Lit (py "jpg")) (Alt (Lit (py "jpeg")) (Lit (py "gif"))))))
    s g k = None.
Proof.
  unfold ext_at, image_exts. cbn [existsb]. intros H. cbn [run].
  destruct s as [|x s]; [reflexivity|].
  change (py "." ++ ?e) with (46 :: e) in H. cbn [lit_match] in H |- *.
  change (py ".") with [46]. cbn [lit_match].
  destruct (chr_eq ignorecase 46 x); [|reflexivity].
  destruct (lit_match ignorecase (py "png") s); [discriminate|].
  destruct (lit_match ignorecase (py "jpg") s); [discriminate|].
  destruct (lit_match ignorecase (py "jpeg") s); [discriminate|].
  destruct (lit_match ignorecase (py "gif") s); [discriminate|]. reflexivity.
Qed.

Lemma first_ext_at (a b : str) :
  first_ext (a ++ b) = Some (length a) ->
  forall a1 a2, a = a1 ++ a2 -> a2 <> [] -> ext_at (a2 ++ b) = false.
Proof.
  revert b. induction a as [|c a IH]; intros b H a1 a2 Ha Ha2.
  - symmetry in Ha. apply app_eq_nil in Ha as [_ ->]. congruence.
  - cbn [app first_ext] in H.
    destruct (ext_at (c :: a ++ b)) eqn:E; [discriminate|].
    destruct (first_ext (a ++ b)) as [j|] eqn:F; [|discriminate].
    injection H as ->. destruct a1 as [|y a1].
    + simpl in Ha. subst a2. exact E.
    + injection Ha as _ Ha. exact (IH b F a1 a2 Ha Ha2).
Qed.

Lemma ext_matches (ext rest : str) (g : option str) (k : cont) :
  In ext image_exts ->
  run ignorecase
    (Cat (Lit (py "."))
       (Alt (Lit (py "png")) (Alt (Lit (py "jpg")) (Alt (Lit (py "jpeg")) (Lit (py "gif"))))))
    (py "." ++ ext ++ rest) g k = k rest g \/
  k rest g = None.
Proof.
  intros Hin. destruct (k rest g) as [res|] eqn:Hk; [left|right; reflexivity].
  cbn [run]. rewrite lit_match_app_any.
  destruct Hin as [<-|[<-|[<-|[<-|[]]]]].
  - rewrite lit_match_app_any, Hk. reflexivity.
  - replace (lit_match ignorecase (py "png") (py "jpg" ++ rest)) with (@None str)
      by (vm_compute; reflexivity).
    rewrite lit_match_app_any, Hk. reflexivity.
  - replace (lit_match ignorecase (py "png") (py "jpeg" ++ rest)) with (@None str)
      by (vm_compute; reflexivity).
    replace (lit_match ignorecase (py "jpg") (py "jpeg" ++ rest)) with (@None str)
      by (vm_compute; reflexivity).
    rewrite lit_match_app_any, Hk. reflexivity.
  - replace (lit_match ignorecase (py "png") (py "gif" ++ rest)) with (@None str)
      by (vm_compute; reflexivity).
    replace (lit_match ignorecase (py "jpg") (py "gif" ++ rest)) with (@None str)
      by (vm_compute; reflexivity).
    replace (lit_match ignorecase (py "jpeg") (py "gif" ++ rest)) with (@None str)
      by (vm_compute; reflexivity).
    rewrite lit_match_app_any, Hk. reflexivity.
Qed.

Lemma location_path_match (hash name ext rest : str) :
  hash <> [] -> forallb is_hex hash = true ->
  ~ In nl name ->
  first_ext (name ++ py "." ++ ext) = Some (length name) ->
  In ext image_exts ->
  match_here ignorecase location_path_re
    (location_prefix ++ hash ++ py "/" ++ name ++ py "." ++ ext ++ rest)
  = Some (rest, Some (name ++ py "." ++ ext)).
Proof.
  intros Hne Hhex Hnl Hfirst Hext.
  unfold match_here, location_path_re, Plus. cbn [run].
  fold location_prefix. rewrite lit_match_app_any.
  destruct hash as [|h hash]; [congruence|].
  cbn [forallb] in Hhex. apply andb_true_iff in Hhex as [Hh Hhex].
  cbn [app]. rewrite (hex_class_hex h Hh). apply star_greedy_run.
  - apply List.Forall_forall. intros x Hx. apply hex_class_hex.
    rewrite forallb_forall in Hhex. apply Hhex, Hx.
  - cbn [run]. rewrite lit_match_app_any.
    rewrite star_lazy_skip.
    + apply star_lazy_here.
      destruct (ext_matches ext rest None
                  (fun s' _ => Some (s', Some (take (length (name ++ py "." ++ ext ++ rest)
                                                     - length s')
                                                 (name ++ py "." ++ ext ++ rest)))) Hext)
        as [Hm | Hk]; [|discriminate].
      etransitivity; [exact Hm|]. cbv beta. f_equal. f_equal. f_equal.
      rewrite (app_assoc name), (app_assoc (name ++ py ".")), <- (app_assoc name).
      apply take_app_minus.
    + intros a1 a2 Ha Ha2.
      apply (ext_at_false (a2 ++ py "." ++ ext ++ rest) None
               (fun s' _ => Some (s', Some (take (length (name ++ py "." ++ ext ++ rest)
                                                  - length s')
                                              (name ++ py "." ++ ext ++ rest))))).
      rewrite (app_assoc (py ".")), (app_assoc a2), ext_at_app.
      * exact (first_ext_at name (py "." ++ ext) Hfirst a1 a2 Ha Ha2).
      * rewrite !length_app.
        destruct a2; [congruence|].
        destruct Hext as [<-|[<-|[<-|[<-|[]]]]]; simpl; lia.
    + apply List.Forall_forall. intros x Hx. cbn [class_match].
      cbn [DOTALL ignorecase orb].
      destruct (N.eqb_spec x 10) as [->|_]; [contradiction|reflexivity].
  - intros x t' E. injection E as <- _. reflexivity.
Qed.

Lemma location_path_search (before hash name ext rest : str) :
  begins_lit ignorecase location_prefix before = false ->
  hash <> [] -> forallb is_hex hash = true ->
  ~ In nl name ->
  first_ext (name ++ py "." ++ ext) = Some (length name) ->
  In ext image_exts ->
  search_group ignorecase location_path_re
    (before ++ location_prefix ++ hash ++ py "/" ++ name ++ py "." ++ ext ++ rest)
  = Some (name ++ py "." ++ ext).
Proof.
  intros Hb Hne Hhex Hnl Hfirst Hext. unfold search_group.
  rewrite search_skip.
  - rewrite (search_here _ _ _ _ _
               (location_path_match hash name ext rest Hne Hhex Hnl Hfirst Hext)).
    reflexivity.
  - intros a b Ha Hb'. unfold location_path_re. apply match_here_lit_none.
    exact (begins_lit_false _ _ _ Hb a b _ Ha Hb').
Qed.

(** *** The base64 body of a part *)

Lemma base64_body_decoded (headers body key : str) (data : bytes) :
  Forall octet data ->
  contains blank_line headers = false ->
  drop_whitespace body = b64encode data ->
  extract_base64_image (headers ++ blank_line ++ body) key = Some (key, data).
Proof.
  intros Hdata Hfree Hbody.
  destruct (body_after_blank_line headers body Hfree) as (i & ws & Hf & Hd & Hws).
  unfold extract_base64_image. fold blank_line. rewrite Hf, Hd.
  rewrite sub_ws_drop, drop_whitespace_strip, drop_whitespace_app.
  rewrite (drop_whitespace_blank _ Hws), Hbody. cbn [app].
  rewrite (b64decode_b64encode _ Hdata). reflexivity.
Qed.

(** *** Image references *)

Lemma src_attr_eq (x : str) : src_attr x = src_open ++ x ++ [dq].
Proof. reflexivity. Qed.

Lemma src_open_first (a X : str) :
  contains src_open a = false ->
  find src_open (a ++ src_open ++ X) = Some (length a).
Proof.
  intros Ha. change src_open with (115 :: [114; 99; 61; 34]) in *.
  apply find_after_clean; [|exact Ha].
  intros [|[|[|[|[]]]]]; discriminate.
Qed.

(** Where [src_open] can occur after text that is free of it. *)
Lemma src_positions (a X x y : str) :
  contains src_open a = false ->
  a ++ src_open ++ X = x ++ src_open ++ y ->
  x = a \/ exists x', X = x' ++ src_open ++ y.
Proof.
  intros Ha E.
  destruct (find_Some _ _ _ (src_open_first a X Ha)) as (_ & _ & _ & _ & _ & _ & Hmin).
  pose proof (Hmin x y E) as Hle.
  apply app_eq_app in E as [l [[Hax Hy]|[Hxa HX]]].
  - assert (l = []) as ->.
    { apply (f_equal (@length N)) in Hax. rewrite length_app in Hax.
      destruct l; [reflexivity|simpl in Hax; lia]. }
    left. rewrite app_nil_r in Hax. symmetry. exact Hax.
  - destruct l as [|c1 [|c2 [|c3 [|c4 [|c5 l]]]]].
    + left. rewrite app_nil_r in Hxa. exact Hxa.
    + exfalso. cbv in HX. injection HX as E1 E2. discriminate.
    + exfalso. cbv in HX. injection HX as E1 E2 E3. discriminate.
    + exfalso. cbv in HX. injection HX as E1 E2 E3 E4. discriminate.
    + exfalso. cbv in HX. injection HX as E1 E2 E3 E4 E5. discriminate.
    + right. exists l. change src_open with [115; 114; 99; 61; 34] in HX.
      cbn [app] in HX. injection HX as _ _ _ _ _ HX. exact HX.
Qed.

Lemma find_ref (a k b : str) :
  contains src_open a = false ->
  find (src_attr k) (a ++ src_attr k ++ b) = Some (length a).
Proof.
  intros Ha. destruct (find_occurs (src_attr k) a b) as (i & Hf & Hle).
  rewrite Hf. f_equal.
  destruct (find_Some _ _ _ Hf) as (x & y & Hs & Hx & _).
  rewrite !src_attr_eq, <- !app_assoc in Hs.
  destruct (src_positions a _ x _ Ha Hs) as [-> | (x' & Hx')]; [symmetry; exact Hx|].
  destruct (find_Some _ _ _ (src_open_first a (k ++ [dq] ++ b) Ha))
    as (_ & _ & _ & _ & _ & _ & Hmin).
  specialize (Hmin x _ Hs). lia.
Qed.

Lemma replace_loop_absent (n : nat) (old new s : str) :
  find old s = None -> replace_loop n old new s = s.
Proof. intros H. destruct n; simpl; [|rewrite H]; reflexivity. Qed.

(** The one reference to [k] in a text otherwise free of references is
    replaced. *)
Lemma replace_ref (a k b new : str) :
  contains src_open a = false -> contains src_open b = false ->
  replace (src_attr k) new (a ++ src_attr k ++ b) = a ++ new ++ b.
Proof.
  intros Ha Hb. unfold replace.
  assert (Hlen : length (a ++ src_attr k ++ b)
                 = S (length a + length k + 5 + length b)).
  { rewrite src_attr_eq, !length_app. simpl. lia. }
  rewrite src_attr_eq at 1. cbn [app src_open py map list_ascii_of_string].
  rewrite Hlen. cbn [replace_loop].
  change (N_of_ascii "s" :: N_of_ascii "r" :: N_of_ascii "c" :: N_of_ascii "=" :: dq
          :: k ++ [dq]) with (src_attr k).
  rewrite (find_ref a k b Ha), take_app_length, drop_app_add.
  rewrite drop_app_length. f_equal. f_equal.
  apply replace_loop_absent.
  assert (Hc : contains (src_attr k) b = false).
  { rewrite src_attr_eq. apply contains_prefix_false, Hb. }
  unfold contains in Hc. destruct (find (src_attr k) b); [discriminate|reflexivity].
Qed.

Lemma images_prefix (Y x y : str) :
  py "images/" ++ Y = x ++ src_open ++ y -> exists x', Y = x' ++ src_open ++ y.
Proof.
  intros E. destruct x as [|c1 [|c2 [|c3 [|c4 [|c5 [|c6 [|c7 x]]]]]]];
    cbv in E; try (injection E; intros; discriminate).
  exists x. injection E as _ _ _ _ _ _ _ E. exact E.
Qed.

Lemma not_under_images (filename y Z : str) :
  ~ In 47 filename -> filename ++ [dq] ++ y <> py "images/" ++ Z.
Proof.
  intros Hf E.
  destruct filename as [|c1 [|c2 [|c3 [|c4 [|c5 [|c6 [|c7 f]]]]]]];
    cbv in E; try (injection E; intros; discriminate).
  injection E as _ _ _ _ _ _ E7 _. apply Hf. subst c7.
  right. right. right. right. right. right. left. reflexivity.
Qed.

(** After the rewriting, the text holds no bare reference to the file
    name. *)
Lemma no_bare_ref (a filename b : str) :
  contains src_open a = false ->
  contains src_open (filename ++ [dq] ++ b) = false ->
  ~ In 47 filename ->
  contains (src_attr filename) (a ++ src_attr (py "images/" ++ filename) ++ b) = false.
Proof.
  intros Ha Hb Hf. apply contains_false. intros x y E.
  rewrite !src_attr_eq, <- !app_assoc in E.
  destruct (src_positions a _ x _ Ha E) as [-> | (x' & Hx')].
  - apply app_inv_head in E. apply app_inv_head in E.
    symmetry in E. exact (not_under_images filename y _ Hf E).
  - apply images_prefix in Hx' as (x'' & Hx'').
    rewrite contains_false in Hb. exact (Hb x'' _ Hx'').
Qed.

Lemma basename_suffix (key : str) :
  contains (py "/") key = true ->
  exists dir, key = dir ++ py "/" ++ basename key /\ ~ In 47 (basename key).
Proof.
  intros H. apply (contains_single 47) in H.
  destruct (last_occurrence _ _ H) as (a & b & -> & Hb).
  assert (Hbase : basename (a ++ [47] ++ b) = b).
  { unfold basename. fold basename_step. rewrite fold_left_app. simpl.
    unfold basename_step at 2. simpl. rewrite basename_no_slash by exact Hb. reflexivity. }
  rewrite Hbase. exists a. split; [reflexivity|exact Hb].
Qed.

Lemma save_one_reference (a b key : str) (data : bytes) :
  contains src_open a = false ->
  contains src_open (key ++ [dq] ++ b) = false ->
  rewrite_references (a ++ src_attr key ++ b) (key, data)
  = a ++ src_attr (py "images/" ++ determine_image_filename key data) ++ b.
Proof.
  intros Ha Hkb. cbn [rewrite_references].
  assert (Hb : contains src_open b = false).
  { apply contains_app_false in Hkb as [_ Hkb].
    apply contains_app_false in Hkb as [_ Hkb]. exact Hkb. }
  rewrite (replace_ref a key b _ Ha Hb).
  destruct (contains (py "/") key) eqn:Hslash; [|reflexivity].
  destruct (basename_suffix key Hslash) as (d & Hkey & Hbase).
  assert (Hname : determine_image_filename key data = basename key).
  { unfold determine_image_filename. rewrite Hslash. reflexivity. }
  rewrite Hname. apply replace_absent; [discriminate|].
  apply no_bare_ref; [exact Ha| |exact Hbase].
  rewrite Hkey, <- !app_assoc in Hkb.
  apply contains_app_false in Hkb as [_ Hkb].
  apply contains_app_false in Hkb as [_ Hkb]. exact Hkb.
Qed.

Lemma save_bare_reference (a b key : str) (data : bytes) :
  contains (py "/") key = true -> ~ In dq key ->
  contains src_open a = false ->
  contains src_open (basename key ++ [dq] ++ b) = false ->
  rewrite_references (a ++ src_attr (basename key) ++ b) (key, data)
  = a ++ src_attr (py "images/" ++ basename key) ++ b.
Proof.
  intros Hslash Hdq Ha Hfb. cbn [rewrite_references].
  destruct (basename_suffix key Hslash) as (d & Hkey & Hbase).
  assert (Hname : determine_image_filename key data = basename key).
  { unfold determine_image_filename. rewrite Hslash. reflexivity. }
  rewrite Hslash, Hname.
  assert (Hb : contains src_open b = false).
  { apply contains_app_false in Hfb as [_ Hfb].
    apply contains_app_false in Hfb as [_ Hfb]. exact Hfb. }
  rewrite (replace_absent (src_attr key)); [apply replace_ref; assumption|discriminate|].
  apply contains_false. intros x y E.
  rewrite !src_attr_eq, <- !app_assoc in E.
  destruct (src_positions a _ x _ Ha E) as [-> | (x' & Hx')].
  - apply app_inv_head in E. apply app_inv_head in E.
    assert (Hlen : length key = (length d + 1 + length (basename key))%nat).
    { rewrite Hkey at 1. rewrite !length_app. simpl. lia. }
    apply app_eq_app in E as [l [[Hf _]|[Hk Hl]]].
    + apply (f_equal (@length N)) in Hf. rewrite length_app in Hf. lia.
    + destruct l as [|c l].
      * rewrite app_nil_r in Hk. apply (f_equal (@length N)) in Hk. lia.
      * cbn [app] in Hl. injection Hl as <- _. apply Hdq. rewrite Hk.
        apply in_or_app. right. left. reflexivity.
  - rewrite contains_false in Hfb. exact (Hfb x' _ Hx').
Qed.

(** *** quoted-printable *)

Lemma utf8_encode_ascii (s : str) : is_ascii s = true -> utf8_encode s = Some s.
Proof.
  induction s as [|c s IH]; [reflexivity|]. cbn [is_ascii forallb].
  intros H. apply andb_true_iff in H as [Hc Hs]. cbn [utf8_encode].
  assert (Hlt : (c <? 0x80) = true) by exact Hc.
  rewrite Hlt, (IH Hs). reflexivity.
Qed.

Lemma utf8_decode_ascii_app (a Y y : str) :
  is_ascii a = true -> utf8_decode Ignore Y = Some y ->
  utf8_decode Ignore (a ++ Y) = Some (a ++ y).
Proof.
  intros Ha HY. unfold utf8_decode in *. induction a as [|c a IH]; [exact HY|].
  cbn [is_ascii forallb] in Ha. apply andb_true_iff in Ha as [Hc Ha].
  cbn [app utf8_decode_from utf8_seq].
  assert (Hlt : (c <? 0x80) = true) by exact Hc.
  rewrite Hlt. cbn [Nat.sub]. rewrite (IH Ha). reflexivity.
Qed.

Lemma a2b_qp_plain (a X : bytes) :
  ~ In 61 a -> a2b_qp (a ++ X) QpText = a ++ a2b_qp X QpText.
Proof.
  induction a as [|c a IH]; intros H; [reflexivity|].
  cbn [app a2b_qp]. destruct (N.eqb_spec c 61) as [->|_].
  - exfalso. apply H. left. reflexivity.
  - rewrite IH by (intros Hin; apply H; right; exact Hin). reflexivity.
Qed.

Lemma a2b_qp_skip0 (s : bytes) : a2b_qp s (QpSkip 0) = a2b_qp s QpText.
Proof. destruct s; reflexivity. Qed.

Lemma is_hex_not (c v : N) : is_hex c = true -> v = 10 \/ v = 13 \/ v = 61 -> (c =? v) = false.
Proof.
  unfold is_hex. intros H Hv. destruct (N.eqb_spec c v) as [->|_]; [|reflexivity].
  destruct Hv as [-> | [-> | ->]]; discriminate.
Qed.

Lemma qp_decoded (s : str) (t : str) :
  is_ascii s = true ->
  utf8_decode Ignore (quopri_decodestring s) = Some t ->
  decode_html_content s (py "quoted-printable") = t.
Proof.
  intros Hs Ht. unfold decode_html_content.
  rewrite bool_decide_eq_false_2 by discriminate.
  rewrite bool_decide_eq_true_2 by reflexivity.
  rewrite (utf8_encode_ascii _ Hs), Ht. reflexivity.
Qed.

Lemma qp_total (s : str) :
  is_ascii s = true ->
  utf8_decode Ignore (quopri_decodestring s)
  = Some (decode_html_content s (py "quoted-printable")).
Proof.
  intros Hs. destruct (utf8_decode_from_ignore (quopri_decodestring s) 0) as (t & Ht).
  fold (utf8_decode Ignore (quopri_decodestring s)) in Ht.
  rewrite (qp_decoded s t Hs Ht). exact Ht.
Qed.

Lemma is_ascii_app (a b : str) : is_ascii (a ++ b) = is_ascii a && is_ascii b.
Proof. apply forallb_app. Qed.

Lemma qp_plain (a : str) :
  is_ascii a = true -> ~ In 61 a -> decode_html_content a (py "quoted-printable") = a.
Proof.
  intros Ha Heq. apply qp_decoded; [exact Ha|].
  unfold quopri_decodestring. rewrite <- (app_nil_r a) at 1.
  rewrite a2b_qp_plain by exact Heq. cbn [a2b_qp].
  rewrite <- (app_nil_r a) at 2. apply utf8_decode_ascii_app; [exact Ha|reflexivity].
Qed.

Lemma qp_soft_break (a b : str) :
  is_ascii a = true -> ~ In 61 a -> is_ascii b = true ->
  decode_html_content (a ++ py "=" ++ [nl] ++ b) (py "quoted-printable")
  = a ++ decode_html_content b (py "quoted-printable").
Proof.
  intros Ha Heq Hb. apply qp_decoded.
  - rewrite !is_ascii_app, Ha, Hb. reflexivity.
  - unfold quopri_decodestring. rewrite a2b_qp_plain by exact Heq.
    change (a2b_qp (py "=" ++ [nl] ++ b) QpText) with (a2b_qp b (QpSkip 0)).
    rewrite a2b_qp_skip0. apply utf8_decode_ascii_app; [exact Ha|].
    apply qp_total, Hb.
Qed.

Lemma qp_escape (a b : str) (h1 h2 : N) :
  is_ascii a = true -> ~ In 61 a -> is_ascii b = true ->
  is_hex h1 = true -> is_hex h2 = true ->
  16 * hex_value h1 + hex_value h2 < 128 ->
  decode_html_content (a ++ py "=" ++ [h1; h2] ++ b) (py "quoted-printable")
  = a ++ [16 * hex_value h1 + hex_value h2] ++ decode_html_content b (py "quoted-printable").
Proof.
  intros Ha Heq Hb H1 H2 Hv. apply qp_decoded.
  - rewrite !is_ascii_app, Ha, Hb. cbn [is_ascii forallb py map list_ascii_of_string].
    assert (Hh : forall h, is_hex h = true -> (h <? 128) = true).
    { intros h. unfold is_hex. intros Hh. apply N.ltb_lt.
      apply orb_true_iff in Hh as [Hh|Hh]; [apply orb_true_iff in Hh as [Hh|Hh]|];
        apply andb_true_iff in Hh as [_ Hh]; apply N.leb_le in Hh; lia. }
    rewrite (Hh _ H1), (Hh _ H2). reflexivity.
  - unfold quopri_decodestring. rewrite a2b_qp_plain by exact Heq.
    change (py "=" ++ [h1; h2] ++ b) with (61 :: h1 :: h2 :: b).
    cbn [a2b_qp]. rewrite N.eqb_refl.
    rewrite !(is_hex_not h1) by (exact H1 || auto). rewrite H1, H2. cbn [andb].
    rewrite a2b_qp_skip0.
    apply utf8_decode_ascii_app; [exact Ha|].
    change ((16 * hex_value h1 + hex_value h2) :: a2b_qp b QpText)
      with ([16 * hex_value h1 + hex_value h2] ++ a2b_qp b QpText).
    apply utf8_decode_ascii_app.
    + cbn [is_ascii forallb]. apply N.ltb_lt in Hv. rewrite Hv. reflexivity.
    + apply qp_total, Hb.
Qed.

(** *** The scan view *)

Lemma scan_entries_In (w : world) (items : list (str * doc_meta)) (acc : list upload_entry)
    (e : upload_entry) :
  In e (fold_left (scan_entry w) items acc) <->
  In e acc \/
  exists name m,
    In (name, m) items /\
    path_exists (path_join UPLOAD_HTML_FOLDER name) w = true /\
    e = {| entry_filename := name;
           entry_path := py "upload-html/" ++ name;
           entry_navigation := meta_navigation m |}.
Proof.
  revert acc. induction items as [|[name m] items IH]; intros acc.
  - simpl. split; [auto|]. intros [H|(? & ? & [] & _)]. exact H.
  - cbn [fold_left]. rewrite IH. unfold scan_entry at 1.
    destruct (path_exists (path_join UPLOAD_HTML_FOLDER name) w) eqn:B.
    + split.
      * intros [Hin|(n' & m' & Hin & Hex & ->)].
        -- apply in_app_or in Hin as [Hin|[<-|[]]]; [left; exact Hin|].
           right. exists name, m. split; [left; reflexivity|]. split; [exact B|reflexivity].
        -- right. exists n', m'. split; [right; exact Hin|]. split; [exact Hex|reflexivity].
      * intros [Hin|(n' & m' & [[= <- <-]|Hin] & Hex & ->)].
        -- left. apply in_or_app. left. exact Hin.
        -- left. apply in_or_app. right. left. reflexivity.
        -- right. exists n', m'. split; [exact Hin|]. split; [exact Hex|reflexivity].
    + split.
      * intros [Hin|(n' & m' & Hin & Hex & ->)]; [left; exact Hin|].
        right. exists n', m'. split; [right; exact Hin|]. split; [exact Hex|reflexivity].
      * intros [Hin|(n' & m' & [[= <- <-]|Hin] & Hex & ->)]; [left; exact Hin| |].
        -- rewrite B in Hex. discriminate.
        -- right. exists n', m'. split; [exact Hin|]. split; [exact Hex|reflexivity].
Qed.

Lemma scan_uploads_In (w : world) (e : upload_entry) :
  In e (scan_uploads w) <->
  exists name m,
    metadata w !! name = Some m /\
    path_exists (path_join UPLOAD_HTML_FOLDER name) w = true /\
    e = {| entry_filename := name;
           entry_path := py "upload-html/" ++ name;
           entry_navigation := meta_navigation m |}.
Proof.
  unfold scan_uploads, load_metadata. rewrite scan_entries_In. split.
  - intros [[]|(name & m & Hin & Hex & ->)].
    exists name, m. split; [|split; [exact Hex|reflexivity]].
    apply elem_of_map_to_list. apply list_elem_of_In. exact Hin.
  - intros (name & m & Hm & Hex & ->). right. exists name, m.
    split; [|split; [exact Hex|reflexivity]].
    apply list_elem_of_In. apply elem_of_map_to_list. exact Hm.
Qed.

(** *** The file name of an asset *)

Lemma star_greedy_inv_class (fl : flags) (c : cclass) (s : str) (k : str -> result)
    (r : str * option str) :
  star_greedy fl c s k = Some r ->
  exists a t, s = a ++ t /\ Forall (fun x => class_match fl c x = true) a /\ k t = Some r.
Proof.
  induction s as [|x s IH]; simpl.
  - intros H. exists [], []. repeat split; [constructor|exact H].
  - destruct (class_match fl c x) eqn:Hx.
    + destruct (star_greedy fl c s k) eqn:E.
      * intros [= <-]. destruct (IH eq_refl) as (a & t & -> & Ha & Hk).
        exists (x :: a), t. repeat split; [constructor; assumption|exact Hk].
      * intros H. exists [], (x :: s). repeat split; [constructor|exact H].
    + intros H. exists [], (x :: s). repeat split; [constructor|exact H].
Qed.

Lemma lit_match_last (fl : flags) (p : str) (a : N) (s s' : str) :
  lit_match fl (p ++ [a]) s = Some s' ->
  exists m c, s = m ++ c :: s' /\ chr_eq fl a c = true.
Proof.
  revert s. induction p as [|a0 p IH]; intros s H;
    destruct s as [|x s]; cbn [app lit_match] in H; try discriminate.
  - destruct (chr_eq fl a x) eqn:E; [|discriminate]. injection H as <-.
    exists [], x. split; [reflexivity|exact E].
  - destruct (chr_eq fl a0 x); [|discriminate].
    destruct (IH s H) as (m & c & -> & Hc). exists (x :: m), c.
    split; [reflexivity|exact Hc].
Qed.

Lemma ext_end_not_slash (fl : flags) (a c : N) :
  a = 103 \/ a = 102 -> chr_eq fl a c = true -> c <> 47 /\ c <> 46.
Proof.
  intros Ha H. split; intros ->; destruct fl as [[] d]; destruct Ha as [-> | ->];
    vm_compute in H; discriminate.
Qed.

(** The key that the path pattern captures ends with neither ['/'] nor
    ['.']. *)
Lemma path_key_end (part key : str) :
  search_group ignorecase location_path_re part = Some key ->
  exists s c, key = s ++ [c] /\ c <> 47 /\ c <> 46.
Proof.
  unfold search_group.
  destruct (search ignorecase location_path_re part) as [[[pre rest] g]|] eqn:F;
    [|discriminate].
  intros [= <-]. destruct (search_inv _ _ _ _ _ _ F) as (m & _ & Hm).
  unfold match_here, location_path_re, Plus in Hm. cbn [run] in Hm.
  destruct (lit_match ignorecase _ (m ++ rest)) as [s1|]; [|discriminate].
  destruct s1 as [|x s2]; [discriminate|].
  destruct (class_match ignorecase hex_class x); [|discriminate].
  apply star_greedy_inv in Hm as (a & t & _ & Hk).
  destruct (lit_match ignorecase (py "/") t) as [s3|]; [|discriminate].
  apply star_lazy_inv in Hk as (a' & t3 & -> & Hk).
  destruct (lit_match ignorecase (py ".") t3) as [s4|] eqn:Ldot; [|discriminate].
  destruct (lit_match_suffix _ _ _ _ Ldot) as (md & -> & _).
  assert (Hend : forall e a0 s5,
             lit_match ignorecase (e ++ [a0]) s4 = Some s5 -> a0 = 103 \/ a0 = 102 ->
             exists s c,
               default [] (Some (take (length (a' ++ md ++ s4) - length s5) (a' ++ md ++ s4)))
               = s ++ [c] /\ c <> 47 /\ c <> 46).
  { intros e a0 s5 L Ha0. destruct (lit_match_last _ _ _ _ _ L) as (m' & c & -> & Hc).
    exists (a' ++ md ++ m'), c. split; [|exact (ext_end_not_slash _ _ _ Ha0 Hc)].
    cbn [default].
    replace (a' ++ md ++ m' ++ c :: s5) with ((a' ++ md ++ m' ++ [c]) ++ s5)
      by (rewrite <- !app_assoc; reflexivity).
    rewrite take_app_minus, <- !app_assoc. reflexivity. }
  destruct (lit_match ignorecase (py "png") s4) as [s5|] eqn:E1.
  { injection Hk as _ <-. apply (Hend (py "pn") 103 s5 E1). left. reflexivity. }
  destruct (lit_match ignorecase (py "jpg") s4) as [s5|] eqn:E2.
  { injection Hk as _ <-. apply (Hend (py "jp") 103 s5 E2). left. reflexivity. }
  destruct (lit_match ignorecase (py "jpeg") s4) as [s5|] eqn:E3.
  { injection Hk as _ <-. apply (Hend (py "jpe") 103 s5 E3). left. reflexivity. }
  destruct (lit_match ignorecase (py "gif") s4) as [s5|] eqn:E4; [|discriminate].
  injection Hk as _ <-. apply (Hend (py "gi") 102 s5 E4). right. reflexivity.
Qed.

(** Nor does the key that the hash pattern captures. *)
Lemma hash_key_end (part key : str) :
  search_group no_flags location_hash_re part = Some key ->
  exists s c, key = s ++ [c] /\ c <> 47 /\ c <> 46.
Proof.
  unfold search_group.
  destruct (search no_flags location_hash_re part) as [[[pre rest] g]|] eqn:F;
    [|discriminate].
  intros [= <-]. destruct (search_inv _ _ _ _ _ _ F) as (m & _ & Hm).
  unfold match_here, location_hash_re, Plus in Hm. cbn [run] in Hm.
  destruct (lit_match no_flags _ (m ++ rest)) as [s1|]; [|discriminate].
  destruct s1 as [|x s2]; [discriminate|].
  destruct (class_match no_flags hex_class x) eqn:Hx; [|discriminate].
  apply star_greedy_inv_class in Hm as (a & t & -> & Ha & Hk).
  destruct (at_end t); [|discriminate].
  injection Hk as _ <-.
  replace (take (S (length (a ++ t)) - length t) (x :: a ++ t)) with (x :: a)
    by (symmetry; apply (take_app_minus (x :: a) t)).
  cbn [default].
  destruct (exists_last (l := x :: a) ltac:(discriminate)) as (s & c & E).
  exists s, c. split; [exact E|].
  assert (Hc : class_match no_flags hex_class c = true).
  { assert (Hall : Forall (fun y => class_match no_flags hex_class y = true) (x :: a))
      by (constructor; assumption).
    rewrite E in Hall. apply Forall_app in Hall as [_ Hall].
    apply Forall_cons in Hall as [Hc _]. exact Hc. }
  split; intros ->; vm_compute in Hc; discriminate.
Qed.

Lemma filename_no_slash (key : str) (data : bytes) :
  ~ In 47 (determine_image_filename key data).
Proof.
  unfold determine_image_filename.
  destruct (contains (py "/") key) eqn:Hs; cbn [orb].
  - destruct (basename_suffix key Hs) as (d & _ & Hb). exact Hb.
  - apply (contains_single_false 47) in Hs.
    destruct (contains (py "\") key).
    + unfold basename. fold basename_step. rewrite basename_no_slash by exact Hs. exact Hs.
    + intros Hin. apply in_app_or in Hin as [Hin|Hin]; [exact (Hs Hin)|].
      revert Hin. unfold sniff_ext.
      destruct (startswith _ data); [cbv; intuition discriminate|].
      destruct (startswith _ data); [cbv; intuition discriminate|].
      destruct (startswith _ data); cbv; intuition discriminate.
Qed.

Lemma filename_empty (key : str) (data : bytes) :
  determine_image_filename key data = [] -> exists s, key = s ++ [47].
Proof.
  unfold determine_image_filename.
  destruct (contains (py "/") key) eqn:Hs; cbn [orb].
  - intros Hb. destruct (basename_suffix key Hs) as (d & Hkey & _).
    rewrite Hb in Hkey. exists d. exact Hkey.
  - destruct (contains (py "\") key) eqn:Hb.
    + apply (contains_single_false 47) in Hs.
      unfold basename. fold basename_step. rewrite basename_no_slash by exact Hs.
      intros E. cbn [app] in E. subst key. discriminate.
    + intros E. apply app_eq_nil in E as [_ E]. discriminate.
Qed.

Lemma extracted_key (part k key : str) (data : bytes) :
  extract_base64_image part k = Some (key, data) -> key = k.
Proof.
  unfold extract_base64_image. destruct (find _ part); [|discriminate].
  destruct (b64decode _); [|discriminate]. intros [= <- _]. reflexivity.
Qed.

Lemma extracted_key_end (part key : str) (data : bytes) :
  extract_image_from_part part = Some (key, data) ->
  exists s c, key = s ++ [c] /\ c <> 47 /\ c <> 46.
Proof.
  unfold extract_image_from_part.
  destruct (negb (contains _ part)); [discriminate|].
  fold ignorecase.
  destruct (search_group ignorecase location_path_re part) as [k1|] eqn:S1.
  - intros H. apply extracted_key in H as ->. exact (path_key_end _ _ S1).
  - destruct (search_group no_flags location_hash_re part) as [k2|] eqn:S2; [|discriminate].
    intros H. apply extracted_key in H as ->. exact (hash_key_end _ _ S2).
Qed.

Lemma basename_last (s : str) (c : N) :
  c <> 47 -> basename (s ++ [c]) = basename s ++ [c].
Proof.
  intros Hc. unfold basename. rewrite fold_left_app. cbn [fold_left].
  destruct (N.eqb_spec c 47); [contradiction|reflexivity].
Qed.

Lemma filename_last (key : str) (data : bytes) (s : str) (c : N) :
  key = s ++ [c] -> c <> 47 -> c <> 46 ->
  exists s' c', determine_image_filename key data = s' ++ [c'] /\ c' <> 47 /\ c' <> 46.
Proof.
  intros -> H1 H2. unfold determine_image_filename.
  destruct (contains (py "/") (s ++ [c]) || contains (py "\") (s ++ [c])).
  - exists (basename s), c. split; [apply basename_last, H1|]. split; assumption.
  - unfold sniff_ext.
    destruct (startswith _ data);
      [exists ((s ++ [c]) ++ py ".pn"), 103; rewrite <- !app_assoc;
       repeat split; discriminate|].
    destruct (startswith _ data);
      [exists ((s ++ [c]) ++ py ".jp"), 103; rewrite <- !app_assoc;
       repeat split; discriminate|].
    destruct (startswith _ data);
      [exists ((s ++ [c]) ++ py ".gi"), 102|exists ((s ++ [c]) ++ py ".pn"), 103];
      rewrite <- !app_assoc; repeat split; discriminate.
Qed.

(** The file name of an extracted asset is a name that [Path] keeps as
    it is. *)
Lemma extracted_name_clean (part key : str) (data : bytes) :
  extract_image_from_part part = Some (key, data) ->
  clean (determine_image_filename key data).
Proof.
  intros Hex. destruct (extracted_key_end _ _ _ Hex) as (s & c & Hk & H1 & H2).
  destruct (filename_last key data s c Hk H1 H2) as (s' & c' & Hn & _ & H4).
  split; [apply filename_no_slash|]. rewrite Hn. split.
  - intros E. apply app_eq_nil in E as [_ E]. discriminate.
  - intros E. destruct s' as [|a [|b s']]; cbv in E; try discriminate.
    injection E as E. apply H4. exact E.
Qed.

Lemma join_In (sep : str) (l : list str) (x : str) (c : N) :
  In x l -> In c x -> In c (join sep l).
Proof.
  induction l as [|a l IH]; intros Hin Hc; [destruct Hin|].
  destruct l as [|b l].
  - destruct Hin as [->|[]]. exact Hc.
  - rewrite join_cons by discriminate. apply in_or_app.
    destruct Hin as [->|Hin]; [left; exact Hc|].
    right. apply in_or_app. right. apply IH; assumption.
Qed.

(** A NUL in the file name is a NUL in the path of the file. *)
Lemma null_in_path (dir name : str) :
  ~ In 47 name -> In 0 name -> contains [0] (path_join dir name) = true.
Proof.
  intros Hs Hz.
  assert (Hc : clean name).
  { split; [exact Hs|]. split; intros ->; [destruct Hz|].
    revert Hz. cbv. intuition discriminate. }
  destruct (parse_path dir) as [root names] eqn:Hd.
  destruct (path_join_name dir name root names Hd Hc) as [-> _].
  apply (contains_single 0). unfold format_path.
  assert (Hin : In 0 (root ++ join (py "/") (names ++ [name]))).
  { apply in_or_app. right. apply (join_In _ _ name); [|exact Hz].
    apply in_or_app. right. left. reflexivity. }
  destruct (root ++ join (py "/") (names ++ [name])); [destruct Hin|exact Hin].
Qed.

Lemma images_clean : clean (py "images").
Proof. split; [cbv; intuition discriminate|]. split; discriminate. Qed.

(** *** The literal paragraph tag *)

(** Without the literal [<p>] neither pattern has a place to start. *)
Lemma no_literal_paragraph (html_content : str) :
  contains (py "<p>") html_content = false ->
  remove_confluence_metadata html_content = html_content.
Proof.
  intros Hc.
  assert (Hsub : forall r, sub dotall (Cat (Lit (py "<p>")) r) [] html_content = html_content).
  { intros r. apply sub_no_match, search_none. intros a b ->.
    apply match_here_lit_none. rewrite lit_match_startswith by reflexivity.
    destruct (startswith (py "<p>") b) eqn:E; [|reflexivity].
    apply startswith_inv in E as [t ->]. rewrite contains_false in Hc.
    exfalso. exact (Hc a t eq_refl). }
  unfold remove_confluence_metadata, page_owner_re, page_contact_re. cbv zeta.
  rewrite !Hsub. reflexivity.
Qed.

(** *** basename *)

Lemma basename_spec (key : str) :
  (~ In 47 key -> basename key = key) /\
  (In 47 key -> exists dir base,
      key = dir ++ py "/" ++ base /\ ~ In 47 base /\ basename key = base).
Proof.
  unfold basename. fold basename_step. split.
  - intros H. rewrite basename_no_slash by exact H. reflexivity.
  - intros H. destruct (last_occurrence _ _ H) as (a & b & -> & Hb).
    exists a, b. split; [reflexivity|]. split; [exact Hb|].
    rewrite fold_left_app. simpl. unfold basename_step at 2. simpl.
    rewrite basename_no_slash by exact Hb. reflexivity.
Qed.

End PartFacts.

(** ** The claims *)

Module Claims.
Import Str Re Codec App Notions Samples StrFacts ReFacts AppFacts CodecFacts PipelineFacts.
Import TextFacts MatchFacts PartFacts.

(** *** C1: decode_html_content in base64 mode *)

(** C1 (as stated, refuted): the two UTF-8 bytes of [hi] form one
    well-formed UTF-16 unit, so the decoder returns the single character
    U+6968 for them. *)
Lemma C1_utf8_text_read_as_utf16 :
  utf8_encode (py "hi") = Some [104; 105] /\
  b64encode [104; 105] = py "aGk=" /\
  decode_html_content (py "aGk=") (py "base64") = [0x6968].
Proof. repeat split; vm_compute; reflexivity. Qed.

(** C1 (amended): for every text [x] that [x.encode('utf-16')] accepts,
    decoding the base64 encoding of those bytes in base64 mode returns
    [x]. *)
Theorem C1_utf16_text_round_trips (x : str) (encoded : bytes) :
  utf16_encode x = Some encoded ->
  decode_html_content (b64encode encoded) (py "base64") = x.
Proof.
  intros Henc. destruct (utf16_decode_encode Ignore x encoded Henc) as [Hoct Hdec].
  unfold decode_html_content.
  rewrite bool_decide_eq_true_2 by reflexivity.
  unfold ws_re. rewrite sub_ws_id.
  - rewrite (b64decode_b64encode _ Hoct), Hdec. reflexivity.
  - eapply Forall_impl; [exact (b64encode_chars _ Hoct)|].
    intros c [_ Hc]. exact Hc.
Qed.

(** A text with an accented letter and a character outside the basic
    plane. *)
Lemma C1_witness :
  utf16_encode [104; 233; 0x1F600]
    = Some [0xFF; 0xFE; 104; 0; 233; 0; 0x3D; 0xD8; 0x00; 0xDE] /\
  decode_html_content
    (b64encode [0xFF; 0xFE; 104; 0; 233; 0; 0x3D; 0xD8; 0x00; 0xDE]) (py "base64")
  = [104; 233; 0x1F600].
Proof.
  assert (H : utf16_encode [104; 233; 0x1F600]
              = Some [0xFF; 0xFE; 104; 0; 233; 0; 0x3D; 0xD8; 0x00; 0xDE])
    by (vm_compute; reflexivity).
  split; [exact H|]. exact (C1_utf16_text_round_trips _ _ H).
Defined.

(** The handler of [UnicodeDecodeError] in [decode_html_content] is never
    entered: with [errors='ignore'] the UTF-16 decoder accepts every byte
    string. *)
Lemma utf16_fallback_unreachable (b : bytes) : utf16_decode Ignore b <> None.
Proof. destruct (utf16_decode_ignore b) as (x & ->). discriminate. Qed.

(** *** C2: a part with a bare-hash Content-Location *)

(** C2 (the code at the failing input): the part is base64 and carries
    JPEG bytes, yet no asset is extracted from it: [$] in the hash pattern
    stands for the end of the whole part, not of the header line, so in
    every part the pattern matches only where the header is the last thing
    in it, with no body after. *)
Lemma C2_bare_hash_part_not_extracted :
  contains (py "Content-Transfer-Encoding: base64") scenario_C_part = true /\
  b64decode (py "/9j/4AAQ") = Some [0xff; 0xd8; 0xff; 0xe0; 0; 16] /\
  search_group no_flags location_hash_re scenario_C_part = None /\
  extract_image_from_part scenario_C_part = None /\
  search_group no_flags location_hash_re
    (py "Content-Location: file:///C:/ABCDEF1234567890") = Some (py "ABCDEF1234567890") /\
  determine_image_filename (py "ABCDEF1234567890") [0xff; 0xd8; 0xff; 0xe0; 0; 16]
    = py "ABCDEF1234567890.jpg" /\
  (forall part key : str,
     search_group no_flags location_hash_re part = Some key ->
     exists pre, part = pre ++ location_prefix ++ key \/
                 part = pre ++ location_prefix ++ key ++ [nl]).
Proof.
  repeat (split; [vm_compute; reflexivity|]).
  exact location_hash_only_at_end.
Qed.

(** *** C3: no navigation breadcrumb *)



(** *** C4: parse_navigation_path *)

(** C4 (as stated, refuted): a breadcrumb with two consecutive [>] yields an
    empty segment; nothing in [parse_navigation_path] filters it. *)
Lemma C4_empty_segment_kept :
  parse_navigation_path (py "A > > B") = Some [py "A"; []; py "B"].
Proof. vm_compute. reflexivity. Qed.

(** C4 (amended): for every breadcrumb, the segments are the [>]-separated
    pieces of the breadcrumb, each with its leading and trailing whitespace
    removed and nothing else changed (casing and inner spaces are kept); a
    segment is empty exactly when its piece is blank. *)
Theorem C4_parse_navigation_path_trims (breadcrumb : str) :
  exists pieces,
    split (py ">") breadcrumb = Some pieces /\
    join (py ">") pieces = breadcrumb /\
    Forall (fun p => contains (py ">") p = false) pieces /\
    parse_navigation_path breadcrumb = Some (map strip pieces) /\
    Forall (fun p => trimmed_of (strip p) p /\ (strip p = [] <-> blank p)) pieces.
Proof.
  exists (split_loop (length breadcrumb) (py ">") breadcrumb).
  split; [reflexivity|]. split; [apply split_loop_join|].
  split; [apply split_loop_free; [discriminate|lia]|].
  split; [reflexivity|].
  apply List.Forall_forall. intros p _.
  pose proof (strip_spec p) as H. split; [exact H|].
  apply trimmed_empty_iff, H.
Qed.

(** *** C5: remove_confluence_metadata *)

(** C5 (the code at the failing inputs): a paragraph whose opening tag
    has an attribute is kept, and so is one that spells the phrase in
    capitals: the patterns start with the literal [<p>] and accept either
    case only for the initials. A text in which the literal [<p>] does not
    occur is returned as it is, whatever its paragraphs hold. Scenario D,
    a paragraph that opens with the bare tag, is removed. *)
Lemma C5_other_paragraphs_kept :
  remove_confluence_metadata
    (py "<p class=" ++ [dq] ++ py "meta" ++ [dq] ++ py ">Page Owner: Jane Doe</p>")
  = py "<p class=" ++ [dq] ++ py "meta" ++ [dq] ++ py ">Page Owner: Jane Doe</p>" /\
  remove_confluence_metadata (py "<p>PAGE OWNER: Jane Doe</p>")
  = py "<p>PAGE OWNER: Jane Doe</p>" /\
  (forall html_content : str,
     contains (py "<p>") html_content = false ->
     remove_confluence_metadata html_content = html_content) /\
  remove_confluence_metadata (py "<p>Page Owner: Jane Doe</p>") = [].
Proof.
  split; [vm_compute; reflexivity|]. split; [vm_compute; reflexivity|].
  split; [exact no_literal_paragraph|vm_compute; reflexivity].
Qed.

(** *** C6: no HTML part *)



(** *** C7: _split_mime_parts with a declared boundary *)

(** C7: the splitter never raises; when [boundary_re] finds the token [T],
    the text is split on [--T] (so the parts joined by [--T] give the text
    back), and no part holds [--T], at its start or anywhere else; and [T]
    is what [boundary_re] finds where the first [boundary=] declaration of
    the text quotes [T], a token without quote or newline. *)
Theorem C7_split_on_declared_boundary :
  (forall text : str, exists parts, _split_mime_parts text = Some parts) /\
  (forall text T : str,
     search_group no_flags boundary_re text = Some T ->
     _split_mime_parts text = split (py "--" ++ T) text /\
     exists parts,
       _split_mime_parts text = Some parts /\
       join (py "--" ++ T) parts = text /\
       Forall (fun part => contains (py "--" ++ T) part = false /\
                           startswith (py "--" ++ T) part = false) parts) /\
  (forall pre T post : str,
     find boundary_keyword (pre ++ boundary_keyword ++ T ++ [dq] ++ post)
       = Some (length pre) ->
     ~ In dq T -> ~ In nl T ->
     search_group no_flags boundary_re (pre ++ boundary_keyword ++ T ++ [dq] ++ post)
       = Some T).
Proof.
  split; [|split; [|exact boundary_re_declared]].
  - intros text. unfold _split_mime_parts.
    destruct (search_group no_flags boundary_re text) as [T|]; eauto.
  - intros text T H. unfold _split_mime_parts. rewrite H.
    split; [reflexivity|].
    exists (split_loop (length text) (py "--" ++ T) text).
    split; [reflexivity|]. split; [apply split_loop_join|].
    eapply Forall_impl; [apply split_loop_free; [discriminate|lia]|].
    intros part Hc. split; [exact Hc|].
    destruct (startswith (py "--" ++ T) part) eqn:E; [|reflexivity].
    apply startswith_inv in E as [t ->].
    rewrite <- Hc. symmetry. apply contains_true. exists [], t. reflexivity.
Qed.

Lemma C7_witness :
  search_group no_flags boundary_re sample_multipart = Some (py "X") /\
  _split_mime_parts sample_multipart
  = Some [py "Content-Type: multipart/related; boundary=" ++ [dq] ++ py "X" ++ [dq] ++ [nl; nl];
          [nl] ++ py "Content-Type: text/html" ++ [nl; nl] ++ py "<html></html>" ++ [nl];
          py "--" ++ [nl]].
Proof.
  assert (H : search_group no_flags boundary_re sample_multipart = Some (py "X"))
    by (vm_compute; reflexivity).
  split; [exact H|].
  destruct C7_split_on_declared_boundary as (_ & Hsplit & _).
  destruct (Hsplit sample_multipart (py "X") H) as [-> _].
  vm_compute. reflexivity.
Defined.

(** *** C8: determine_image_filename *)

(** C8 (the code at the failing input): a key whose only separator is a
    backslash takes the path branch, and [basename] (POSIX) returns it
    whole: the result is neither the final component nor the key with a
    sniffed extension. This holds of every key with a backslash and no
    ['/']. *)
Lemma C8_backslash_key_kept_whole :
  contains (py "\") (py "fld\image001.png") = true /\
  determine_image_filename (py "fld\image001.png") [0x89; 80; 78; 71]
    = py "fld\image001.png" /\
  SpecWords.final_path_component (py "fld\image001.png") = py "image001.png" /\
  py "fld\image001.png" <> py "image001.png" /\
  (forall (key : str) (data : bytes),
     contains (py "/") key = false -> contains (py "\") key = true ->
     determine_image_filename key data = key).
Proof.
  split; [reflexivity|]. split; [vm_compute; reflexivity|].
  split; [vm_compute; reflexivity|]. split; [discriminate|].
  intros key data H1 H2. unfold determine_image_filename. rewrite H1, H2. simpl.
  apply (contains_single_false 47) in H1.
  destruct (basename_spec key) as [Hb _]. exact (Hb H1).
Qed.

(** *** C9: generate_html_filename *)

(** C9: the filename is the segments with every space character (U+0020)
    removed, joined by underscores, followed by [.html]; parsing a
    breadcrumb and deriving the filename is a function of the breadcrumb. *)
Theorem C9_generate_html_filename_spec :
  (forall navigation_parts : list str,
     generate_html_filename navigation_parts
     = join (py "_") (map drop_spaces navigation_parts) ++ py ".html" /\
     Forall (fun seg => ~ In 32 (replace (py " ") [] seg)) navigation_parts) /\
  (forall breadcrumb : str, exists segs,
     parse_navigation_path breadcrumb = Some segs /\
     forall segs1 segs2,
       parse_navigation_path breadcrumb = Some segs1 ->
       parse_navigation_path breadcrumb = Some segs2 ->
       generate_html_filename segs1 = generate_html_filename segs2).
Proof.
  assert (Hrep : forall seg, replace (py " ") [] seg = drop_spaces seg).
  { intros seg. change (replace (py " ") [] seg)
      with (replace_loop (length seg) [32] [] seg).
    apply replace_loop_char. lia. }
  split.
  - intros parts. split.
    + unfold generate_html_filename. f_equal. f_equal.
      apply map_ext. exact Hrep.
    + apply List.Forall_forall. intros seg _. rewrite Hrep.
      unfold drop_spaces. intros Hin. apply filter_In in Hin as [_ Hc].
      rewrite N.eqb_refl in Hc. discriminate.
  - intros b. exists (map strip (split_loop (length b) (py ">") b)).
    split; [reflexivity|]. intros s1 s2 H1 H2.
    rewrite H1 in H2. injection H2 as ->. reflexivity.
Qed.

Lemma C9_witness :
  parse_navigation_path (py "APE > Billing > Open Invoices")
    = Some [py "APE"; py "Billing"; py "Open Invoices"] /\
  generate_html_filename [py "APE"; py "Billing"; py "Open Invoices"]
    = py "APE_Billing_OpenInvoices.html".
Proof.
  split; [vm_compute; reflexivity|].
  destruct C9_generate_html_filename_spec as [H _].
  destruct (H [py "APE"; py "Billing"; py "Open Invoices"]) as [-> _].
  vm_compute. reflexivity.
Defined.

(** *** C10: the fallback split keeps the captured words *)

(** C10: without a declared boundary, once the fallback pattern matches,
    the returned list is the text before the first match, then the
    captured word [Part] or [NextPart], then the split of the rest: chunks
    and captured words alternate throughout. *)
Theorem C10_fallback_split_keeps_captures (text pre rest : str) (g : option str) :
  search_group no_flags boundary_re text = None ->
  search no_flags boundary_pattern text = Some (pre, rest, g) ->
  exists cap more parts,
    _split_mime_parts text = Some parts /\
    parts = pre :: cap :: more /\
    (cap = py "Part" \/ cap = py "NextPart") /\
    more <> [] /\
    captures_interleaved parts.
Proof.
  intros Hb Hm. unfold _split_mime_parts. rewrite Hb.
  destruct (re_split_first_match _ _ _ _ Hm) as (cap & Hcap & Heq).
  exists cap, (re_split_loop (length text) no_flags boundary_pattern rest),
    (re_split no_flags boundary_pattern text).
  split; [reflexivity|]. split; [exact Heq|]. split; [exact Hcap|].
  split; [apply re_split_loop_nonempty|].
  apply re_split_loop_interleaved.
Qed.

Lemma C10_witness :
  exists cap more,
    _split_mime_parts sample_fallback = Some ((py "preamble" ++ [nl]) :: cap :: more) /\
    (cap = py "Part" \/ cap = py "NextPart").
Proof.
  destruct (C10_fallback_split_keeps_captures sample_fallback
              (py "preamble" ++ [nl])
              ([nl] ++ py "Content-Type: text/html" ++ [nl; nl] ++ py "<html></html>" ++ [nl]
               ++ py "------=_NextPart_01D5F0A1.3B2C4D50--" ++ [nl])
              (Some (py "NextPart")))
    as (cap & more & parts & H1 & H2 & H3 & _);
    [vm_compute; reflexivity|vm_compute; reflexivity|].
  exists cap, more. rewrite H1, H2. split; [reflexivity|exact H3].
Defined.

Example sample_fallback_parts :
  _split_mime_parts sample_fallback
  = Some [py "preamble" ++ [nl];
          py "NextPart";
          [nl] ++ py "Content-Type: text/html" ++ [nl; nl] ++ py "<html></html>" ++ [nl];
          py "NextPart";
          py "--" ++ [nl]].
Proof. vm_compute. reflexivity. Qed.

End Claims.

(** ** Further properties of the converter *)

Module Extras.
Import Str Re Codec App Notions Samples StrFacts ReFacts AppFacts CodecFacts PipelineFacts.
Import TextFacts MatchFacts PathFacts PartFacts.

(** *** allowed_file *)

(** X1: [allowed_file] accepts exactly the names that end in a dot followed
    by [doc] in any mix of upper and lower case; what comes before the last
    dot is not looked at, and may be empty. *)
Theorem allowed_file_extension (filename : str) :
  allowed_file filename = true <->
  exists stem ext, filename = stem ++ py "." ++ ext /\ In ext doc_spellings.
Proof.
  rewrite allowed_file_spec. split; intros (stem & ext & Hf & Hext);
    exists stem, ext; (split; [exact Hf|]); apply lower_doc_spellings; exact Hext.
Qed.

(** *** decode_html_content *)

(** X2: in base64 mode the whitespace of the text is dropped before
    decoding; when what is left is valid base64 the result is the UTF-16
    reading of the bytes, malformed units skipped, and never their UTF-8
    reading; when it is not valid the text is returned as it was given. *)
Theorem decode_base64_always_utf16 (encoded_html : str) :
  match b64decode (drop_whitespace encoded_html) with
  | Some decoded_bytes =>
      utf16_decode Ignore decoded_bytes
      = Some (decode_html_content encoded_html (py "base64"))
  | None => decode_html_content encoded_html (py "base64") = encoded_html
  end.
Proof.
  destruct (b64decode (drop_whitespace encoded_html)) as [b|] eqn:Hb.
  - destruct (utf16_decode_ignore b) as (x & Hx).
    rewrite (decode_base64_utf16 _ _ _ Hb Hx). exact Hx.
  - apply decode_base64_invalid, Hb.
Qed.

(** *** extract_base64_image *)

(** X3: the bytes of an image are recovered exactly: when the headers hold
    no blank line and the body, its whitespace set aside, is the base64
    encoding of [data], the part yields [data] under the given key. Line
    breaks and indentation inside the body do not matter. *)
Theorem extract_base64_image_recovers (headers body key : str) (data : bytes) :
  Forall octet data ->
  contains blank_line headers = false ->
  drop_whitespace body = b64encode data ->
  extract_base64_image (headers ++ blank_line ++ body) key = Some (key, data).
Proof. exact (base64_body_decoded headers body key data). Qed.

Lemma extract_base64_image_recovers_witness :
  extract_base64_image
    (py "Content-Type: image/png" ++ [nl] ++ py "Content-Transfer-Encoding: base64"
     ++ [nl; nl] ++ py "iVBO" ++ [cr; nl] ++ py "  Rw0KGgo=" ++ [nl])
    (py "image001.png")
  = Some (py "image001.png", [0x89; 80; 78; 71; 13; 10; 26; 10]).
Proof.
  apply (extract_base64_image_recovers
           (py "Content-Type: image/png" ++ [nl] ++ py "Content-Transfer-Encoding: base64")
           (py "iVBO" ++ [cr; nl] ++ py "  Rw0KGgo=" ++ [nl])).
  - repeat constructor.
  - vm_compute. reflexivity.
  - vm_compute. reflexivity.
Defined.

(** *** _extract_html_from_part *)

(** X4: the content of a part is what follows its first blank line,
    stripped; it is decoded as base64 when the base64 header text occurs
    anywhere in the part, else as quoted-printable when that header text
    occurs anywhere in the part, else taken as it is. *)
Theorem html_part_body (headers body : str) :
  contains blank_line headers = false ->
  _extract_html_from_part (headers ++ blank_line ++ body)
  = Some (if contains base64_header (headers ++ blank_line ++ body)
          then decode_html_content (strip body) (py "base64")
          else if contains quoted_printable_header (headers ++ blank_line ++ body)
          then decode_html_content (strip body) (py "quoted-printable")
          else strip body).
Proof.
  intros Hfree.
  destruct (body_after_blank_line headers body Hfree) as (i & ws & Hf & Hd & Hws).
  unfold _extract_html_from_part. fold blank_line base64_header quoted_printable_header.
  rewrite Hf, Hd, (strip_blank_app _ _ Hws).
  destruct (contains base64_header _); [reflexivity|].
  destruct (contains quoted_printable_header _); reflexivity.
Qed.

Lemma html_part_body_witness :
  _extract_html_from_part
    (py "Content-Type: text/html" ++ [nl; nl] ++ [nl] ++ py "<html>hi</html>" ++ [nl; nl])
  = Some (py "<html>hi</html>").
Proof.
  refine (eq_trans (html_part_body (py "Content-Type: text/html")
                      ([nl] ++ py "<html>hi</html>" ++ [nl; nl]) _) _);
    vm_compute; reflexivity.
Defined.

(** X5: a part that declares base64 in its headers and whose body is the
    base64 encoding of [x.encode('utf-16')], wrapped in lines or not,
    yields [x]. *)
Theorem html_part_round_trip (headers body x : str) (encoded : bytes) :
  contains blank_line headers = false ->
  contains base64_header headers = true ->
  utf16_encode x = Some encoded ->
  drop_whitespace body = b64encode encoded ->
  _extract_html_from_part (headers ++ blank_line ++ body) = Some x.
Proof.
  intros Hfree Hb64 Henc Hbody.
  destruct (body_after_blank_line headers body Hfree) as (i & ws & Hf & Hd & Hws).
  destruct (utf16_decode_encode Ignore x encoded Henc) as [Hoct Hdec].
  unfold _extract_html_from_part. fold blank_line base64_header.
  rewrite Hf, Hd, (strip_blank_app _ _ Hws).
  assert (Hc : contains base64_header (headers ++ blank_line ++ body) = true).
  { apply contains_true in Hb64 as (a & b & ->). apply contains_true.
    exists a, (b ++ blank_line ++ body). rewrite <- !app_assoc. reflexivity. }
  rewrite Hc. f_equal. apply (decode_base64_utf16 _ encoded); [|exact Hdec].
  rewrite drop_whitespace_strip, Hbody. apply b64decode_b64encode, Hoct.
Qed.

Lemma html_part_round_trip_witness :
  _extract_html_from_part
    (py "Content-Type: text/html" ++ [nl] ++ py "Content-Transfer-Encoding: base64"
     ++ [nl; nl] ++ py "//48AGgA" ++ [nl] ++ py "6QA+AA==" ++ [nl])
  = Some [60; 104; 233; 62].
Proof.
  apply (html_part_round_trip
           (py "Content-Type: text/html" ++ [nl] ++ py "Content-Transfer-Encoding: base64")
           (py "//48AGgA" ++ [nl] ++ py "6QA+AA==" ++ [nl])
           [60; 104; 233; 62] [0xFF; 0xFE; 60; 0; 104; 0; 233; 0; 62; 0]).
  - vm_compute. reflexivity.
  - vm_compute. reflexivity.
  - vm_compute. reflexivity.
  - vm_compute. reflexivity.
Defined.

(** *** The loop of extract_html_and_images *)

(** X6: the HTML of a document is that of the first part that declares
    [text/html] and has a blank line; the parts after it never replace it,
    whatever they declare. *)
Theorem first_html_part_wins (before after : list str) (part html : str) :
  Forall (fun p => contains html_header p = false \/
                   _extract_html_from_part p = None) before ->
  contains html_header part = true ->
  _extract_html_from_part part = Some html ->
  fst (scan_parts (before ++ part :: after)) = Some html.
Proof.
  intros Hbefore Hct Hex. unfold scan_parts. rewrite fold_left_app.
  pose proof (scan_parts_no_html before [] Hbefore) as Hnone.
  destruct (fold_left scan_part before (None, [])) as [content images].
  cbn [fst] in Hnone. subst content.
  cbn [fold_left]. unfold scan_part at 2. fold html_header.
  rewrite Hct, Hex. cbn [andb]. apply scan_parts_html_kept.
Qed.

Lemma first_html_part_wins_witness :
  fst (scan_parts
         [py "preamble";
          py "Content-Type: text/html" ++ [nl; nl] ++ py "<html>one</html>";
          py "Content-Type: text/html" ++ [nl; nl] ++ py "<html>two</html>"])
  = Some (py "<html>one</html>").
Proof.
  apply (first_html_part_wins [py "preamble"]
           [py "Content-Type: text/html" ++ [nl; nl] ++ py "<html>two</html>"]
           (py "Content-Type: text/html" ++ [nl; nl] ++ py "<html>one</html>")).
  - repeat constructor.
  - vm_compute. reflexivity.
  - vm_compute. reflexivity.
Defined.

(** *** save_images_and_update_html *)

(** X7: when the call returns, the images folder is there, the count is
    the number of assets given, also when two of them are saved under one
    file name, and every asset has a file; the file of an asset holds its
    bytes when no later asset goes to the same path, so of two assets with
    one file name the later one is kept. A text that holds no image
    reference is returned as it was given. And the call returns only when
    every file name is one that can be opened: not empty (as for a key
    that ends in ['/']), not [.], and without NUL; otherwise it raises. *)
Theorem save_images_result `{System} (html_content : str)
    (images : list (str * bytes)) (output_dir : str) (w w' : world)
    (text : str) (count : nat) :
  save_images_and_update_html html_content images output_dir w
  = (w', Returned (text, count)) ->
  count = length images /\
  dirs w' = {[path_join output_dir (py "images")]} ∪ dirs w /\
  (forall key data, In (key, data) images ->
     is_Some (files w' !! image_path output_dir key data)) /\
  (forall before after key data,
     images = before ++ (key, data) :: after ->
     (forall k d, In (k, d) after ->
        image_path output_dir k d <> image_path output_dir key data) ->
     files w' !! image_path output_dir key data = Some data) /\
  (contains src_open html_content = false -> text = html_content) /\
  (forall key data, In (key, data) images ->
     determine_image_filename key data <> [] /\
     determine_image_filename key data <> py "." /\
     ~ In 0 (determine_image_filename key data)).
Proof.
  intros Hs. destruct (save_images_done _ _ _ _ _ _ _ Hs) as (Hn & Ht & Hd & Hw).
  split; [exact Hn|]. split; [exact Hd|]. split; [exact Hw|]. split; [|split].
  - intros before after key data -> Hlater.
    exact (save_images_overwrite _ _ _ _ _ _ _ _ _ _ Hs Hlater).
  - intros Hfree. rewrite Ht. apply rewrite_no_reference, Hfree.
  - intros key data Hin.
    assert (Hopen : ~ (contains [0] (image_path output_dir key data) = true \/
                       image_path output_dir key data
                       = path_join output_dir (py "images"))).
    { intros Hbad. revert Hs. unfold save_images_and_update_html.
      destruct (mkdir (path_join output_dir (py "images")) w) as [w0 [e|]] eqn:Hm;
        [discriminate|].
      destruct (mkdir_effect _ _ _ _ Hm) as (_ & _ & Hdirs).
      destruct (save_images_refused (path_join output_dir (py "images")) images
                  (w0, Returned (html_content, 0%nat)) key data Hin) as (e & He).
      - destruct Hbad as [Hz|Hp]; [left; exact Hz|right].
        unfold image_path in Hp. rewrite Hp. cbn [fst]. rewrite (Hdirs eq_refl).
        apply elem_of_union_l, elem_of_singleton. reflexivity.
      - intros Hf. rewrite Hf in He. discriminate. }
    split; [|split].
    + intros E. apply Hopen. right. unfold image_path. rewrite E.
      apply path_join_nothing; [exact images_clean|left; reflexivity].
    + intros E. apply Hopen. right. unfold image_path. rewrite E.
      apply path_join_nothing; [exact images_clean|right; reflexivity].
    + intros Hz. apply Hopen. left.
      apply null_in_path; [apply filename_no_slash|exact Hz].
Qed.

Lemma save_images_result_witness :
  2%nat = length [(py "a/logo.png", [0x89; 80; 78; 71]); (py "b/logo.png", py "GIF89a")] /\
  files (fst (@save_images_and_update_html sample_system (py "<p>hi</p>")
                [(py "a/logo.png", [0x89; 80; 78; 71]); (py "b/logo.png", py "GIF89a")]
                UPLOAD_HTML_FOLDER empty_world))
    !! py "upload-html/images/logo.png"
  = Some (py "GIF89a").
Proof.
  destruct (@save_images_result sample_system (py "<p>hi</p>")
              [(py "a/logo.png", [0x89; 80; 78; 71]); (py "b/logo.png", py "GIF89a")]
              UPLOAD_HTML_FOLDER empty_world
              (fst (@save_images_and_update_html sample_system (py "<p>hi</p>")
                      [(py "a/logo.png", [0x89; 80; 78; 71]); (py "b/logo.png", py "GIF89a")]
                      UPLOAD_HTML_FOLDER empty_world))
              (py "<p>hi</p>") 2%nat)
    as (Hn & _ & _ & Hlast & _ & _).
  - vm_compute. reflexivity.
  - split; [exact Hn|].
    apply (Hlast [(py "a/logo.png", [0x89; 80; 78; 71])] [] (py "b/logo.png") (py "GIF89a"));
      [reflexivity|intros k d []].
Defined.

(** A key that ends in ['/'] has an empty file name: the path is that of
    the images folder itself, which cannot be opened as a file. *)
Example empty_file_name_refused :
  determine_image_filename (py "a/") [1] = [] /\
  snd (@save_images_and_update_html sample_system (py "<p>hi</p>") [(py "a/", [1])]
         UPLOAD_HTML_FOLDER empty_world)
  = Raised (py "[Errno 21] Is a directory: 'upload-html/images'").
Proof. split; vm_compute; reflexivity. Qed.

(** *** The sanitizers *)

(** X12: the two sanitizers only delete: what each returns is its argument
    with some stretches taken out, nothing added and nothing reordered. *)
Theorem sanitizers_only_delete (html_content : str) :
  sublist (remove_confluence_metadata html_content) html_content /\
  sublist (remove_navigation_from_html html_content) html_content.
Proof.
  split.
  - unfold remove_confluence_metadata.
    etransitivity; apply sub_nil_sublist.
  - unfold remove_navigation_from_html.
    etransitivity; apply sub_nil_sublist.
Qed.

(** X18: a text in which [Navigation:] does not occur, in whatever case, is
    returned by [remove_navigation_from_html] as it was given. *)
Theorem navigation_word_absent (html_content : str) :
  mentions ignorecase_dotall (py "Navigation:") html_content = false ->
  remove_navigation_from_html html_content = html_content.
Proof.
  intros H. unfold remove_navigation_from_html.
  rewrite (sub_not_mentioned _ (py "Navigation:") (navigation_block_re (py "p"))
             [] html_content); [|reflexivity|exact H].
  apply (sub_not_mentioned _ (py "Navigation:")); [reflexivity|exact H].
Qed.

Lemma navigation_word_absent_witness :
  remove_navigation_from_html (py "<p>Site navigation</p><div>NAVIGATION</div>")
  = py "<p>Site navigation</p><div>NAVIGATION</div>".
Proof.
  apply navigation_word_absent. vm_compute. reflexivity.
Defined.

(** X13: a text that holds none of the spellings of [Page Owner], [Page
    Oner] and [Page Contact] that the patterns accept is returned by
    [remove_confluence_metadata] as it was given. *)
Theorem metadata_phrases_absent (html_content : str) :
  has_word owner_words html_content = false ->
  has_word contact_words html_content = false ->
  remove_confluence_metadata html_content = html_content.
Proof.
  intros Ho Hc. unfold remove_confluence_metadata.
  rewrite (owner_sub_absent _ Ho), page_contact_re_eq.
  apply (paragraph_sub_absent contact_tail contact_words contact_tail_inv).
  exact (has_word_false _ _ Hc).
Qed.

Lemma metadata_phrases_absent_witness :
  remove_confluence_metadata (py "<p>PAGE OWNER: Jane</p><p>Pages owned: 3</p>")
  = py "<p>PAGE OWNER: Jane</p><p>Pages owned: 3</p>".
Proof.
  apply metadata_phrases_absent; vm_compute; reflexivity.
Defined.

(** *** generate_html_filename *)

(** X20: the file name does not tell segments apart from underscores, nor
    does it keep spaces: a segment [a_b] gives the name that the two
    segments [a] and [b] give, and segments that differ in spaces only give
    one name. Two breadcrumbs can so lead to one file. *)
Theorem html_filename_collisions :
  (forall (before after : list str) (a b : str),
     generate_html_filename (before ++ [a ++ py "_" ++ b] ++ after)
     = generate_html_filename (before ++ [a; b] ++ after)) /\
  (forall navigation_parts : list str,
     generate_html_filename (map drop_spaces navigation_parts)
     = generate_html_filename navigation_parts).
Proof.
  assert (Hrep : forall seg, replace (py " ") [] seg = drop_spaces seg).
  { intros seg. change (replace (py " ") [] seg)
      with (replace_loop (length seg) [32] [] seg).
    apply replace_loop_char. lia. }
  split.
  - intros before after a b. unfold generate_html_filename. f_equal.
    rewrite !map_app. cbn [map].
    assert (Hab : replace (py " ") [] (a ++ py "_" ++ b)
                  = replace (py " ") [] a ++ py "_" ++ replace (py " ") [] b).
    { rewrite !Hrep. unfold drop_spaces. rewrite !List.filter_app. reflexivity. }
    rewrite Hab. cbn [app].
    induction (map (replace (py " ") []) before) as [|x l IH].
    + cbn [app]. destruct (map (replace (py " ") []) after) as [|y l'].
      * cbn [join]. reflexivity.
      * rewrite !join_cons by discriminate. rewrite <- !app_assoc. reflexivity.
    + cbn [app]. rewrite !join_cons by (destruct l; discriminate).
      rewrite IH. reflexivity.
  - intros parts. unfold generate_html_filename. f_equal. f_equal.
    rewrite map_map. apply map_ext. intros seg. rewrite !Hrep.
    unfold drop_spaces. induction seg as [|c seg IH]; [reflexivity|].
    simpl. destruct (c =? 32) eqn:E; simpl; [exact IH|].
    rewrite E. simpl. f_equal. exact IH.
Qed.

(** *** Reading the document *)

(** X21: reading an existing file never fails, whatever its bytes, and the
    text read holds no carriage return: line ends are turned into
    newlines before the parts are looked for. *)
Theorem read_text_newlines (path : str) (w : world) (data : bytes) :
  files w !! path = Some data ->
  exists text, read_text path w = Some text /\ ~ In cr text.
Proof.
  intros Hf. unfold read_text. rewrite Hf. cbn [mbind option_bind].
  unfold utf8_decode. destruct (utf8_decode_from_ignore data 0) as (x & ->).
  cbn [mbind option_bind]. exists (universal_newlines x).
  split; [reflexivity|apply universal_newlines_no_cr].
Qed.

Lemma read_text_newlines_witness :
  exists text,
    read_text (py "upload/page.doc")
      (set_file (py "upload/page.doc") [72; 105; 13; 10; 0xFF; 33; 13] empty_world)
    = Some text /\ ~ In cr text.
Proof.
  apply (read_text_newlines _ _ [72; 105; 13; 10; 0xFF; 33; 13]).
  vm_compute. reflexivity.
Defined.

(** *** The upload view *)

(** X22: an upload changes the metadata only when it is answered with
    success. Then it sets the one entry of the new page, under its file
    name, and leaves every other entry as it was; or, when
    [metadata.json] could not be rewritten, the metadata is what it was or
    reads as empty. In every other case, also when an exception leaves the
    view, the metadata is what it was. *)
Theorem upload_metadata_frame `{Libs} `{System} (file : option upload) (w w' : world)
    (r : response) :
  upload_file file w = (w', r) ->
  metadata w' = metadata w \/
  exists filename html_filename images navigation full_navigation,
    r = SuccessJson filename html_filename (py "upload-html/" ++ html_filename)
          images navigation full_navigation /\
    (metadata w'
     = <[html_filename :=
           {| meta_filename := html_filename;
              meta_navigation := navigation;
              meta_full_navigation := full_navigation;
              meta_path := py "upload-html/" ++ html_filename |}]> (metadata w) \/
     metadata w' = ∅).
Proof.
  intros Hup.
  destruct (upload_file_cases _ _ _ _ Hup)
    as [[-> _] | (f & -> & _ & _ & Hcase)]; [left; reflexivity|].
  destruct Hcase as [(e & Hstage & _) | (w1 & w2 & success & result & n & Hstage & Hconv & Hcase)].
  { left. destruct (write_file_effect _ _ _ _ _ Hstage) as (Hm & _). exact Hm. }
  destruct (write_file_effect _ _ _ _ _ Hstage) as (Hm1 & _).
  destruct (conversion_effect _ _ _ _ _ Hconv) as (Hm2 & _).
  destruct Hcase as [[-> _] | (nav & nav_parts & _ & _ & _ & _ & Hwrite)];
    [left; rewrite Hm2; exact Hm1|].
  destruct Hwrite as [(Hpage & _) | (w3 & Hpage & -> & ->)].
  - left. destruct (write_text_effect _ _ _ _ _ Hpage) as (Hm3 & _).
    rewrite Hm3, Hm2. exact Hm1.
  - destruct (write_text_effect _ _ _ _ _ Hpage) as (Hm3 & _).
    destruct (unlink_effect (path_join UPLOAD_FOLDER (secure_filename (upload_filename f)))
                (fst (add_document_metadata (generate_html_filename nav_parts)
                        nav_parts nav w3))) as (Hm5 & _).
    destruct (add_document_metadata_effect (generate_html_filename nav_parts)
                nav_parts nav w3) as (_ & _ & [Hm4 | [Hm4 | Hm4]]).
    + right. exists (secure_filename (upload_filename f)), (generate_html_filename nav_parts),
        n, nav_parts, nav.
      split; [reflexivity|]. left. rewrite Hm5, Hm4, Hm3, Hm2, Hm1. reflexivity.
    + left. rewrite Hm5, Hm4, Hm3, Hm2. exact Hm1.
    + right. exists (secure_filename (upload_filename f)), (generate_html_filename nav_parts),
        n, nav_parts, nav.
      split; [reflexivity|]. right. rewrite Hm5. exact Hm4.
Qed.

Lemma upload_metadata_frame_witness :
  metadata accepted_world = metadata empty_world \/
  exists filename html_filename images navigation full_navigation,
    SuccessJson (py "page.doc") (py "APE_OpenInvoices.html")
      (py "upload-html/APE_OpenInvoices.html") 1
      [py "APE"; py "Open Invoices"] (py "APE > Open Invoices")
    = SuccessJson filename html_filename (py "upload-html/" ++ html_filename)
        images navigation full_navigation /\
    (metadata accepted_world
     = <[html_filename :=
           {| meta_filename := html_filename;
              meta_navigation := navigation;
              meta_full_navigation := full_navigation;
              meta_path := py "upload-html/" ++ html_filename |}]> (metadata empty_world) \/
     metadata accepted_world = ∅).
Proof.
  apply (@upload_metadata_frame sample_libs sample_system
           (Some (sample_upload breadcrumb_body))).
  vm_compute. reflexivity.
Defined.

(** X23: an upload never removes a file that was there, other than the
    copy of the upload that it stages itself: every other path that had a
    file before the request has one after it, whatever the answer and
    whichever call the system refuses. *)
Theorem upload_keeps_files `{Libs} `{System} (file : upload) (w w' : world) (r : response)
    (path : str) :
  upload_file (Some file) w = (w', r) ->
  path <> path_join UPLOAD_FOLDER (secure_filename (upload_filename file)) ->
  is_Some (files w !! path) ->
  is_Some (files w' !! path).
Proof.
  intros Hup Hpath Hwas.
  destruct (upload_file_cases _ _ _ _ Hup)
    as [[-> _] | (f & [= <-] & _ & _ & Hcase)]; [exact Hwas|].
  destruct Hcase as [(e & Hstage & _) | (w1 & w2 & success & result & n & Hstage & Hconv & Hcase)].
  { destruct (write_file_effect _ _ _ _ _ Hstage) as (_ & _ & _ & Hk & _). exact (Hk _ Hwas). }
  destruct (write_file_effect _ _ _ _ _ Hstage) as (_ & _ & _ & Hk1 & _).
  destruct (conversion_effect _ _ _ _ _ Hconv) as (_ & Hk2).
  pose proof (Hk2 _ (Hk1 _ Hwas)) as H2.
  destruct Hcase as [[-> _] | (nav & nav_parts & _ & _ & _ & _ & Hwrite)]; [exact H2|].
  destruct Hwrite as [(Hpage & _) | (w3 & Hpage & -> & _)].
  - destruct (write_text_effect _ _ _ _ _ Hpage) as (_ & _ & _ & Hk3 & _). exact (Hk3 _ H2).
  - destruct (write_text_effect _ _ _ _ _ Hpage) as (_ & _ & _ & Hk3 & _).
    destruct (unlink_effect (path_join UPLOAD_FOLDER (secure_filename (upload_filename file)))
                (fst (add_document_metadata (generate_html_filename nav_parts)
                        nav_parts nav w3))) as (_ & _ & Hf5).
    destruct (add_document_metadata_effect (generate_html_filename nav_parts)
                nav_parts nav w3) as (Hf4 & _).
    rewrite (Hf5 _ Hpath), Hf4. exact (Hk3 _ H2).
Qed.

Lemma upload_keeps_files_witness :
  is_Some (files accepted_world !! py "upload-html/images/image001.png").
Proof.
  apply (@upload_keeps_files sample_libs sample_system (sample_upload breadcrumb_body)
           rejected_world accepted_world
           (SuccessJson (py "page.doc") (py "APE_OpenInvoices.html")
              (py "upload-html/APE_OpenInvoices.html") 1
              [py "APE"; py "Open Invoices"] (py "APE > Open Invoices"))).
  - vm_compute. reflexivity.
  - discriminate.
  - vm_compute. eauto.
Defined.

(** X24: what an upload answered with success has done: the name was
    allowed and the upload was staged; the conversion succeeded; the
    breadcrumb found in the converted page is not empty, and its segments
    name the page's file; the page without its navigation block, encoded
    as UTF-8, was written to that file under the pages folder; then the
    recording of the page in the metadata and the removal of the staged
    copy were attempted. The page is in its file (unless that file is the
    staged copy itself), and the metadata has the page's entry if the
    system rewrites [metadata.json]. *)
Theorem upload_success `{Libs} `{System} (file : upload) (w w' : world)
    (filename html_filename html_path : str) (images : nat)
    (navigation : list str) (full_navigation : str) :
  upload_file (Some file) w
  = (w', SuccessJson filename html_filename html_path images navigation full_navigation) ->
  allowed_file (upload_filename file) = true /\
  filename = secure_filename (upload_filename file) /\
  full_navigation <> [] /\
  parse_navigation_path full_navigation = Some navigation /\
  html_filename = generate_html_filename navigation /\
  html_path = py "upload-html/" ++ html_filename /\
  exists w1 w2 result data,
    write_file (path_join UPLOAD_FOLDER filename) (upload_content file) w = (w1, None) /\
    extract_html_and_images (path_join UPLOAD_FOLDER filename) UPLOAD_HTML_FOLDER w1
    = (w2, (true, result, images)) /\
    extract_navigation_from_html result = Some full_navigation /\
    utf8_encode (remove_navigation_from_html result) = Some data /\
    w' = unlink (path_join UPLOAD_FOLDER filename)
           (fst (add_document_metadata html_filename navigation full_navigation
                   (set_file (path_join UPLOAD_HTML_FOLDER html_filename) data w2))) /\
    (path_join UPLOAD_HTML_FOLDER html_filename <> path_join UPLOAD_FOLDER filename ->
     files w' !! path_join UPLOAD_HTML_FOLDER html_filename = Some data) /\
    ((forall m, save_metadata_result
                  (set_file (path_join UPLOAD_HTML_FOLDER html_filename) data w2) m
                = Saved) ->
     metadata w' !! html_filename
     = Some {| meta_filename := html_filename;
               meta_navigation := navigation;
               meta_full_navigation := full_navigation;
               meta_path := html_path |}).
Proof.
  intros Hup.
  destruct (upload_file_cases _ _ _ _ Hup)
    as [[_ (msg & Hr)] | (f & [= <-] & _ & Hallowed & Hcase)]; [discriminate|].
  destruct Hcase as [(e & _ & Hr) | (w1 & w2 & success & result & n & Hstage & Hconv & Hcase)];
    [discriminate|].
  destruct Hcase as [[_ (st & msg & Hr)] | (nav & nav_parts & -> & Hnav & Hne & Hparse & Hwrite)];
    [discriminate|].
  destruct Hwrite as [(_ & Hr) | (w3 & Hpage & -> & Hr)]; [discriminate|].
  injection Hr as -> -> -> -> -> ->.
  destruct (write_text_effect _ _ _ _ _ Hpage) as (_ & _ & _ & _ & Hdata).
  destruct (Hdata eq_refl) as (data & Henc & ->).
  split; [exact Hallowed|]. split; [reflexivity|]. split; [exact Hne|].
  split; [exact Hparse|]. split; [reflexivity|]. split; [reflexivity|].
  exists w1, w2, result, data.
  split; [exact Hstage|]. split; [exact Hconv|]. split; [exact Hnav|].
  split; [exact Henc|]. split; [reflexivity|].
  set (w3 := set_file (path_join UPLOAD_HTML_FOLDER (generate_html_filename nav_parts))
               data w2).
  destruct (unlink_effect (path_join UPLOAD_FOLDER (secure_filename (upload_filename file)))
              (fst (add_document_metadata (generate_html_filename nav_parts)
                      nav_parts nav w3))) as (Hm5 & _ & Hf5).
  split.
  - intros Hdiff. rewrite (Hf5 _ Hdiff).
    destruct (add_document_metadata_effect (generate_html_filename nav_parts)
                nav_parts nav w3) as (-> & _).
    unfold w3. cbn [set_file files]. apply lookup_insert_eq.
  - intros Hsaved. rewrite Hm5.
    unfold add_document_metadata, save_metadata, load_metadata. rewrite Hsaved.
    cbn [fst metadata]. apply lookup_insert_eq.
Qed.

Lemma upload_success_witness :
  @upload_file sample_libs sample_system (Some (sample_upload breadcrumb_body)) empty_world
  = (accepted_world,
     SuccessJson (py "page.doc") (py "APE_OpenInvoices.html")
       (py "upload-html/APE_OpenInvoices.html") 1
       [py "APE"; py "Open Invoices"] (py "APE > Open Invoices")) /\
  parse_navigation_path (py "APE > Open Invoices") = Some [py "APE"; py "Open Invoices"] /\
  py "APE_OpenInvoices.html" = generate_html_filename [py "APE"; py "Open Invoices"].
Proof.
  assert (Hup : @upload_file sample_libs sample_system
                  (Some (sample_upload breadcrumb_body)) empty_world
                = (accepted_world,
                   SuccessJson (py "page.doc") (py "APE_OpenInvoices.html")
                     (py "upload-html/APE_OpenInvoices.html") 1
                     [py "APE"; py "Open Invoices"] (py "APE > Open Invoices")))
    by (vm_compute; reflexivity).
  split; [exact Hup|].
  destruct (@upload_success sample_libs sample_system _ _ _ _ _ _ _ _ _ Hup)
    as (_ & _ & _ & Hparse & Hname & _).
  split; [exact Hparse|exact Hname].
Defined.

(** *** extract_navigation_from_html *)

(** X15: a breadcrumb paragraph at the start of the page, followed by a
    blank line, is found whatever comes after the blank line: the result
    is the text after [Navigation: ], its ends stripped and each run of
    whitespace turned into one space. The text is any that starts with a
    character other than whitespace and holds no newline, no ['<'] and no
    ['&']. *)
Theorem navigation_line_found `{Libs} (path rest : str) :
  path <> [] -> lstrip path = path ->
  ~ In nl path -> ~ In 60 path -> ~ In 38 path ->
  extract_navigation_from_html
    (py "<p>Navigation: " ++ path ++ py "</p>" ++ blank_line ++ rest)
  = Some (squeeze (py " ") (strip path)).
Proof.
  intros Hne Hstrip Hnl Hlt Hamp.
  apply (extract_navigation_plain _ (py " ") path
           (blank_line ++ sub no_flags tag_re [] rest)).
  - change (py "<p>Navigation: " ++ path ++ py "</p>" ++ blank_line ++ rest)
      with ([] ++ py "<" ++ py "p" ++ py ">"
            ++ (py "Navigation: " ++ path ++ py "</p>" ++ blank_line ++ rest)).
    rewrite sub_tag by (discriminate || (cbv; intuition discriminate)).
    change (py "Navigation: " ++ path ++ py "</p>" ++ blank_line ++ rest)
      with (py "Navigation: " ++ path ++ py "<" ++ py "/p" ++ py ">" ++ blank_line ++ rest).
    rewrite (app_assoc (py "Navigation: ") path).
    rewrite sub_tag; [|intros Hin; apply in_app_or in Hin as [Hin|Hin];
                        [revert Hin; cbv; intuition discriminate|exact (Hlt Hin)]
                      |discriminate|cbv; intuition discriminate].
    rewrite (sub_tag_prefix blank_line) by (cbv; intuition discriminate).
    rewrite <- !app_assoc. reflexivity.
  - repeat constructor.
  - exact Hne.
  - exact Hstrip.
  - exact Hnl.
  - exact Hamp.
  - right. eauto.
Qed.

Lemma navigation_line_found_witness :
  @extract_navigation_from_html sample_libs
    (py "<p>Navigation: APE  >   Open Invoices </p>" ++ [nl; nl] ++ py "<p>hi</p>")
  = Some (py "APE > Open Invoices").
Proof.
  refine (eq_trans
            (@navigation_line_found sample_libs (py "APE  >   Open Invoices ")
               (py "<p>hi</p>") _ _ _ _ _) _).
  - discriminate.
  - reflexivity.
  - cbv. intuition discriminate.
  - cbv. intuition discriminate.
  - cbv. intuition discriminate.
  - vm_compute. reflexivity.
Defined.

(** X16: without a blank line after it, the breadcrumb does not end with
    its paragraph: removing the tags joins the paragraph to the text that
    follows, and the breadcrumb runs on to the end of that text. *)
Theorem navigation_runs_on `{Libs} (path more : str) :
  path <> [] -> lstrip path = path ->
  ~ In nl (path ++ more) -> ~ In 60 (path ++ more) -> ~ In 38 (path ++ more) ->
  extract_navigation_from_html
    (py "<p>Navigation: " ++ path ++ py "</p><p>" ++ more ++ py "</p>")
  = Some (squeeze (py " ") (strip (path ++ more))).
Proof.
  intros Hne Hstrip Hnl Hlt Hamp.
  assert (Hp : ~ In 60 (py "Navigation: " ++ path)).
  { intros Hin. apply in_app_or in Hin as [Hin|Hin];
      [revert Hin; cbv; intuition discriminate|].
    apply Hlt, in_or_app. left. exact Hin. }
  assert (Hm : ~ In 60 more).
  { intros Hin. apply Hlt, in_or_app. right. exact Hin. }
  apply (extract_navigation_plain _ (py " ") (path ++ more) []).
  - change (py "<p>Navigation: " ++ path ++ py "</p><p>" ++ more ++ py "</p>")
      with ([] ++ py "<" ++ py "p" ++ py ">"
            ++ (py "Navigation: " ++ path ++ py "<" ++ py "/p" ++ py ">"
                ++ ([] ++ py "<" ++ py "p" ++ py ">"
                    ++ (more ++ py "<" ++ py "/p" ++ py ">" ++ [])))).
    rewrite sub_tag by (discriminate || (cbv; intuition discriminate)).
    rewrite (app_assoc (py "Navigation: ") path).
    rewrite sub_tag by (exact Hp || discriminate || (cbv; intuition discriminate)).
    rewrite sub_tag by (discriminate || (cbv; intuition discriminate)).
    rewrite sub_tag by (exact Hm || discriminate || (cbv; intuition discriminate)).
    rewrite !app_nil_r. cbn [app]. rewrite <- !app_assoc. reflexivity.
  - repeat constructor.
  - destruct path; [congruence|discriminate].
  - destruct path as [|c path]; [congruence|]. cbn [app lstrip] in Hstrip |- *.
    destruct (isspace c); [|reflexivity].
    exfalso. pose proof (lstrip_length path) as Hl.
    apply (f_equal (@length N)) in Hstrip. simpl in Hstrip. lia.
  - exact Hnl.
  - exact Hamp.
  - left. reflexivity.
Qed.

Lemma navigation_runs_on_witness :
  @extract_navigation_from_html sample_libs
    (py "<p>Navigation: APE > Invoices</p><p>Welcome to the page</p>")
  = Some (py "APE > InvoicesWelcome to the page").
Proof.
  refine (eq_trans
            (@navigation_runs_on sample_libs (py "APE > Invoices")
               (py "Welcome to the page") _ _ _ _ _) _).
  - discriminate.
  - reflexivity.
  - cbv. intuition discriminate.
  - cbv. intuition discriminate.
  - cbv. intuition discriminate.
  - vm_compute. reflexivity.
Defined.

(** X17: a breadcrumb that is returned holds no whitespace other than
    single spaces: no tab, no newline, no two spaces in a row. *)
Theorem navigation_single_spaced `{Libs} (html_content nav : str) :
  extract_navigation_from_html html_content = Some nav ->
  single_spaced nav = true.
Proof.
  unfold extract_navigation_from_html.
  destruct (search_group _ _ _) as [group1|]; [|discriminate].
  intros [= <-]. rewrite sub_ws_squeeze. apply squeeze_single_spaced.
Qed.

Lemma navigation_single_spaced_witness :
  single_spaced (py "APE > Open Invoices") = true.
Proof.
  apply (@navigation_single_spaced sample_libs
           (py "<p>Navigation: APE  >" ++ [9; nl] ++ py " Open Invoices</p>")).
  vm_compute. reflexivity.
Defined.

(** *** remove_navigation_from_html *)

(** X19: the navigation block that is removed starts at the first [<p] of
    the page, whatever that tag is, and ends with the first [</p>] after
    the first [Navigation:], both in any case: everything between goes
    with it, also paragraphs that come before the navigation line. The
    text before that first [<p] (in which no [<p] and no [<div] begins) is
    kept, and the text after the block is treated on its own. *)
Theorem navigation_block_removed (pre attrs mid body post : str) :
  begins_lit ignorecase_dotall (py "<p") pre = false ->
  begins_lit ignorecase_dotall (py "<div") pre = false ->
  ~ In 62 attrs ->
  find_lit ignorecase_dotall (py "Navigation:")
    (mid ++ py "Navigation:" ++ body ++ py "</p>" ++ post) = Some (length mid) ->
  find_lit ignorecase_dotall (py "</p>") (body ++ py "</p>" ++ post)
    = Some (length body) ->
  remove_navigation_from_html
    (pre ++ py "<p" ++ attrs ++ py ">" ++ mid ++ py "Navigation:" ++ body
     ++ py "</p>" ++ post)
  = pre ++ remove_navigation_from_html post.
Proof.
  intros Hp Hdiv Hattrs Hnav Hclose. unfold remove_navigation_from_html.
  assert (H1 : sub ignorecase_dotall (navigation_block_re (py "p")) []
                 (pre ++ py "<p" ++ attrs ++ py ">" ++ mid ++ py "Navigation:" ++ body
                  ++ py "</p>" ++ post)
               = pre ++ sub ignorecase_dotall (navigation_block_re (py "p")) [] post).
  { etransitivity;
      [exact (sub_clear_lit ignorecase_dotall (py "<" ++ py "p") pre _ [] _ Hp)|].
    f_equal.
    refine (sub_here ignorecase_dotall (navigation_block_re (py "p")) [] _ post None _ _).
    - rewrite !length_app. simpl. lia.
    - exact (navigation_block_match (py "p") attrs mid body post Hattrs Hnav Hclose). }
  rewrite H1.
  exact (sub_clear_lit ignorecase_dotall (py "<" ++ py "div") pre _ [] _ Hdiv).
Qed.

Lemma navigation_block_removed_witness :
  remove_navigation_from_html
    (py "<html><body><p class=x>Intro</p><P>Navigation: A > B</p><p>hi</p></body></html>")
  = py "<html><body><p>hi</p></body></html>".
Proof.
  refine (eq_trans
            (navigation_block_removed (py "<html><body>") (py " class=x")
               (py "Intro</p><P>") (py " A > B") (py "<p>hi</p></body></html>")
               _ _ _ _ _) _).
  - vm_compute. reflexivity.
  - vm_compute. reflexivity.
  - cbv. intuition discriminate.
  - vm_compute. reflexivity.
  - vm_compute. reflexivity.
  - vm_compute. reflexivity.
Defined.

(** *** How far the owner pattern reaches *)

(** X14: the paragraph that is removed for [Page Owner] starts at the
    first [<p>] of the page, not at the [<p>] of the paragraph that holds
    the phrase: whatever lies between that first [<p>] and the phrase,
    closed paragraphs included, is removed with it, up to the first [</p>]
    after the phrase. *)
Theorem owner_paragraph_reach (pre mid w body post : str) :
  begins_in (py "<p>") pre = false ->
  In w owner_words ->
  existsb (fun w' => begins_in w' mid) owner_words = false ->
  contains (py "</p>") body = false ->
  remove_confluence_metadata (pre ++ py "<p>" ++ mid ++ w ++ body ++ py "</p>" ++ post)
  = pre ++ remove_confluence_metadata post.
Proof.
  intros Hpre Hw Hmid Hbody. unfold remove_confluence_metadata.
  destruct (owner_reach_match mid w body post Hw Hmid Hbody) as (g & Hm).
  assert (H1 : sub dotall page_owner_re []
                 (pre ++ py "<p>" ++ mid ++ w ++ body ++ py "</p>" ++ post)
               = pre ++ sub dotall page_owner_re [] post).
  { etransitivity;
      [exact (sub_clear dotall (py "<p>") pre _ [] _ eq_refl Hpre)|].
    f_equal. refine (sub_here dotall page_owner_re [] _ post g _ Hm).
    rewrite !length_app. simpl. lia. }
  rewrite H1.
  exact (sub_clear dotall (py "<p>") pre _ [] _ eq_refl Hpre).
Qed.

Lemma owner_paragraph_reach_witness :
  remove_confluence_metadata
    (py "<h1>Billing</h1><p>Navigation: APE > Billing</p><p>Page Owner: Jane</p><p>hi</p>")
  = py "<h1>Billing</h1><p>hi</p>".
Proof.
  refine (eq_trans
            (owner_paragraph_reach (py "<h1>Billing</h1>")
               (py "Navigation: APE > Billing</p><p>") (py "Page Owner") (py ": Jane")
               (py "<p>hi</p>") _ _ _ _) _).
  - vm_compute. reflexivity.
  - left. reflexivity.
  - vm_compute. reflexivity.
  - vm_compute. reflexivity.
  - vm_compute. reflexivity.
Defined.

(** *** extract_image_from_part *)

(** X9: a base64 part whose headers end at the first blank line and whose
    first [Content-Location] is [file:///C:/<hex digits>/<name>.<ext>]
    yields the asset [<name>.<ext>] with the decoded bytes of the body.
    [<name>] may hold ['/'] and dots, but no newline and no earlier image
    extension; [<ext>] is [png], [jpg], [jpeg] or [gif]; what follows the
    extension on that line is not looked at. *)
Theorem image_part_extracted (before hash name ext after body : str) (data : bytes) :
  contains base64_header
    (before ++ location_prefix ++ hash ++ py "/" ++ name ++ py "." ++ ext ++ after
     ++ blank_line ++ body) = true ->
  contains blank_line
    (before ++ location_prefix ++ hash ++ py "/" ++ name ++ py "." ++ ext ++ after) = false ->
  begins_lit ignorecase location_prefix before = false ->
  hash <> [] -> forallb is_hex hash = true ->
  ~ In nl name ->
  first_ext (name ++ py "." ++ ext) = Some (length name) ->
  In ext image_exts ->
  Forall octet data ->
  drop_whitespace body = b64encode data ->
  extract_image_from_part
    (before ++ location_prefix ++ hash ++ py "/" ++ name ++ py "." ++ ext ++ after
     ++ blank_line ++ body)
  = Some (name ++ py "." ++ ext, data).
Proof.
  intros Hb64 Hblank Hbefore Hne Hhex Hnl Hfirst Hext Hdata Hbody.
  unfold extract_image_from_part. fold base64_header. rewrite Hb64. cbn [negb].
  fold ignorecase.
  rewrite (location_path_search before hash name ext (after ++ blank_line ++ body)
             Hbefore Hne Hhex Hnl Hfirst Hext).
  pose proof (base64_body_decoded _ body (name ++ py "." ++ ext) data Hdata Hblank Hbody)
    as Hdec.
  rewrite <- !app_assoc in Hdec. exact Hdec.
Qed.

Lemma image_part_extracted_witness :
  extract_image_from_part image_part
  = Some (py "foo.fld/image001.png", [0x89; 80; 78; 71; 13; 10; 26; 10]).
Proof.
  refine (image_part_extracted
            ([nl] ++ py "Content-Type: image/png" ++ [nl]
             ++ py "Content-Transfer-Encoding: base64" ++ [nl])
            (py "AB12CD") (py "foo.fld/image001") (py "png") []
            (py "iVBORw0KGgo=" ++ [nl]) [0x89; 80; 78; 71; 13; 10; 26; 10]
            _ _ _ _ _ _ _ _ _ _).
  - vm_compute. reflexivity.
  - vm_compute. reflexivity.
  - vm_compute. reflexivity.
  - discriminate.
  - vm_compute. reflexivity.
  - cbv. intuition discriminate.
  - vm_compute. reflexivity.
  - left. reflexivity.
  - repeat constructor.
  - vm_compute. reflexivity.
Defined.

(** *** Image references *)

(** X8: in a text that holds one image reference, the reference to an
    asset is rewritten to [images/<file name>], whether it names the asset
    by its key or, when the key has a directory, by its file name alone;
    the text around it is kept. The text before the reference, and the
    text from the key on, hold no other reference. This is the text that
    the call returns, when it returns. *)
Theorem image_reference_rewritten `{System} (a b key : str) (data : bytes)
    (output_dir : str) (w w' : world) (text : str) (count : nat) :
  (contains src_open a = false ->
   contains src_open (key ++ [dq] ++ b) = false ->
   save_images_and_update_html (a ++ src_attr key ++ b) [(key, data)] output_dir w
   = (w', Returned (text, count)) ->
   text = a ++ src_attr (py "images/" ++ determine_image_filename key data) ++ b) /\
  (contains (py "/") key = true -> ~ In dq key ->
   contains src_open a = false ->
   contains src_open (basename key ++ [dq] ++ b) = false ->
   save_images_and_update_html (a ++ src_attr (basename key) ++ b) [(key, data)]
     output_dir w
   = (w', Returned (text, count)) ->
   text = a ++ src_attr (py "images/" ++ basename key) ++ b).
Proof.
  split.
  - intros Ha Hb Hs. destruct (save_images_done _ _ _ _ _ _ _ Hs) as (_ & -> & _).
    cbn [fold_left]. apply save_one_reference; assumption.
  - intros Hk Hdq Ha Hb Hs. destruct (save_images_done _ _ _ _ _ _ _ Hs) as (_ & -> & _).
    cbn [fold_left]. apply save_bare_reference; assumption.
Qed.

Lemma image_reference_rewritten_witness :
  py "<p><img src=" ++ [dq] ++ py "images/image001.png" ++ [dq] ++ py "></p>"
  = py "<p><img " ++ src_attr (py "images/" ++ determine_image_filename
                                 (py "foo.fld/image001.png") [0x89; 80; 78; 71])
    ++ py "></p>".
Proof.
  destruct (@image_reference_rewritten sample_system (py "<p><img ") (py "></p>")
              (py "foo.fld/image001.png") [0x89; 80; 78; 71] UPLOAD_HTML_FOLDER
              empty_world
              (fst (@save_images_and_update_html sample_system
                      (py "<p><img " ++ src_attr (py "foo.fld/image001.png") ++ py "></p>")
                      [(py "foo.fld/image001.png", [0x89; 80; 78; 71])]
                      UPLOAD_HTML_FOLDER empty_world))
              (py "<p><img src=" ++ [dq] ++ py "images/image001.png" ++ [dq] ++ py "></p>")
              1%nat) as [H1 _].
  apply H1; vm_compute; reflexivity.
Defined.

(** *** decode_html_content, quoted-printable *)

(** X11: in quoted-printable mode, ASCII text without ['='] comes out as
    it is; a ['='] at the end of a line joins the line to the next one; and
    ['='] followed by two hexadecimal digits that give a value below 128
    comes out as the character of that value. In each case the text after
    is decoded on its own. *)
Theorem quoted_printable_decoding (a b : str) :
  is_ascii a = true -> ~ In 61 a -> is_ascii b = true ->
  decode_html_content a (py "quoted-printable") = a /\
  decode_html_content (a ++ py "=" ++ [nl] ++ b) (py "quoted-printable")
  = a ++ decode_html_content b (py "quoted-printable") /\
  (forall h1 h2 : N,
     is_hex h1 = true -> is_hex h2 = true ->
     16 * hex_value h1 + hex_value h2 < 128 ->
     decode_html_content (a ++ py "=" ++ [h1; h2] ++ b) (py "quoted-printable")
     = a ++ [16 * hex_value h1 + hex_value h2]
         ++ decode_html_content b (py "quoted-printable")).
Proof.
  intros Ha Heq Hb. split; [|split].
  - apply qp_plain; assumption.
  - apply qp_soft_break; assumption.
  - intros h1 h2 H1 H2 Hv. apply qp_escape; assumption.
Qed.

Lemma quoted_printable_decoding_witness :
  decode_html_content (py "<a href") (py "quoted-printable") = py "<a href" /\
  decode_html_content (py "<a href" ++ py "=" ++ [nl] ++ py "x>") (py "quoted-printable")
  = py "<a hrefx>" /\
  decode_html_content (py "<a href=3Dx>") (py "quoted-printable") = py "<a href=x>".
Proof.
  destruct (quoted_printable_decoding (py "<a href") (py "x>")) as (H1 & H2 & H3).
  - reflexivity.
  - cbv. intuition discriminate.
  - reflexivity.
  - split; [exact H1|]. split.
    + refine (eq_trans H2 _). vm_compute. reflexivity.
    + refine (eq_trans (H3 51 68 _ _ _) _); vm_compute; reflexivity.
Defined.

(** *** The scan view *)

(** X25: the scan lists a page exactly when the metadata has an entry for
    it and its path exists under the pages folder: an entry whose file is
    gone is left out, and a file without an entry is never listed. Each
    page is listed with its file name, its path under [upload-html/] and
    the segments of its breadcrumb. *)
Theorem scan_lists_existing_pages (w : world) (e : upload_entry) :
  In e (scan_uploads w) <->
  exists name m,
    metadata w !! name = Some m /\
    path_exists (path_join UPLOAD_HTML_FOLDER name) w = true /\
    e = {| entry_filename := name;
           entry_path := py "upload-html/" ++ name;
           entry_navigation := meta_navigation m |}.
Proof. exact (scan_uploads_In w e). Qed.

(** X26: a page uploaded with success is listed by a scan made right
    after, with the file name, the path and the breadcrumb segments that
    the upload answered, on a system that rewrites [metadata.json] when
    asked (and provided the page's file is not the staged copy of the
    upload itself, which the view deletes). *)
Theorem uploaded_page_is_listed `{Libs} `{System} (file : upload) (w w' : world)
    (filename html_filename html_path : str) (images : nat)
    (navigation : list str) (full_navigation : str) :
  upload_file (Some file) w
  = (w', SuccessJson filename html_filename html_path images navigation full_navigation) ->
  path_join UPLOAD_HTML_FOLDER html_filename <> path_join UPLOAD_FOLDER filename ->
  (forall w m, save_metadata_result w m = Saved) ->
  In {| entry_filename := html_filename;
        entry_path := html_path;
        entry_navigation := navigation |} (scan_uploads w').
Proof.
  intros Hup Hdiff Hsaved.
  destruct (upload_file_cases _ _ _ _ Hup)
    as [[_ (msg & Hr)] | (f & [= <-] & _ & _ & Hcase)]; [discriminate|].
  destruct Hcase as [(e & _ & Hr) | (w1 & w2 & success & result & n & _ & _ & Hcase)];
    [discriminate|].
  destruct Hcase as [[_ (st & msg & Hr)] | (nav & nav_parts & _ & _ & _ & _ & Hwrite)];
    [discriminate|].
  destruct Hwrite as [(_ & Hr) | (w3 & Hpage & -> & Hr)]; [discriminate|].
  injection Hr as -> -> -> -> -> ->.
  destruct (write_text_effect _ _ _ _ _ Hpage) as (_ & _ & _ & _ & Hdata).
  destruct (Hdata eq_refl) as (data & _ & ->).
  apply scan_uploads_In.
  exists (generate_html_filename nav_parts),
    {| meta_filename := generate_html_filename nav_parts;
       meta_navigation := nav_parts;
       meta_full_navigation := nav;
       meta_path := py "upload-html/" ++ generate_html_filename nav_parts |}.
  set (w3 := set_file (path_join UPLOAD_HTML_FOLDER (generate_html_filename nav_parts))
               data w2).
  destruct (unlink_effect (path_join UPLOAD_FOLDER (secure_filename (upload_filename file)))
              (fst (add_document_metadata (generate_html_filename nav_parts)
                      nav_parts nav w3))) as (Hm5 & _ & Hf5).
  split; [|split; [|reflexivity]].
  - rewrite Hm5. unfold add_document_metadata, save_metadata, load_metadata.
    rewrite Hsaved. cbn [fst metadata]. apply lookup_insert_eq.
  - unfold path_exists. rewrite (Hf5 _ Hdiff).
    destruct (add_document_metadata_effect (generate_html_filename nav_parts)
                nav_parts nav w3) as (-> & _).
    unfold w3. cbn [set_file files]. rewrite lookup_insert_eq.
    rewrite bool_decide_eq_true_2 by eauto. reflexivity.
Qed.

Lemma uploaded_page_is_listed_witness :
  In {| entry_filename := py "APE_OpenInvoices.html";
        entry_path := py "upload-html/APE_OpenInvoices.html";
        entry_navigation := [py "APE"; py "Open Invoices"] |}
     (scan_uploads accepted_world).
Proof.
  apply (@uploaded_page_is_listed sample_libs sample_system (sample_upload breadcrumb_body)
           empty_world accepted_world (py "page.doc") _ _ 1 _ (py "APE > Open Invoices")).
  - vm_compute. reflexivity.
  - discriminate.
  - reflexivity.
Defined.

(** *** The file name of an asset *)

(** X10: the file name chosen for an asset never holds a ['/'], whatever
    the key and the bytes; and for an asset that [extract_image_from_part]
    returns it is not empty, and the path that is opened for it is
    [<output_dir>/images/<file name>]: directly in the images folder,
    whatever directories its Content-Location names. When
    [save_images_and_update_html] returns, the asset has its file
    there. *)
Theorem asset_file_name_safe :
  (forall (key : str) (data : bytes), ~ In 47 (determine_image_filename key data)) /\
  (forall (part key : str) (data : bytes),
     extract_image_from_part part = Some (key, data) ->
     determine_image_filename key data <> [] /\
     forall output_dir : str,
       image_path output_dir key data
       = path_join output_dir (py "images") ++ py "/" ++ determine_image_filename key data) /\
  (forall (S : System) (part key : str) (data : bytes) (html_content : str)
          (images : list (str * bytes)) (output_dir : str) (w w' : world)
          (text : str) (count : nat),
     extract_image_from_part part = Some (key, data) ->
     In (key, data) images ->
     save_images_and_update_html html_content images output_dir w
     = (w', Returned (text, count)) ->
     is_Some (files w' !! (path_join output_dir (py "images") ++ py "/"
                           ++ determine_image_filename key data))).
Proof.
  assert (Hpath : forall part key data output_dir,
            extract_image_from_part part = Some (key, data) ->
            image_path output_dir key data
            = path_join output_dir (py "images") ++ py "/"
              ++ determine_image_filename key data).
  { intros part key data output_dir Hex. unfold image_path.
    apply path_join_below; [exact images_clean|exact (extracted_name_clean _ _ _ Hex)]. }
  split; [exact filename_no_slash|]. split.
  - intros part key data Hex.
    split; [exact (proj1 (proj2 (extracted_name_clean _ _ _ Hex)))|].
    intros output_dir. exact (Hpath _ _ _ _ Hex).
  - intros S part key data html_content images output_dir w w' text count Hex Hin Hs.
    rewrite <- (Hpath _ _ _ output_dir Hex).
    destruct (save_images_done _ _ _ _ _ _ _ Hs) as (_ & _ & _ & Hw). exact (Hw _ _ Hin).
Qed.

(** X27: what [determine_image_filename] returns, case by case: a key with
    neither ['/'] nor a backslash gives [<key>.<ext>], the extension
    sniffed from the first bytes (PNG magic: png, JPEG magic: jpg, [GIF]:
    gif, anything else: png); a key with a ['/'] gives the text after its
    last ['/'], verbatim; a key with a backslash and no ['/'] gives the
    whole key ([basename] is that of POSIX). *)
Theorem image_file_name_cases (key : str) (data : bytes) :
  (contains (py "/") key = false -> contains (py "\") key = false ->
     determine_image_filename key data = key ++ py "." ++ sniff_ext data) /\
  (contains (py "/") key = true ->
     exists dir base, key = dir ++ py "/" ++ base /\
       contains (py "/") base = false /\
       determine_image_filename key data = base) /\
  (contains (py "/") key = false -> contains (py "\") key = true ->
     determine_image_filename key data = key) /\
  (forall rest, sniff_ext ([0x89; 80; 78; 71] ++ rest) = py "png") /\
  (forall rest, sniff_ext ([0xff; 0xd8; 0xff] ++ rest) = py "jpg") /\
  (forall rest, sniff_ext (py "GIF" ++ rest) = py "gif") /\
  (startswith [0x89; 80; 78; 71] data = false ->
   startswith [0xff; 0xd8; 0xff] data = false ->
   startswith (py "GIF") data = false -> sniff_ext data = py "png").
Proof.
  unfold determine_image_filename.
  split; [intros -> ->; reflexivity|].
  split.
  { intros H. rewrite H. simpl.
    apply (contains_single 47) in H.
    destruct (basename_spec key) as [_ Hb].
    destruct (Hb H) as (dir & base & Hk & Hn & Hbase).
    exists dir, base. split; [exact Hk|]. split; [|exact Hbase].
    apply (contains_single_false 47). exact Hn. }
  split.
  { intros H1 H2. rewrite H1, H2. simpl.
    apply (contains_single_false 47) in H1.
    destruct (basename_spec key) as [Hb _]. exact (Hb H1). }
  split; [intros rest; reflexivity|].
  split; [intros rest; reflexivity|].
  split; [intros rest; reflexivity|].
  unfold sniff_ext. intros -> -> ->. reflexivity.
Qed.

(** Scenario C's asset: a bare hexadecimal key and JPEG bytes. *)
Lemma image_file_name_cases_witness :
  contains (py "/") (py "ABCDEF1234567890") = false /\
  contains (py "\") (py "ABCDEF1234567890") = false /\
  determine_image_filename (py "ABCDEF1234567890") [0xff; 0xd8; 0xff; 0xe0]
    = py "ABCDEF1234567890.jpg".
Proof.
  split; [reflexivity|]. split; [reflexivity|].
  destruct (image_file_name_cases (py "ABCDEF1234567890")
              [0xff; 0xd8; 0xff; 0xe0]) as [H _].
  rewrite H; reflexivity.
Defined.

(** *** Writes that are refused *)

(** X28: an asset whose file name holds a NUL cannot be written: the
    conversion of a document that has one fails with the text of the
    exception in its message, whatever the system answers to the other
    calls; the view answers 500 with that message, the metadata is
    untouched, and the staged copy of the upload is left where it was
    staged. *)
Theorem null_in_file_name_fails `{Libs} `{System} (file : upload) (w w1 : world)
    (text : str) (parts : list str) (html : str) (images : list (str * bytes))
    (key : str) (data : bytes) :
  upload_filename file <> [] ->
  allowed_file (upload_filename file) = true ->
  write_file (path_join UPLOAD_FOLDER (secure_filename (upload_filename file)))
    (upload_content file) w = (w1, None) ->
  read_text (path_join UPLOAD_FOLDER (secure_filename (upload_filename file))) w1
  = Some text ->
  _split_mime_parts text = Some parts ->
  scan_parts parts = (Some html, images) ->
  contains (py "<html") (lower html) = true ->
  In (key, data) images ->
  In 0 (determine_image_filename key data) ->
  exists e w2,
    extract_html_and_images
      (path_join UPLOAD_FOLDER (secure_filename (upload_filename file)))
      UPLOAD_HTML_FOLDER w1
    = (w2, (false, py "Error processing document: " ++ e, 0%nat)) /\
    upload_file (Some file) w
    = (w2, FailureJson 500 (py "Error processing document: " ++ e)) /\
    metadata w2 = metadata w /\
    is_Some (files w2 !! path_join UPLOAD_FOLDER (secure_filename (upload_filename file))).
Proof.
  intros Hname Hallowed Hstage Hread Hsplit Hscan Hhtml Hin Hz.
  set (upload_path := path_join UPLOAD_FOLDER (secure_filename (upload_filename file))) in *.
  assert (Hne : bool_decide (html = []) || negb (contains (py "<html") (lower html)) = false).
  { rewrite Hhtml. destruct html; [discriminate|reflexivity]. }
  assert (Hraised : exists e,
             snd (save_images_and_update_html html images UPLOAD_HTML_FOLDER w1) = Raised e).
  { unfold save_images_and_update_html.
    destruct (mkdir (path_join UPLOAD_HTML_FOLDER (py "images")) w1) as [w0 [e|]];
      [exists e; reflexivity|].
    apply (save_images_refused _ _ _ key data Hin). left.
    apply null_in_path; [apply filename_no_slash|exact Hz]. }
  destruct Hraised as (e & He).
  destruct (save_images_and_update_html html images UPLOAD_HTML_FOLDER w1) as [w2 o] eqn:Hs.
  cbn [snd] in He. subst o.
  assert (Hconv : extract_html_and_images upload_path UPLOAD_HTML_FOLDER w1
                  = (w2, (false, py "Error processing document: " ++ e, 0%nat))).
  { unfold extract_html_and_images. rewrite Hread, Hsplit, Hscan, Hne, Hs. reflexivity. }
  exists e, w2. split; [exact Hconv|].
  destruct (write_file_effect _ _ _ _ _ Hstage) as (Hm1 & _ & _ & _ & Hset).
  destruct (save_images_effect _ _ _ _ _ _ Hs) as (Hm2 & Hk2 & _).
  split; [|split].
  - unfold upload_file. rewrite bool_decide_eq_false_2 by exact Hname.
    rewrite Hallowed. cbv zeta. fold upload_path. rewrite Hstage, Hconv. reflexivity.
  - rewrite Hm2. exact Hm1.
  - apply Hk2. rewrite (Hset eq_refl). cbn [set_file files].
    rewrite lookup_insert_eq. eauto.
Qed.

Lemma null_in_file_name_fails_witness :
  exists e w2,
    @extract_html_and_images sample_system (py "upload/page.doc") UPLOAD_HTML_FOLDER
      (set_file (py "upload/page.doc") (upload_content null_name_upload) empty_world)
    = (w2, (false, py "Error processing document: " ++ e, 0%nat)) /\
    @upload_file sample_libs sample_system (Some null_name_upload) empty_world
    = (w2, FailureJson 500 (py "Error processing document: " ++ e)) /\
    metadata w2 = metadata empty_world /\
    is_Some (files w2 !! py "upload/page.doc").
Proof.
  apply (@null_in_file_name_fails sample_libs sample_system null_name_upload empty_world
           (set_file (py "upload/page.doc") (upload_content null_name_upload) empty_world)
           (document_with breadcrumb_body null_image_part)
           [py "MIME-Version: 1.0" ++ [nl]
            ++ py "Content-Type: multipart/related; boundary=" ++ [dq] ++ py "X" ++ [dq]
            ++ [nl; nl];
            [nl] ++ py "Content-Type: text/html" ++ [nl; nl] ++ breadcrumb_body ++ [nl];
            null_image_part;
            py "--" ++ [nl]]
           breadcrumb_body
           [(py "foo.fld/image" ++ [0] ++ py ".png", [0x89; 80; 78; 71; 13; 10; 26; 10])]
           (py "foo.fld/image" ++ [0] ++ py ".png") [0x89; 80; 78; 71; 13; 10; 26; 10]).
  - discriminate.
  - vm_compute. reflexivity.
  - vm_compute. reflexivity.
  - vm_compute. reflexivity.
  - vm_compute. reflexivity.
  - vm_compute. reflexivity.
  - vm_compute. reflexivity.
  - left. reflexivity.
  - vm_compute. intuition.
Defined.

(** X29: when the page cannot be opened for writing (its file name comes
    from the breadcrumb, and can name a folder that does not exist), the
    exception leaves the view: there is no answer of the view's own, the
    files are as the conversion left them, with the staged copy of the
    upload and the images still there, and the metadata is untouched. *)
Theorem page_write_refused `{Libs} `{System} (file : upload) (w w1 w2 : world)
    (result : str) (num_images : nat) (nav_breadcrumb : str) (nav_parts : list str)
    (e : str) :
  upload_filename file <> [] ->
  allowed_file (upload_filename file) = true ->
  write_file (path_join UPLOAD_FOLDER (secure_filename (upload_filename file)))
    (upload_content file) w = (w1, None) ->
  extract_html_and_images
    (path_join UPLOAD_FOLDER (secure_filename (upload_filename file)))
    UPLOAD_HTML_FOLDER w1
  = (w2, (true, result, num_images)) ->
  extract_navigation_from_html result = Some nav_breadcrumb ->
  nav_breadcrumb <> [] ->
  parse_navigation_path nav_breadcrumb = Some nav_parts ->
  call_error open_error w2
    (path_join UPLOAD_HTML_FOLDER (generate_html_filename nav_parts)) = Some e ->
  upload_file (Some file) w = (w2, Unhandled) /\
  metadata w2 = metadata w /\
  is_Some (files w2 !! path_join UPLOAD_FOLDER (secure_filename (upload_filename file))).
Proof.
  intros Hname Hallowed Hstage Hconv Hnav Hne Hparse Hopen.
  destruct (write_file_effect _ _ _ _ _ Hstage) as (Hm1 & _ & _ & _ & Hset).
  destruct (conversion_effect _ _ _ _ _ Hconv) as (Hm2 & Hk2).
  split; [|split].
  - unfold upload_file. rewrite bool_decide_eq_false_2 by exact Hname.
    rewrite Hallowed. cbv zeta. rewrite Hstage, Hconv, Hnav.
    destruct nav_breadcrumb as [|c nav]; [congruence|].
    rewrite Hparse. unfold write_text. rewrite Hopen. reflexivity.
  - rewrite Hm2. exact Hm1.
  - apply Hk2. rewrite (Hset eq_refl). cbn [set_file files].
    rewrite lookup_insert_eq. eauto.
Qed.

Lemma page_write_refused_witness :
  snd (@upload_file sample_libs sample_system (Some (sample_upload folder_body)) empty_world)
  = Unhandled /\
  generate_html_filename [py "APE/Billing"; py "Invoices"] = py "APE/Billing_Invoices.html".
Proof.
  split; [|vm_compute; reflexivity].
  destruct (@page_write_refused sample_libs sample_system (sample_upload folder_body)
              empty_world (staged_world folder_body)
              (fst (@extract_html_and_images sample_system (py "upload/page.doc")
                      UPLOAD_HTML_FOLDER (staged_world folder_body)))
              (py "<html><body><p>Navigation: APE/Billing &gt; Invoices</p>" ++ [nl; nl]
               ++ py "<p>hi</p></body></html>")
              1 (py "APE/Billing > Invoices") [py "APE/Billing"; py "Invoices"]
              (no_such_file (py "upload-html/APE/Billing_Invoices.html")))
    as (Hup & _).
  - discriminate.
  - vm_compute. reflexivity.
  - vm_compute. reflexivity.
  - vm_compute. reflexivity.
  - vm_compute. reflexivity.
  - discriminate.
  - vm_compute. reflexivity.
  - vm_compute. reflexivity.
  - rewrite Hup. reflexivity.
Defined.

(** *** The literal paragraph tag *)

(** X30: a paragraph that opens with the literal tag [<p>], holds no
    [</p>] before its own, and holds [Page Owner] (initials in either
    case, also spelt [Oner]) is removed whole when no [<p>] begins in the
    text before it, and the text after it is sanitized on its own; the
    same holds for [Page Contact] (initials in either case) in a text
    without the owner phrase. *)
Theorem literal_paragraph_removed (pre body post : str) :
  begins_in (py "<p>") pre = false ->
  contains (py "</p>") body = false ->
  has_word owner_words body = true \/
  (has_word contact_words body = true /\
   has_word owner_words (pre ++ py "<p>" ++ body ++ py "</p>" ++ post) = false) ->
  remove_confluence_metadata (pre ++ py "<p>" ++ body ++ py "</p>" ++ post)
  = pre ++ remove_confluence_metadata post.
Proof.
  intros Hpre Hfree Hword. unfold remove_confluence_metadata.
  fold close_p in Hfree, Hword |- *.
  destruct Hword as [Ho | [Hc Hno]].
  - apply has_word_true in Ho as (w & a & b & Hw & ->).
    rewrite owner_sub by assumption.
    unfold page_contact_re at 1.
    rewrite sub_clear by (reflexivity || exact Hpre). reflexivity.
  - rewrite (owner_sub_absent _ Hno).
    apply has_word_app_false in Hno as [_ Hno].
    apply has_word_app_false in Hno as [_ Hno].
    apply has_word_app_false in Hno as [_ Hno].
    apply has_word_app_false in Hno as [_ Hno].
    rewrite (owner_sub_absent _ Hno).
    apply has_word_true in Hc as (w & a & b & Hw & ->).
    apply contact_sub; assumption.
Qed.

(** Scenario D, after some text and before another paragraph. *)
Lemma literal_paragraph_removed_witness :
  remove_confluence_metadata
    (py "<h1>Billing</h1><p>Page Owner: <b>Jane Doe</b></p><p>hi</p>")
  = py "<h1>Billing</h1><p>hi</p>".
Proof.
  change (py "<h1>Billing</h1><p>Page Owner: <b>Jane Doe</b></p><p>hi</p>")
    with (py "<h1>Billing</h1>" ++ py "<p>" ++ py "Page Owner: <b>Jane Doe</b>"
          ++ py "</p>" ++ py "<p>hi</p>").
  rewrite literal_paragraph_removed.
  - vm_compute. reflexivity.
  - vm_compute. reflexivity.
  - vm_compute. reflexivity.
  - left. vm_compute. reflexivity.
Defined.

End Extras.
